(** * Assessment engine: attempt lifecycle, grading, analytics, adaptive selection

    A shallow embedding of [src/assessment.py].  The four SQLite tables are
    lists of rows in rowid (insertion) order, a Python [dict] of answers is a
    [gmap], a Python [set] is a [gset], and every source of non-determinism
    ([_uid()], [_now()], the wall clock) is read from an explicit environment.

    Conventions of the embedding:
    - a Python [str] is a [string] whose characters are the code points below
      256 (the Latin-1 block); [strip] and [lower] follow Python on that block;
    - a Python [float] is the exact rational value ([Q], kept reduced) of a
      binary64 number; every float operation rounds its exact result to the
      nearest binary64 number, ties to the even significand, and [round(x, n)]
      rounds the exact value of [x] half-to-even at [n] decimals and returns
      the binary64 number nearest to that decimal.  Infinities, NaN and the
      sign of zero are not represented;
    - a Python [int] is a [Z]; the ints SQLite stores are those of 64 bits. *)

From Stdlib Require Import ZArith QArith Qabs Lqa Ascii String List Permutation.
From stdpp Require Import base decidable option list gmap strings.

Local Open Scope string_scope.
Local Open Scope Z_scope.

(* ===================================================================== *)
(** ** Python strings *)
(* ===================================================================== *)

Module PyStr.

(** [str.isspace] on one code point below 256. *)
Definition isspace (c : ascii) : bool :=
  let n := N_of_ascii c in
  ((9 <=? n)%N && (n <=? 13)%N) || ((28 <=? n)%N && (n <=? 32)%N)
  || (n =? 133)%N || (n =? 160)%N.

(** [str.lower] on one code point below 256. *)
Definition lower_char (c : ascii) : ascii :=
  let n := N_of_ascii c in
  if ((65 <=? n)%N && (n <=? 90)%N)
     || ((192 <=? n)%N && (n <=? 222)%N && negb (n =? 215)%N)
  then ascii_of_N (n + 32) else c.

Fixpoint lower (s : string) : string :=
  match s with
  | EmptyString => EmptyString
  | String c s' => String (lower_char c) (lower s')
  end.

Fixpoint lstrip (s : string) : string :=
  match s with
  | EmptyString => EmptyString
  | String c s' => if isspace c then lstrip s' else s
  end.

Fixpoint rstrip (s : string) : string :=
  match s with
  | EmptyString => EmptyString
  | String c s' =>
      match rstrip s' with
      | EmptyString => if isspace c then EmptyString else String c EmptyString
      | r => String c r
      end
  end.

(** [s.strip()] *)
Definition strip (s : string) : string := rstrip (lstrip s).

(** Truth value of a [str]: non-empty. *)
Definition truthy (s : string) : bool :=
  match s with EmptyString => false | String _ _ => true end.

(** [s.split(sep)] for a one-character separator; never returns []. *)
Fixpoint split (sep : ascii) (s : string) : list string :=
  match s with
  | EmptyString => [EmptyString]
  | String c s' =>
      if Ascii.eqb c sep then EmptyString :: split sep s'
      else match split sep s' with
           | t :: ts => String c t :: ts
           | [] => [String c EmptyString]
           end
  end.

Fixpoint startswith (s p : string) : bool :=
  match p, s with
  | EmptyString, _ => true
  | String _ _, EmptyString => false
  | String a p', String b s' => Ascii.eqb a b && startswith s' p'
  end.

(** [sub in s] *)
Fixpoint contains (sub s : string) : bool :=
  startswith s sub ||
  match s with
  | EmptyString => false
  | String _ s' => contains sub s'
  end.

(** [s[:n]] for [n >= 0]. *)
Fixpoint take (n : nat) (s : string) : string :=
  match n, s with
  | O, _ => EmptyString
  | S _, EmptyString => EmptyString
  | S n', String c s' => String c (take n' s')
  end.

End PyStr.

(* ===================================================================== *)
(** ** Python floats, as the rational values of binary64 numbers *)
(* ===================================================================== *)

Module PyNum.

(** Nearest integer, ties to the even one. *)
Definition round_half_even (x : Q) : Z :=
  let n := Qnum x in
  let d := Zpos (Qden x) in
  let q := n / d in
  let r := n mod d in
  if 2 * r <? d then q
  else if d <? 2 * r then q + 1
  else if Z.even q then q else q + 1.

(** [2 ** e] for any int [e]. *)
Definition pow2 (e : Z) : Q :=
  if 0 <=? e then inject_Z (2 ^ e) else Qmake 1 (Z.to_pos (2 ^ (- e))).

(** [floor(log2(n / d))] *)
Definition floor_log2 (n d : positive) : Z :=
  let l := Z.log2 (Zpos n) - Z.log2 (Zpos d) in
  if Zpos d * 2 ^ Z.max l 0 <=? Zpos n * 2 ^ Z.max (- l) 0 then l else l - 1.

(** The binary64 number nearest to a positive [x], ties to the even
    significand: 53 significant bits, least exponent -1074. *)
Definition nearest_double_pos (x : Q) : Q :=
  let e := Z.max (floor_log2 (Z.to_pos (Qnum x)) (Qden x) - 52) (-1074) in
  Qred (inject_Z (round_half_even (x * pow2 (- e))) * pow2 e).

(** The binary64 number nearest to [x]: what a float operation returns when
    its exact result is [x], and what a decimal literal denotes. *)
Definition nearest_double (x : Q) : Q :=
  let x := Qred x in
  match Qnum x with
  | Z0 => 0%Q
  | Zpos _ => nearest_double_pos x
  | Zneg _ => Qred (- nearest_double_pos (- x))
  end.

(** [round(x, nd)] on a float: the decimal with [nd] places nearest to the
    exact value of [x], ties to even, read back as a float. *)
Definition round (x : Q) (nd : nat) : Q :=
  let scale := 10 ^ Z.of_nat nd in
  nearest_double (Qmake (round_half_even (x * inject_Z scale)) (Z.to_pos scale)).

(** [a / b] on two ints, for [b <> 0]: the correctly rounded quotient. *)
Definition truediv (a b : Z) : Q := nearest_double (inject_Z a / inject_Z b).

(** [x * y], [x + y] and [x / y] on floats. *)
Definition mul (x y : Q) : Q := nearest_double (x * y).

Definition add (x y : Q) : Q := nearest_double (x + y).

Definition div (x y : Q) : Q := nearest_double (x / y).

(** The least magnitude that rounds beyond the largest float. *)
Definition overflow_threshold : Z := 2 ^ 1024 - 2 ^ 970.

End PyNum.

(* ===================================================================== *)
(** ** Data model (the dataclasses and the four tables) *)
(* ===================================================================== *)

Record Question := mkQuestion {
  q_id : string;
  q_text : string;
  q_type : string;        (* multiple_choice | true_false | short_answer | multi_select *)
  q_options : list (string * string);
  q_correct_answer : string;
  q_difficulty : string;  (* easy | medium | hard *)
  q_tags : list string;
  q_explanation : string;
  q_points : Z;
  q_created_at : string
}.

Record Quiz := mkQuiz {
  qz_id : string;
  qz_title : string;
  qz_description : string;
  qz_question_ids : list string;
  qz_time_limit_mins : Z;
  qz_passing_score : Q;
  qz_shuffle_questions : bool;
  qz_shuffle_options : bool;
  qz_allow_review : bool;
  qz_max_attempts : Z;
  qz_created_at : string
}.

(** A row of [attempts]; [None] is SQL NULL / Python [None]. *)
Record Attempt := mkAttempt {
  a_id : string;
  a_quiz_id : string;
  a_student_id : string;
  a_answers : gmap string string;
  a_score : option Q;
  a_started_at : string;
  a_completed_at : option string;
  a_time_taken_mins : option Q;
  a_passed : option bool
}.

(** A row of [question_results]. *)
Record QResultRow := mkQResultRow {
  qr_id : string;
  qr_attempt_id : string;
  qr_question_id : string;
  qr_student_answer : string;
  qr_is_correct : bool;
  qr_points_earned : Z;
  qr_points_possible : Z
}.

(** The database: each table in rowid order. *)
Record Store := mkStore {
  questions : list Question;
  quizzes : list Quiz;
  attempts : list Attempt;
  question_results : list QResultRow
}.

(** The state [init_db] leaves on a new database file. *)
Definition empty_store : Store := mkStore [] [] [] [].

(** What the operations read from outside: the [k]-th [_uid()] of the call,
    [_now()], and the minutes between a stored ISO timestamp and the clock
    ([(now_dt - started).total_seconds() / 60]). *)
Record Env := mkEnv {
  uid : nat -> string;
  now : string;
  minutes_since : string -> Q
}.

(** The [{"error": ...}] payloads, by message. *)
Inductive Error : Type :=
| QuizNotFound (quiz_id : string)     (* "Quiz {quiz_id} not found" *)
| AttemptNotFound                     (* "Attempt not found" *)
| AlreadyCompleted                    (* "Attempt already completed" *)
| LimitExceeded (max_attempts : Z)    (* "Max attempts ({n}) reached for this quiz" *)
| NoCandidates.                       (* "No questions available for adaptive quiz" *)

(** How a call ends: a payload, an error payload, or an exception:
    [sqlite3.IntegrityError] on a duplicate primary key or a failed CHECK,
    [OverflowError] on an int SQLite cannot hold or a quotient no float can,
    [ZeroDivisionError].  An exception inside a [with] block rolls back. *)
Inductive Outcome (A : Type) : Type :=
| Ok (a : A)
| Err (e : Error)
| IntegrityError
| OverflowError
| ZeroDivisionError.
Arguments Ok {A} a.
Arguments Err {A} e.
Arguments IntegrityError {A}.
Arguments OverflowError {A}.
Arguments ZeroDivisionError {A}.

(** [a / b] on two ints, with its exceptions. *)
Definition int_truediv (a b : Z) : Outcome Q :=
  if b =? 0 then ZeroDivisionError
  else if Z.abs b * PyNum.overflow_threshold <=? Z.abs a then OverflowError
  else Ok (PyNum.truediv a b).

(** An int the [sqlite3] module can bind to a parameter. *)
Definition sqlite_int (n : Z) : bool := (- 2 ^ 63 <=? n) && (n <? 2 ^ 63).

(** [CHECK(type IN (...))] and [CHECK(difficulty IN (...))] of [questions]. *)
Definition check_type (q_type : string) : bool :=
  existsb (String.eqb q_type)
          ["multiple_choice"; "true_false"; "short_answer"; "multi_select"].

Definition check_difficulty (difficulty : string) : bool :=
  existsb (String.eqb difficulty) ["easy"; "medium"; "hard"].

(* ===================================================================== *)
(** ** Question and quiz operations *)
(* ===================================================================== *)

Definition get_question (st : Store) (question_id : string) : option Question :=
  find (fun q => String.eqb (q_id q) question_id) (questions st).

Definition get_quiz (st : Store) (quiz_id : string) : option Quiz :=
  find (fun z => String.eqb (qz_id z) quiz_id) (quizzes st).

Definition create_question (st : Store) (env : Env) (text q_type : string)
    (options : list (string * string)) (correct_answer difficulty : string)
    (tags : list string) (explanation : string) (points : Z)
  : Outcome Question * Store :=
  let q := mkQuestion (uid env 0) text q_type options correct_answer difficulty
                      tags explanation points (now env) in
  if negb (sqlite_int points)
  then (OverflowError, st)
  else if negb (check_type q_type) || negb (check_difficulty difficulty)
          || existsb (fun q' => String.eqb (q_id q') (q_id q)) (questions st)
  then (IntegrityError, st)
  else (Ok q, mkStore (questions st ++ [q]) (quizzes st) (attempts st)
                      (question_results st)).

Definition create_quiz (st : Store) (env : Env) (title description : string)
    (question_ids : list string) (time_limit_mins : Z) (passing_score : Q)
    (shuffle_questions : bool) (max_attempts : Z)
  : Outcome Quiz * Store :=
  let quiz := mkQuiz (uid env 0) title description question_ids time_limit_mins
                     passing_score shuffle_questions false true max_attempts
                     (now env) in
  if negb (sqlite_int time_limit_mins) || negb (sqlite_int max_attempts)
  then (OverflowError, st)
  else if existsb (fun z => String.eqb (qz_id z) (qz_id quiz)) (quizzes st)
  then (IntegrityError, st)
  else (Ok quiz, mkStore (questions st) (quizzes st ++ [quiz]) (attempts st)
                         (question_results st)).

(** [any(t in qobj.tags for t in tags)] *)
Definition any_tag (tags qtags : list string) : bool :=
  existsb (fun t => existsb (String.eqb t) qtags) tags.

(** [list_questions(tags, difficulty)]; [None] and the empty value of either
    argument switch that filter off. *)
Definition list_questions (st : Store) (tags : option (list string))
    (difficulty : option string) : list Question :=
  let rows :=
    match difficulty with
    | Some d =>
        if PyStr.truthy d
        then filter (fun q => String.eqb (q_difficulty q) d = true) (questions st)
        else questions st
    | None => questions st
    end in
  match tags with
  | Some (t :: ts) => filter (fun q => any_tag (t :: ts) (q_tags q) = true) rows
  | _ => rows
  end.

Fixpoint resolve_questions (st : Store) (qids : list string) : list Question :=
  match qids with
  | [] => []
  | qid :: rest =>
      match get_question st qid with
      | Some q => q :: resolve_questions st rest
      | None => resolve_questions st rest
      end
  end.

Definition get_quiz_questions (st : Store) (quiz_id : string) : list Question :=
  match get_quiz st quiz_id with
  | None => []
  | Some quiz => resolve_questions st (qz_question_ids quiz)
  end.

(* ===================================================================== *)
(** ** Grading engine *)
(* ===================================================================== *)

(** One dict of [grade_result["results"]]. *)
Record Result := mkResult {
  r_question_id : string;
  r_question_text : string;
  r_student_answer : string;
  r_correct_answer : string;
  r_is_correct : bool;
  r_points_earned : Z;
  r_points_possible : Z;
  r_explanation : string
}.

Record GradeResult := mkGradeResult {
  g_score : Q;
  g_correct : Z;
  g_total : Z;
  g_earned_points : Z;
  g_total_points : Z;
  g_results : list Result
}.

(** [set(a.strip() for a in s.split(",") if a.strip())] *)
Definition token_list (s : string) : list string :=
  map PyStr.strip
      (filter (fun a => PyStr.truthy (PyStr.strip a) = true) (PyStr.split "," s)).

Definition token_set (s : string) : gset string := list_to_set (token_list s).

(** The [if / elif] chain on [q.type]; both arguments already normalized. *)
Definition is_correct (q_type student_answer correct : string) : bool :=
  if String.eqb q_type "multiple_choice" || String.eqb q_type "true_false"
  then String.eqb student_answer correct
  else if String.eqb q_type "multi_select"
  then bool_decide (token_set student_answer = token_set correct)
  else if String.eqb q_type "short_answer"
  then PyStr.contains correct student_answer || String.eqb student_answer correct
  else false.

(** [answers.get(q.id, "").strip().lower()] *)
Definition normalized_answer (answers : gmap string string) (q : Question) : string :=
  PyStr.lower (PyStr.strip (default "" (answers !! q_id q))).

Definition normalized_correct (q : Question) : string :=
  PyStr.lower (PyStr.strip (q_correct_answer q)).

(** The loop variables of [grade_attempt_dict]. *)
Record GradeAcc := mkGradeAcc {
  acc_total_points : Z;
  acc_earned_points : Z;
  acc_correct_count : Z;
  acc_results : list Result
}.

(** One iteration of [for q in questions]. *)
Definition grade_step (answers : gmap string string) (acc : GradeAcc)
    (q : Question) : GradeAcc :=
  let student_answer := normalized_answer answers q in
  let correct := normalized_correct q in
  let ok := is_correct (q_type q) student_answer correct in
  let pts := if ok then q_points q else 0 in
  mkGradeAcc (acc_total_points acc + q_points q)
             (acc_earned_points acc + pts)
             (if ok then acc_correct_count acc + 1 else acc_correct_count acc)
             (acc_results acc ++
                [mkResult (q_id q) (PyStr.take 60 (q_text q)) student_answer
                          (q_correct_answer q) ok pts (q_points q)
                          (q_explanation q)]).

(** [round(earned_points / total_points * 100, 2) if total_points > 0 else 0.0]
    with the exceptions of the quotient. *)
Definition score_of (earned_points total_points : Z) : Outcome Q :=
  if 0 <? total_points
  then match int_truediv earned_points total_points with
       | Ok quotient => Ok (PyNum.round (PyNum.mul quotient 100) 2)
       | Err e => Err e
       | IntegrityError => IntegrityError
       | OverflowError => OverflowError
       | ZeroDivisionError => ZeroDivisionError
       end
  else Ok 0%Q.

(** The float of a score expression that returns one; 0.0 stands in where
    the expression raises, which [try_grade_questions] tells apart. *)
Definition returned (score : Outcome Q) : Q :=
  match score with
  | Ok x => x
  | _ => 0%Q
  end.

(** The dict [grade_attempt_dict] returns for the questions it loaded. *)
Definition grade_questions (questions : list Question)
    (answers : gmap string string) : GradeResult :=
  let acc := fold_left (grade_step answers) questions (mkGradeAcc 0 0 0 []) in
  let score := returned (score_of (acc_earned_points acc) (acc_total_points acc)) in
  mkGradeResult score (acc_correct_count acc) (Z.of_nat (length questions))
                (acc_earned_points acc) (acc_total_points acc) (acc_results acc).

(** The same call with its exceptions: the loop raises none, the score
    expression raises those of its quotient. *)
Definition try_grade_questions (questions : list Question)
    (answers : gmap string string) : Outcome GradeResult :=
  let acc := fold_left (grade_step answers) questions (mkGradeAcc 0 0 0 []) in
  match score_of (acc_earned_points acc) (acc_total_points acc) with
  | Ok _ => Ok (grade_questions questions answers)
  | Err e => Err e
  | IntegrityError => IntegrityError
  | OverflowError => OverflowError
  | ZeroDivisionError => ZeroDivisionError
  end.

(** [grade_attempt_dict(attempt_data)]: reads [answers] and [quiz_id]. *)
Definition grade_attempt_dict (st : Store) (attempt_data : Attempt) : GradeResult :=
  grade_questions (get_quiz_questions st (a_quiz_id attempt_data))
                  (a_answers attempt_data).

(* ===================================================================== *)
(** ** Attempt lifecycle *)
(* ===================================================================== *)

(** [SELECT ... FROM attempts WHERE id=?] then [fetchone()]. *)
Definition find_attempt (st : Store) (attempt_id : string) : option Attempt :=
  find (fun a => String.eqb (a_id a) attempt_id) (attempts st).

(** [SELECT COUNT( * ) FROM attempts WHERE quiz_id=? AND student_id=?] *)
Definition count_attempts (st : Store) (quiz_id student_id : string) : Z :=
  Z.of_nat (length (filter (fun a => a_quiz_id a = quiz_id /\ a_student_id a = student_id)
                           (attempts st))).

Definition start_attempt (st : Store) (env : Env) (quiz_id student_id : string)
  : Outcome Attempt * Store :=
  match get_quiz st quiz_id with
  | None => (Err (QuizNotFound quiz_id), st)
  | Some quiz =>
      let prev_attempts := count_attempts st quiz_id student_id in
      if qz_max_attempts quiz <=? prev_attempts
      then (Err (LimitExceeded (qz_max_attempts quiz)), st)
      else
        let attempt := mkAttempt (uid env 0) quiz_id student_id ∅ None (now env)
                                 None None None in
        if existsb (fun a => String.eqb (a_id a) (a_id attempt)) (attempts st)
        then (IntegrityError, st)
        else (Ok attempt,
              mkStore (questions st) (quizzes st) (attempts st ++ [attempt])
                      (question_results st))
  end.

(** Truth value of a nullable TEXT column read back as [Optional[str]]. *)
Definition truthy_opt (o : option string) : bool :=
  match o with
  | None => false
  | Some s => PyStr.truthy s
  end.

(** [UPDATE attempts SET ... WHERE id=?] *)
Definition update_attempt (attempt_id : string) (f : Attempt -> Attempt)
    (rows : list Attempt) : list Attempt :=
  map (fun a => if String.eqb (a_id a) attempt_id then f a else a) rows.

Definition set_answers (answers : gmap string string) (a : Attempt) : Attempt :=
  mkAttempt (a_id a) (a_quiz_id a) (a_student_id a) answers (a_score a)
            (a_started_at a) (a_completed_at a) (a_time_taken_mins a) (a_passed a).

(** The success payload of [submit_answer]. *)
Record Saved := mkSaved {
  sv_attempt_id : string;
  sv_question_id : string;
  sv_answer : string;
  sv_saved : bool
}.

Definition submit_answer (st : Store) (attempt_id question_id answer : string)
  : Outcome Saved * Store :=
  match find_attempt st attempt_id with
  | None => (Err AttemptNotFound, st)
  | Some row =>
      if truthy_opt (a_completed_at row)
      then (Err AlreadyCompleted, st)
      else
        let answers := <[question_id := answer]> (a_answers row) in
        (Ok (mkSaved attempt_id question_id answer true),
         mkStore (questions st) (quizzes st)
                 (update_attempt attempt_id (set_answers answers) (attempts st))
                 (question_results st))
  end.

Definition set_completed (completed_at : string) (score time_taken : Q)
    (passed : bool) (a : Attempt) : Attempt :=
  mkAttempt (a_id a) (a_quiz_id a) (a_student_id a) (a_answers a) (Some score)
            (a_started_at a) (Some completed_at) (Some time_taken) (Some passed).

(** [INSERT OR REPLACE INTO question_results]: a row with the same primary
    key is deleted first; the new row gets the next rowid. *)
Definition insert_or_replace (row : QResultRow) (rows : list QResultRow)
  : list QResultRow :=
  filter (fun r => String.eqb (qr_id r) (qr_id row) = false) rows ++ [row].

(** The loop [for qr in grade_result["results"]], the [k]-th [_uid()] of the
    call naming the next row. *)
Fixpoint store_results (env : Env) (k : nat) (attempt_id : string)
    (results : list Result) (rows : list QResultRow) : list QResultRow :=
  match results with
  | [] => rows
  | qr :: rest =>
      store_results env (S k) attempt_id rest
        (insert_or_replace
           (mkQResultRow (uid env k) attempt_id (r_question_id qr)
                         (r_student_answer qr) (r_is_correct qr)
                         (r_points_earned qr) (r_points_possible qr))
           rows)
  end.

(** The success payload of [complete_attempt]. *)
Record Summary := mkSummary {
  s_attempt_id : string;
  s_score : Q;
  s_passed : bool;
  s_time_taken_mins : Q;
  s_correct : Z;
  s_total : Z;
  s_results : list Result
}.

Definition complete_attempt (st : Store) (env : Env) (attempt_id : string)
  : Outcome Summary * Store :=
  match find_attempt st attempt_id with
  | None => (Err AttemptNotFound, st)
  | Some row =>
      if truthy_opt (a_completed_at row)
      then (Err AlreadyCompleted, st)
      else
        let time_taken := minutes_since env (a_started_at row) in
        let grade_result := grade_attempt_dict st row in
        let score := g_score grade_result in
        let passed :=
          match get_quiz st (a_quiz_id row) with
          | Some quiz => Qle_bool (qz_passing_score quiz) score
          | None => false
          end in
        let completed_at := now env in
        (Ok (mkSummary attempt_id score passed (PyNum.round time_taken 2)
                       (g_correct grade_result) (g_total grade_result)
                       (g_results grade_result)),
         mkStore (questions st) (quizzes st)
                 (update_attempt attempt_id
                    (set_completed completed_at score (PyNum.round time_taken 2) passed)
                    (attempts st))
                 (store_results env 0 attempt_id (g_results grade_result)
                                (question_results st)))
  end.

(* ===================================================================== *)
(** ** Analytics *)
(* ===================================================================== *)

(** One dict of [question_stats]. *)
Record QStat := mkQStat {
  qs_question_id : string;
  qs_question_text : string;
  qs_difficulty : string;
  qs_correct_rate : option Q;
  qs_total_answers : Z
}.

(** [x["correct_rate"] or 100]: [None] and the falsy [0.0] both give 100. *)
Definition sort_key (x : QStat) : Q :=
  match qs_correct_rate x with
  | None => 100%Q
  | Some r => if Qeq_bool r 0 then 100%Q else r
  end.

(** [a < b] on floats. *)
Definition Qlt_bool (a b : Q) : bool := negb (Qle_bool b a).

(** [list.sort(key=...)]: ascending in the key, equal keys keep their order.
    Insertion from the right, each element placed before the first one whose
    key is not smaller. *)
Fixpoint insert_by {A : Type} (key : A -> Q) (x : A) (l : list A) : list A :=
  match l with
  | [] => [x]
  | y :: ys => if Qlt_bool (key y) (key x) then y :: insert_by key x ys
               else x :: y :: ys
  end.

Fixpoint sort_by {A : Type} (key : A -> Q) (l : list A) : list A :=
  match l with
  | [] => []
  | x :: xs => insert_by key x (sort_by key xs)
  end.

(** [l[-n:]] *)
Definition last_n {A : Type} (n : nat) (l : list A) : list A :=
  skipn (length l - n) l.

(** [attempt_id IN (SELECT id FROM attempts WHERE quiz_id=? AND completed_at
    IS NOT NULL)] *)
Definition in_completed_attempts (st : Store) (quiz_id attempt_id : string) : bool :=
  existsb (fun a => String.eqb (a_id a) attempt_id && String.eqb (a_quiz_id a) quiz_id
                    && bool_decide (a_completed_at a <> None))
          (attempts st).

(** The rows the GROUP BY query of one question counts. *)
Definition results_for (st : Store) (quiz_id qid : string) : list QResultRow :=
  filter (fun r => String.eqb (qr_question_id r) qid
                   && in_completed_attempts st quiz_id (qr_attempt_id r) = true)
         (question_results st).

(** [round(c / t * 100, nd) if t > 0 else None] *)
Definition percent (c t : Z) (nd : nat) : option Q :=
  if 0 <? t then Some (PyNum.round (PyNum.mul (PyNum.truediv c t) 100) nd)
  else None.

(** The loop [for qid in quiz.question_ids] of [get_analytics]. *)
Fixpoint question_stats_of (st : Store) (quiz_id : string) (qids : list string)
  : list QStat :=
  match qids with
  | [] => []
  | qid :: rest =>
      match get_question st qid with
      | None => question_stats_of st quiz_id rest
      | Some q =>
          let q_results := results_for st quiz_id qid in
          let correct_n :=
            Z.of_nat (length (filter (fun r => qr_is_correct r = true) q_results)) in
          let total_n := Z.of_nat (length q_results) in
          mkQStat qid (PyStr.take 80 (q_text q)) (q_difficulty q)
                  (percent correct_n total_n 1) total_n
            :: question_stats_of st quiz_id rest
      end
  end.

(** [sum(xs)] on floats: added left to right from 0, each partial sum a
    float. *)
Definition Qsum (l : list Q) : Q := fold_left PyNum.add l 0%Q.

(** [round(sum(xs) / len(xs), nd) if xs else None] *)
Definition average (xs : list Q) (nd : nat) : option Q :=
  match xs with
  | [] => None
  | _ => Some (PyNum.round (PyNum.div (Qsum xs) (inject_Z (Z.of_nat (length xs)))) nd)
  end.

Definition Qmin_list (xs : list Q) : option Q :=
  match xs with
  | [] => None
  | x :: r => Some (fold_left (fun m y => if Qlt_bool y m then y else m) r x)
  end.

Definition Qmax_list (xs : list Q) : option Q :=
  match xs with
  | [] => None
  | x :: r => Some (fold_left (fun m y => if Qlt_bool m y then y else m) r x)
  end.

(** The dict [get_analytics] returns once the quiz has a completed attempt. *)
Record QuizStats := mkQuizStats {
  an_quiz_id : string;
  an_title : string;
  an_total_attempts : Z;
  an_unique_students : Z;
  an_avg_score : option Q;
  an_min_score : option Q;
  an_max_score : option Q;
  an_pass_rate : Q;
  an_avg_time_mins : option Q;
  an_passing_score : Q;
  hardest_questions : list QStat;
  easiest_questions : list QStat;
  question_stats : list QStat
}.

(** The two shapes of the result: the short dict of a quiz with no completed
    attempt (all aggregates null, [question_stats] empty), or the full one. *)
Inductive Analytics : Type :=
| NoCompletedAttempts (quiz_id title : string)
| Completed (stats : QuizStats).

Definition get_analytics (st : Store) (quiz_id : string) : Outcome Analytics :=
  match get_quiz st quiz_id with
  | None => Err (QuizNotFound quiz_id)
  | Some quiz =>
      let rows := filter (fun a => a_quiz_id a = quiz_id /\ a_completed_at a <> None)
                         (attempts st) in
      match rows with
      | [] => Ok (NoCompletedAttempts quiz_id (qz_title quiz))
      | _ =>
          let scores := omap a_score rows in
          let passed := filter (fun a => a_passed a = Some true) rows in
          let unique_students :=
            size (list_to_set (map a_student_id rows) : gset string) in
          let stats :=
            sort_by sort_key (question_stats_of st quiz_id (qz_question_ids quiz)) in
          let times := omap a_time_taken_mins rows in
          Ok (Completed
                (mkQuizStats quiz_id (qz_title quiz)
                   (Z.of_nat (length rows)) (Z.of_nat unique_students)
                   (average scores 2) (Qmin_list scores) (Qmax_list scores)
                   (PyNum.round
                      (PyNum.mul (PyNum.truediv (Z.of_nat (length passed))
                                                (Z.of_nat (length rows))) 100) 1)
                   (average times 2) (qz_passing_score quiz)
                   (firstn 3 stats) (rev (last_n 3 stats)) stats))
      end
  end.

(* ===================================================================== *)
(** ** Adaptive selector *)
(* ===================================================================== *)

(** [SELECT DISTINCT qr.question_id FROM question_results qr JOIN attempts a
    ON qr.attempt_id = a.id WHERE a.student_id=? AND qr.is_correct=1] *)
Definition answered_correctly (st : Store) (student_id : string) : gset string :=
  list_to_set
    (map qr_question_id
       (filter (fun r => qr_is_correct r = true /\
                         existsb (fun a => String.eqb (a_id a) (qr_attempt_id r)
                                           && String.eqb (a_student_id a) student_id)
                                 (attempts st) = true)
               (question_results st))).

(** [l[:n]] for any int [n]: a negative [n] counts from the end. *)
Definition slice_to {A : Type} (n : Z) (l : list A) : list A :=
  if 0 <=? n then firstn (Z.to_nat n) l
  else firstn (length l - Z.to_nat (- n)) l.

(** [[q for q in qs if q.id not in answered_correctly]] *)
Definition not_yet_correct (done : gset string) (qs : list Question) : list Question :=
  filter (fun q => q_id q ∉ done) qs.

(** The f-string title; the dash is U+2013, held here as its UTF-8 bytes. *)
Definition adaptive_title (topic_tags : list string) : string :=
  "Adaptive Quiz – " ++ String.concat ", " (firstn 3 topic_tags).

Definition build_adaptive_quiz (st : Store) (env : Env) (student_id : string)
    (topic_tags : list string) (target_difficulty : string) (num_questions : Z)
  : Outcome Quiz * Store :=
  let done := answered_correctly st student_id in
  let all_qs := list_questions st (Some topic_tags) (Some target_difficulty) in
  let candidates := not_yet_correct done all_qs in
  let candidates :=
    if Z.of_nat (length candidates) <? num_questions
    then not_yet_correct done (list_questions st (Some topic_tags) None)
    else candidates in
  match candidates with
  | [] => (Err NoCandidates, st)
  | _ =>
      let selected := slice_to num_questions candidates in
      create_quiz st env (adaptive_title topic_tags)
        ("Auto-generated adaptive quiz for student " ++ student_id)
        (map q_id selected) (Z.of_nat (length selected) * 3) 70%Q false 3
  end.

(* ===================================================================== *)
(** ** Reachable stores *)
(* ===================================================================== *)

(** [datetime.isoformat()] never returns the empty string. *)
Definition clock_ok (env : Env) : Prop := PyStr.truthy (now env) = true.

(** The stores the public operations build from a new database.  A call that
    fails leaves the store as it was, so failing calls are steps too.  The one
    thing asked of the environment is that the clock of a completion renders
    as a non-empty timestamp. *)
Inductive reachable : Store -> Prop :=
| reach_init : reachable empty_store
| reach_create_question st env text q_type options correct difficulty tags expl points :
    reachable st ->
    reachable (snd (create_question st env text q_type options correct difficulty
                                    tags expl points))
| reach_create_quiz st env title descr qids limit passing shuffle max_attempts :
    reachable st ->
    reachable (snd (create_quiz st env title descr qids limit passing shuffle
                                max_attempts))
| reach_start_attempt st env quiz_id student_id :
    reachable st ->
    reachable (snd (start_attempt st env quiz_id student_id))
| reach_submit_answer st attempt_id question_id answer :
    reachable st ->
    reachable (snd (submit_answer st attempt_id question_id answer))
| reach_complete_attempt st env attempt_id :
    reachable st -> clock_ok env ->
    reachable (snd (complete_attempt st env attempt_id))
| reach_build_adaptive_quiz st env student_id tags difficulty n :
    reachable st ->
    reachable (snd (build_adaptive_quiz st env student_id tags difficulty n)).

(** An attempt row is either in progress (nothing set) or completed (score,
    completion time, time taken and pass flag all set). *)
Definition attempt_consistent (a : Attempt) : Prop :=
  (a_completed_at a = None /\ a_score a = None /\ a_passed a = None
   /\ a_time_taken_mins a = None)
  \/ (truthy_opt (a_completed_at a) = true /\ a_score a <> None
      /\ a_passed a <> None /\ a_time_taken_mins a <> None).

(** Every result row belongs to a completed attempt. *)
Definition results_of_completed (st : Store) : Prop :=
  forall r, r ∈ question_results st ->
    exists a, a ∈ attempts st /\ a_id a = qr_attempt_id r /\ a_completed_at a <> None.

Record store_inv (st : Store) : Prop := mkStoreInv {
  inv_attempt_ids : NoDup (map a_id (attempts st));
  inv_attempts : Forall attempt_consistent (attempts st);
  inv_results : results_of_completed st
}.

(* ===================================================================== *)
(** ** Specification-side notions the theorems compare the code with *)
(* ===================================================================== *)

(** Whether [grade_attempt_dict] marks [q] correct under [answers]. *)
Definition graded_correct (answers : gmap string string) (q : Question) : bool :=
  is_correct (q_type q) (normalized_answer answers q) (normalized_correct q).

(** Sum of [points] over a list of questions. *)
Definition sum_points (qs : list Question) : Z :=
  foldr (fun q s => q_points q + s) 0 qs.

(** Sum of [points] over the questions answered correctly. *)
Definition sum_earned (answers : gmap string string) (qs : list Question) : Z :=
  foldr (fun q s => (if graded_correct answers q then q_points q else 0) + s) 0 qs.

(** [round(earned / total * 100, 2)] *)
Definition percent_score (earned total : Z) : Q :=
  PyNum.round (PyNum.mul (PyNum.truediv earned total) 100) 2.

(** Sum of [points] over the ids of a quiz that resolve in the Question
    Store; an id that does not resolve adds nothing. *)
Definition present_points (st : Store) (quiz_id : string) : Z :=
  match get_quiz st quiz_id with
  | None => 0
  | Some quiz =>
      foldr (fun qid s => match get_question st qid with
                          | Some q => q_points q + s
                          | None => s
                          end) 0 (qz_question_ids quiz)
  end.

(** Number of ids of a quiz that resolve in the Question Store. *)
Definition present_count (st : Store) (quiz_id : string) : Z :=
  match get_quiz st quiz_id with
  | None => 0
  | Some quiz =>
      Z.of_nat (length (filter (fun qid => get_question st qid <> None)
                               (qz_question_ids quiz)))
  end.

(** The result rows stored for one attempt. *)
Definition results_of_attempt (st : Store) (attempt_id : string) : list QResultRow :=
  filter (fun r => qr_attempt_id r = attempt_id) (question_results st).

Definition sum_points_possible (rows : list QResultRow) : Z :=
  foldr (fun r s => qr_points_possible r + s) 0 rows.

(** The first [n] ids [_uid()] returns are pairwise distinct and name no
    existing result row. *)
Definition fresh_result_uids (env : Env) (n : nat) (st : Store) : Prop :=
  NoDup (map (uid env) (seq 0 n)) /\
  Forall (fun k => uid env k ∉ map qr_id (question_results st)) (seq 0 n).

(** The character [c] occurs in [s]. *)
Fixpoint has_char (c : ascii) (s : string) : bool :=
  match s with
  | EmptyString => false
  | String a s' => Ascii.eqb a c || has_char c s'
  end.


(** Only whitespace, possibly nothing at all. *)
Fixpoint whitespace_only (s : string) : bool :=
  match s with
  | EmptyString => true
  | String c s' => PyStr.isspace c && whitespace_only s'
  end.

(** The key the ranking is specified by: the rate, a null rate as 100. *)
Definition rate_or_100 (x : QStat) : Q :=
  match qs_correct_rate x with
  | None => 100%Q
  | Some r => r
  end.

(** Non-decreasing keys. *)
Fixpoint ascending (keys : list Q) : bool :=
  match keys with
  | a :: (b :: _) as rest => Qle_bool a b && ascending rest
  | _ => true
  end.

(** The student has a correct result for the question, in some attempt. *)
Definition has_correct_result (st : Store) (student_id question_id : string) : Prop :=
  exists r a, r ∈ question_results st /\ a ∈ attempts st
              /\ qr_attempt_id r = a_id a /\ a_student_id a = student_id
              /\ qr_question_id r = question_id /\ qr_is_correct r = true.

(** The result dict of one graded question. *)
Definition result_of (answers : gmap string string) (q : Question) : Result :=
  mkResult (q_id q) (PyStr.take 60 (q_text q)) (normalized_answer answers q)
           (q_correct_answer q) (graded_correct answers q)
           (if graded_correct answers q then q_points q else 0) (q_points q)
           (q_explanation q).

(** Number of questions answered correctly. *)
Definition count_correct (answers : gmap string string) (qs : list Question) : Z :=
  Z.of_nat (length (filter (fun q => graded_correct answers q = true) qs)).

(** The score the way it is specified: 0.0 exactly when the points sum to 0,
    the rounded percentage otherwise. *)
Definition specified_score (answers : gmap string string) (qs : list Question) : Q :=
  if sum_points qs =? 0 then 0%Q
  else percent_score (sum_earned answers qs) (sum_points qs).

(** The exact percentage [100 * earned / total], for [total > 0]. *)
Definition exact_percentage (earned total : Z) : Q :=
  100 * earned # Z.to_pos total.


(** The rows [complete_attempt] adds when no primary key collides. *)
Fixpoint new_rows (env : Env) (k : nat) (attempt_id : string)
    (results : list Result) : list QResultRow :=
  match results with
  | [] => []
  | qr :: rest =>
      mkQResultRow (uid env k) attempt_id (r_question_id qr) (r_student_answer qr)
                   (r_is_correct qr) (r_points_earned qr) (r_points_possible qr)
        :: new_rows env (S k) attempt_id rest
  end.

(* ===================================================================== *)
(** ** A worked session *)
(* ===================================================================== *)

(** An environment whose [k]-th id is [tag] followed by the digit [k]. *)
Definition session_env (tag : string) : Env :=
  mkEnv (fun k => tag ++ String (ascii_of_nat (48 + k)) EmptyString)
        "2024-05-01T10:00:00+00:00" (fun _ => (3 # 2)%Q).

(** Two questions ([q0], [r0]) and a quiz ([z0]) over them. *)
Definition st_questions : Store :=
  let s := snd (create_question empty_store (session_env "q") "What is 2+2?"
                  "multiple_choice" [("a", "3"); ("b", "4")] "b" "easy" ["math"] "" 1) in
  snd (create_question s (session_env "r") "The sky is blue." "true_false" []
         "true" "easy" ["general"] "" 1).

Definition st_quiz : Store :=
  snd (create_quiz st_questions (session_env "z") "Test Quiz" "A test"
         ["q0"; "r0"] 30 50%Q false 3).

(** Student [s-1] starts attempt [a0] and answers the second question. *)
Definition st_in_progress : Store :=
  let s := snd (start_attempt st_quiz (session_env "a") "z0" "s-1") in
  snd (submit_answer s "a0" "r0" " TRUE ").

(** ... and completes it: first question wrong, second right. *)
Definition st_one_completed : Store :=
  snd (complete_attempt st_in_progress (session_env "x") "a0").

(** A second attempt [b0], completed with no answer at all. *)
Definition st_two_completed : Store :=
  let s := snd (start_attempt st_one_completed (session_env "b") "z0" "s-1") in
  snd (complete_attempt s (session_env "y") "b0").

(** The quiz row of [z0], and the row of attempt [a0] before and after its
    completion. *)
Definition quiz_z0 : Quiz :=
  mkQuiz "z0" "Test Quiz" "A test" ["q0"; "r0"] 30 50%Q false false true 3
         "2024-05-01T10:00:00+00:00".

Definition a0_in_progress : Attempt :=
  mkAttempt "a0" "z0" "s-1" {[ "r0" := " TRUE " ]} None
            "2024-05-01T10:00:00+00:00" None None None.

Definition a0_completed : Attempt :=
  mkAttempt "a0" "z0" "s-1" {[ "r0" := " TRUE " ]} (Some 50%Q)
            "2024-05-01T10:00:00+00:00" (Some "2024-05-01T10:00:00+00:00")
            (Some (3 # 2)%Q) (Some true).

(** A third attempt [c0], left in progress: the limit of 3 is reached. *)
Definition st_three_started : Store :=
  snd (start_attempt st_two_completed (session_env "c") "z0" "s-1").

(** A quiz [v0] whose middle question id resolves to nothing, and an attempt
    [g0] on it. *)
Definition st_gap_quiz : Store :=
  snd (create_quiz st_questions (session_env "v") "Gaps" "" ["q0"; "gone"; "r0"]
         10 50%Q false 3).

Definition st_gap_attempt : Store :=
  snd (start_attempt st_gap_quiz (session_env "g") "v0" "s-2").

Definition g0_in_progress : Attempt :=
  mkAttempt "g0" "v0" "s-2" ∅ None "2024-05-01T10:00:00+00:00" None None None.

(** The quiz [build_adaptive_quiz] makes for [s-1] after the two attempts. *)
Definition adaptive_quiz_k0 : Quiz :=
  mkQuiz "k0" (adaptive_title ["math"; "general"])
         "Auto-generated adaptive quiz for student s-1" ["q0"] 3 70%Q
         false false true 3 "2024-05-01T10:00:00+00:00".

(** A question worth a negative number of points ([points] is any int). *)
Definition q_negative : Question :=
  mkQuestion "n0" "Penalty?" "multiple_choice" [] "b" "easy" [] "" (-1)
             "2024-05-01T10:00:00+00:00".

Definition q_multi : Question :=
  mkQuestion "m0" "Select all even numbers" "multi_select"
             [("a", "2"); ("b", "3"); ("c", "4")] "a,c" "medium" ["math"] "" 1
             "2024-05-01T10:00:00+00:00".

Definition q_short : Question :=
  mkQuestion "p0" "Capital of France?" "short_answer" [] "paris" "easy" ["geo"] "" 1
             "2024-05-01T10:00:00+00:00".

Definition q_blank : Question :=
  mkQuestion "k0" "Anything?" "short_answer" [] "  " "easy" [] "" 2
             "2024-05-01T10:00:00+00:00".


(** Two questions worth 23 and 137 points. *)
Definition q_small : Question :=
  mkQuestion "s0" "2 + 2?" "multiple_choice" [("a", "3"); ("b", "4")] "b" "easy"
             ["math"] "" 23 "2024-05-01T10:00:00+00:00".

Definition q_large : Question :=
  mkQuestion "l0" "State the theorem." "short_answer" [] "pythagoras" "hard"
             ["math"] "" 137 "2024-05-01T10:00:00+00:00".

(* ===================================================================== *)
(** ** Reading an attempt back, per-student analytics, command-line lists *)
(* ===================================================================== *)

(** [get_attempt(attempt_id)]: the row, [passed] read back as a bool (the row
    type already holds it as one). *)
Definition get_attempt (st : Store) (attempt_id : string) : option Attempt :=
  match find_attempt st attempt_id with
  | None => None
  | Some row => Some row
  end.

(** The six counters of [get_student_analytics]. *)
Record Counters := mkCounters {
  easy_correct : Z;
  easy_total : Z;
  intermediate_correct : Z;
  intermediate_total : Z;
  hard_correct : Z;
  hard_total : Z
}.

(** [SELECT qr.*, q.difficulty FROM question_results qr JOIN questions q ON
    qr.question_id=q.id WHERE qr.attempt_id=?]: per joined row, [is_correct]
    and the question's difficulty. *)
Definition joined_results (st : Store) (attempt_id : string) : list (bool * string) :=
  flat_map (fun r =>
              map (fun q => (qr_is_correct r, q_difficulty q))
                  (filter (fun q => q_id q = qr_question_id r) (questions st)))
           (filter (fun r => qr_attempt_id r = attempt_id) (question_results st)).

(** [r["is_correct"]] as the int it is stored as. *)
Definition int_of_bool (b : bool) : Z := if b then 1 else 0.

(** One iteration of [for r in results]. *)
Definition count_result (c : Counters) (r : bool * string) : Counters :=
  let d := snd r in
  if String.eqb d "easy"
  then mkCounters (easy_correct c + int_of_bool (fst r)) (easy_total c + 1)
                  (intermediate_correct c) (intermediate_total c)
                  (hard_correct c) (hard_total c)
  else if String.eqb d "medium"
  then mkCounters (easy_correct c) (easy_total c)
                  (intermediate_correct c + int_of_bool (fst r))
                  (intermediate_total c + 1)
                  (hard_correct c) (hard_total c)
  else if String.eqb d "hard"
  then mkCounters (easy_correct c) (easy_total c)
                  (intermediate_correct c) (intermediate_total c)
                  (hard_correct c + int_of_bool (fst r)) (hard_total c + 1)
  else c.

(** One iteration of [for attempt in attempts]. *)
Definition count_attempt (st : Store) (c : Counters) (a : Attempt) : Counters :=
  fold_left count_result (joined_results st (a_id a)) c.

(** One entry of [performance_by_difficulty]. *)
Record Bucket := mkBucket {
  b_correct_rate : option Q;
  b_total : Z
}.

(** The dict [get_student_analytics] returns for a student with a completed
    attempt. *)
Record StudentStats := mkStudentStats {
  sa_student_id : string;
  sa_total_attempts : Z;
  sa_unique_quizzes : Z;
  sa_avg_score : option Q;
  sa_pass_rate : Q;
  sa_easy : Bucket;
  sa_medium : Bucket;
  sa_hard : Bucket
}.

(** The two shapes of the result: [{"student_id", "total_attempts": 0}] alone,
    or the full dict. *)
Inductive StudentAnalytics : Type :=
| NoStudentAttempts (student_id : string)
| StudentCompleted (stats : StudentStats).

Definition get_student_analytics (st : Store) (student_id : string)
  : StudentAnalytics :=
  let rows := filter (fun a => a_student_id a = student_id /\ a_completed_at a <> None)
                     (attempts st) in
  match rows with
  | [] => NoStudentAttempts student_id
  | _ =>
      let scores := omap a_score rows in
      let passed := Z.of_nat (length (filter (fun a => a_passed a = Some true) rows)) in
      let quizzes_taken := (list_to_set (map a_quiz_id rows) : gset string) in
      let c := fold_left (count_attempt st) rows (mkCounters 0 0 0 0 0 0) in
      StudentCompleted
        (mkStudentStats student_id (Z.of_nat (length rows))
           (Z.of_nat (size quizzes_taken)) (average scores 2)
           (PyNum.round (PyNum.mul (PyNum.truediv passed (Z.of_nat (length rows)))
                                   100) 1)
           (mkBucket (percent (easy_correct c) (easy_total c) 1) (easy_total c))
           (mkBucket (percent (intermediate_correct c) (intermediate_total c) 1)
                     (intermediate_total c))
           (mkBucket (percent (hard_correct c) (hard_total c) 1) (hard_total c)))
  end.

(** [[t.strip() for t in arg.split(",") if t.strip()]], the way [cli_main]
    reads [--tags] and the question ids of [create-quiz]. *)
Definition split_csv (arg : string) : list string :=
  map PyStr.strip
      (filter (fun t => PyStr.truthy (PyStr.strip t) = true) (PyStr.split "," arg)).

(** [[...] if args.tags else None], the tags of [list-questions]. *)
Definition optional_csv (arg : string) : option (list string) :=
  if PyStr.truthy arg then Some (split_csv arg) else None.

(* ===================================================================== *)
(** ** Steps between stores, and what every reachable store satisfies *)
(* ===================================================================== *)

(** One call of a public operation that writes. *)
Inductive step (st : Store) : Store -> Prop :=
| step_create_question env text q_type options correct difficulty tags expl points :
    step st (snd (create_question st env text q_type options correct difficulty
                                  tags expl points))
| step_create_quiz env title descr qids limit passing shuffle max_attempts :
    step st (snd (create_quiz st env title descr qids limit passing shuffle
                              max_attempts))
| step_start_attempt env quiz_id student_id :
    step st (snd (start_attempt st env quiz_id student_id))
| step_submit_answer attempt_id question_id answer :
    step st (snd (submit_answer st attempt_id question_id answer))
| step_complete_attempt env attempt_id :
    clock_ok env ->
    step st (snd (complete_attempt st env attempt_id))
| step_build_adaptive_quiz env student_id tags difficulty n :
    step st (snd (build_adaptive_quiz st env student_id tags difficulty n)).

(** Primary keys are unique, foreign keys resolve, and no student holds more
    attempts on a quiz than the quiz allows. *)
Record store_refs (st : Store) : Prop := mkStoreRefs {
  refs_question_ids : NoDup (map q_id (questions st));
  refs_quiz_ids : NoDup (map qz_id (quizzes st));
  refs_attempt_quiz :
    forall a, a ∈ attempts st -> a_quiz_id a ∈ map qz_id (quizzes st);
  refs_result_question :
    forall r, r ∈ question_results st -> qr_question_id r ∈ map q_id (questions st);
  refs_limit :
    forall quiz student_id, quiz ∈ quizzes st ->
      count_attempts st (qz_id quiz) student_id <= Z.max 0 (qz_max_attempts quiz)
}.

(** In each difficulty bucket the correct answers are counted among the
    answers. *)
Definition counters_ok (c : Counters) : Prop :=
  0 <= easy_correct c <= easy_total c
  /\ 0 <= intermediate_correct c <= intermediate_total c
  /\ 0 <= hard_correct c <= hard_total c.

(** No whitespace at the start. *)
Definition no_leading_space (s : string) : Prop :=
  match s with
  | EmptyString => True
  | String c _ => PyStr.isspace c = false
  end.

(** A list element the command line can carry: not empty, already trimmed,
    no comma inside. *)
Definition clean_token (t : string) : Prop :=
  t <> "" /\ PyStr.strip t = t /\ has_char "," t = false.

(** [lo <= x <= hi] on floats. *)
Definition Qbetween (lo hi x : Q) : Prop := (lo <= x)%Q /\ (x <= hi)%Q.

(** A rate is null exactly when nothing was counted, and a percentage
    otherwise. *)
Definition rate_consistent (rate : option Q) (total : Z) : Prop :=
  match rate with
  | None => total = 0
  | Some r => 0 < total /\ Qbetween 0 100 r
  end.

(** A store with two questions of different difficulty sharing a tag. *)
Definition st_bank : Store :=
  let s := snd (create_question empty_store (session_env "e") "Easy one"
                  "true_false" [] "true" "easy" ["math"; "warmup"] "" 1) in
  let s := snd (create_question s (session_env "h") "Hard one"
                  "short_answer" [] "42" "hard" ["math"] "" 3) in
  snd (create_question s (session_env "o") "Off topic"
         "true_false" [] "false" "easy" ["art"] "" 1).

(* ===================================================================== *)
(** * Properties *)
(* ===================================================================== *)

(** ** Strings *)



Lemma contains_empty (s : string) : PyStr.contains "" s = true.
Proof. destruct s; reflexivity. Qed.

Lemma lstrip_whitespace_only (s : string) :
  whitespace_only s = true -> PyStr.lstrip s = "".
Proof.
  induction s as [|c s IH]; simpl; [reflexivity|].
  rewrite andb_true_iff. intros [-> H]. auto.
Qed.

Lemma strip_whitespace_only (s : string) :
  whitespace_only s = true -> PyStr.strip s = "".
Proof. intros H. unfold PyStr.strip. rewrite lstrip_whitespace_only; auto. Qed.

Lemma split_not_nil (sep : ascii) (s : string) : PyStr.split sep s <> [].
Proof.
  destruct s as [|c s]; simpl; [discriminate|].
  destruct (Ascii.eqb c sep); [discriminate|].
  destruct (PyStr.split sep s); discriminate.
Qed.

(** Joining the pieces with the separator gives the string back. *)
Lemma concat_split (sep : ascii) (s : string) :
  String.concat (String sep "") (PyStr.split sep s) = s.
Proof.
  induction s as [|c s IH]; [reflexivity|].
  pose proof (split_not_nil sep s) as Hne.
  cbn [PyStr.split].
  destruct (Ascii.eqb c sep) eqn:E.
  - apply Ascii.eqb_eq in E. subst c.
    destruct (PyStr.split sep s) as [|t ts]; [congruence|].
    rewrite <- IH. reflexivity.
  - destruct (PyStr.split sep s) as [|t ts]; [congruence|].
    rewrite <- IH. destruct ts; reflexivity.
Qed.

(** No piece contains the separator. *)
Lemma split_pieces (sep : ascii) (s t : string) :
  In t (PyStr.split sep s) -> has_char sep t = false.
Proof.
  revert t. induction s as [|c s IH]; simpl; intros t.
  - intros [<- | []]. reflexivity.
  - destruct (Ascii.eqb c sep) eqn:E.
    + intros [<- | H]; [reflexivity | auto].
    + destruct (PyStr.split sep s) as [|u us]; simpl.
      * intros [<- | []]. simpl. rewrite E. reflexivity.
      * intros [<- | H]; [|apply IH; right; exact H].
        simpl. rewrite E. apply IH. left. reflexivity.
Qed.

Lemma truthy_true_iff (s : string) : PyStr.truthy s = true <-> s <> "".
Proof. destruct s; simpl; split; congruence. Qed.

(** A token is a trimmed, non-empty piece of the comma split. *)
Lemma elem_of_token_list (s t : string) :
  t ∈ token_list s <->
  exists a, a ∈ PyStr.split "," s /\ PyStr.strip a = t /\ t <> "".
Proof.
  unfold token_list. rewrite list_elem_of_In, in_map_iff. split.
  - intros [a [Ht Ha]]. apply list_elem_of_In, list_elem_of_filter in Ha.
    destruct Ha as [Hne Ha]. exists a. subst t.
    repeat split; [exact Ha | apply truthy_true_iff; exact Hne].
  - intros [a [Ha [Ht Hne]]]. exists a. split; [exact Ht|].
    apply list_elem_of_In, list_elem_of_filter. split; [|exact Ha].
    apply truthy_true_iff. congruence.
Qed.


(** ** The grading loop *)

Lemma grade_step_unfold (answers : gmap string string) (acc : GradeAcc) (q : Question) :
  grade_step answers acc q =
  mkGradeAcc (acc_total_points acc + q_points q)
             (acc_earned_points acc
              + (if graded_correct answers q then q_points q else 0))
             (acc_correct_count acc
              + (if graded_correct answers q then 1 else 0))
             (acc_results acc ++ [result_of answers q]).
Proof.
  unfold grade_step, result_of, graded_correct.
  destruct (is_correct _ _ _); f_equal; lia.
Qed.

Lemma count_correct_cons (answers : gmap string string) (q : Question)
    (qs : list Question) :
  count_correct answers (q :: qs) =
  (if graded_correct answers q then 1 else 0) + count_correct answers qs.
Proof.
  unfold count_correct. rewrite filter_cons.
  destruct (graded_correct answers q).
  - rewrite decide_True by reflexivity. cbn [length]. lia.
  - rewrite decide_False by discriminate. lia.
Qed.

(** The loop variables after the loop, as sums over the question list. *)
Lemma grade_loop (answers : gmap string string) (qs : list Question) (acc : GradeAcc) :
  fold_left (grade_step answers) qs acc =
  mkGradeAcc (acc_total_points acc + sum_points qs)
             (acc_earned_points acc + sum_earned answers qs)
             (acc_correct_count acc + count_correct answers qs)
             (acc_results acc ++ map (result_of answers) qs).
Proof.
  revert acc. induction qs as [|q qs IH]; intros acc.
  - destruct acc. unfold count_correct. simpl.
    rewrite !Z.add_0_r, app_nil_r. reflexivity.
  - cbn [fold_left]. rewrite IH, grade_step_unfold, count_correct_cons.
    cbn [acc_total_points acc_earned_points acc_correct_count acc_results map].
    change (sum_points (q :: qs)) with (q_points q + sum_points qs).
    change (sum_earned answers (q :: qs))
      with ((if graded_correct answers q then q_points q else 0)
            + sum_earned answers qs).
    rewrite <- app_assoc. f_equal; lia.
Qed.

Lemma grade_questions_unfold (qs : list Question) (answers : gmap string string) :
  grade_questions qs answers =
  mkGradeResult
    (returned (score_of (sum_earned answers qs) (sum_points qs)))
    (count_correct answers qs) (Z.of_nat (length qs))
    (sum_earned answers qs) (sum_points qs) (map (result_of answers) qs).
Proof.
  unfold grade_questions. rewrite grade_loop. reflexivity.
Qed.


Lemma is_correct_short_answer (s c : string) :
  is_correct "short_answer" s c = PyStr.contains c s || String.eqb s c.
Proof. reflexivity. Qed.


(** ** Answer comparison *)















Lemma normalized_correct_blank (q : Question) :
  whitespace_only (q_correct_answer q) = true -> normalized_correct q = "".
Proof.
  intros H. unfold normalized_correct. rewrite strip_whitespace_only by exact H.
  reflexivity.
Qed.

Lemma result_in_grade (qs : list Question) (answers : gmap string string) (q : Question) :
  q ∈ qs -> result_of answers q ∈ g_results (grade_questions qs answers).
Proof.
  intros Hq. rewrite grade_questions_unfold. cbn [g_results].
  apply list_elem_of_In, in_map, list_elem_of_In. exact Hq.
Qed.

(** C10: a short_answer question whose correct answer is empty or only
    whitespace is graded correct for every answers mapping, and its result
    carries the full points; a missing answer is read as the empty string and
    is graded correct like any other. *)
Theorem blank_short_answer_always_correct :
  forall (qs : list Question) (answers : gmap string string) (q : Question),
    q_type q = "short_answer" ->
    whitespace_only (q_correct_answer q) = true ->
    q ∈ qs ->
    graded_correct answers q = true /\
    (answers !! q_id q = None -> normalized_answer answers q = "") /\
    exists r, r ∈ g_results (grade_questions qs answers) /\
              r_question_id r = q_id q /\ r_is_correct r = true /\
              r_points_earned r = q_points q /\ r_points_possible r = q_points q.
Proof.
  intros qs answers q Hty Hblank Hq.
  assert (graded_correct answers q = true) as Hok.
  { unfold graded_correct. rewrite Hty, is_correct_short_answer.
    rewrite normalized_correct_blank by exact Hblank.
    rewrite contains_empty. reflexivity. }
  split; [exact Hok|]. split.
  - intros Hmiss. unfold normalized_answer. rewrite Hmiss. reflexivity.
  - exists (result_of answers q). split; [apply result_in_grade; exact Hq|].
    unfold result_of. cbn. rewrite Hok. auto.
Qed.

(** A blank correct answer, and a student who submitted nothing. *)
Lemma blank_short_answer_witness :
  graded_correct ∅ q_blank = true /\
  ((∅ : gmap string string) !! q_id q_blank = None -> normalized_answer (∅ : gmap string string) q_blank = "") /\
  exists r, r ∈ g_results (grade_questions [q_blank] ∅) /\
            r_question_id r = q_id q_blank /\ r_is_correct r = true /\
            r_points_earned r = q_points q_blank /\
            r_points_possible r = q_points q_blank.
Proof.
  apply (blank_short_answer_always_correct [q_blank] ∅ q_blank).
  - reflexivity.
  - reflexivity.
  - apply list_elem_of_In. left. reflexivity.
Defined.

(** ** Table lookups and updates *)

Lemma find_attempt_Some (st : Store) (attempt_id : string) (row : Attempt) :
  find_attempt st attempt_id = Some row ->
  row ∈ attempts st /\ a_id row = attempt_id.
Proof.
  unfold find_attempt. intros H. apply find_some in H. destruct H as [Hin Heq].
  split; [apply list_elem_of_In; exact Hin | apply String.eqb_eq; exact Heq].
Qed.

(** With distinct ids, the row a lookup by id returns is the row itself. *)
Lemma find_attempt_unique (st : Store) (a : Attempt) :
  NoDup (map a_id (attempts st)) -> a ∈ attempts st ->
  find_attempt st (a_id a) = Some a.
Proof.
  unfold find_attempt. induction (attempts st) as [|b l IH]; intros Hnd Hin.
  - inversion Hin.
  - cbn [map] in Hnd. apply NoDup_cons in Hnd. destruct Hnd as [Hb Hnd].
    cbn [find]. destruct (String.eqb (a_id b) (a_id a)) eqn:E.
    + apply String.eqb_eq in E. apply elem_of_cons in Hin.
      destruct Hin as [-> | Hin]; [reflexivity|].
      exfalso. apply Hb. rewrite E. apply list_elem_of_In, in_map, list_elem_of_In.
      exact Hin.
    + apply elem_of_cons in Hin. destruct Hin as [-> | Hin].
      * rewrite String.eqb_refl in E. discriminate.
      * apply IH; assumption.
Qed.

Lemma existsb_attempt_id_false (x : string) (l : list Attempt) :
  existsb (fun a => String.eqb (a_id a) x) l = false -> x ∉ map a_id l.
Proof.
  intros H Hin. apply list_elem_of_In, in_map_iff in Hin.
  destruct Hin as [a [Ha Hin]].
  assert (existsb (fun a => String.eqb (a_id a) x) l = true) as Ht.
  { apply existsb_exists. exists a. split; [exact Hin|].
    apply String.eqb_eq. exact Ha. }
  congruence.
Qed.

Lemma update_attempt_ids (attempt_id : string) (f : Attempt -> Attempt)
    (rows : list Attempt) :
  (forall a, a_id (f a) = a_id a) ->
  map a_id (update_attempt attempt_id f rows) = map a_id rows.
Proof.
  intros Hf. unfold update_attempt. rewrite map_map. apply map_ext.
  intros a. destruct (String.eqb (a_id a) attempt_id); auto.
Qed.

Lemma update_attempt_Forall (P : Attempt -> Prop) (attempt_id : string)
    (f : Attempt -> Attempt) (rows : list Attempt) :
  (forall a, a ∈ rows -> a_id a = attempt_id -> P (f a)) ->
  Forall P rows -> Forall P (update_attempt attempt_id f rows).
Proof.
  intros Hf Hall. unfold update_attempt. apply Forall_forall.
  intros b Hb. apply list_elem_of_In, in_map_iff in Hb.
  destruct Hb as [a [<- Ha]]. apply list_elem_of_In in Ha.
  destruct (String.eqb (a_id a) attempt_id) eqn:E.
  - apply Hf; [exact Ha | apply String.eqb_eq; exact E].
  - rewrite Forall_forall in Hall. apply Hall. exact Ha.
Qed.

Lemma elem_of_update_attempt (attempt_id : string) (f : Attempt -> Attempt)
    (rows : list Attempt) (a : Attempt) :
  a ∈ rows ->
  (if String.eqb (a_id a) attempt_id then f a else a)
    ∈ update_attempt attempt_id f rows.
Proof.
  intros Ha. unfold update_attempt.
  apply list_elem_of_In, in_map_iff. exists a. split; [reflexivity|].
  apply list_elem_of_In. exact Ha.
Qed.

Lemma elem_of_insert_or_replace (row r : QResultRow) (rows : list QResultRow) :
  r ∈ insert_or_replace row rows -> r ∈ rows \/ r = row.
Proof.
  unfold insert_or_replace. rewrite elem_of_app, list_elem_of_filter, list_elem_of_singleton.
  tauto.
Qed.

Lemma elem_of_store_results (env : Env) (attempt_id : string) (results : list Result)
    (k : nat) (rows : list QResultRow) (r : QResultRow) :
  r ∈ store_results env k attempt_id results rows ->
  r ∈ rows \/ qr_attempt_id r = attempt_id.
Proof.
  revert k rows. induction results as [|qr rest IH]; intros k rows; cbn [store_results].
  - auto.
  - intros H. apply IH in H. destruct H as [H | H]; [|auto].
    apply elem_of_insert_or_replace in H. destruct H as [H | ->]; auto.
Qed.

(** With fresh ids no row is replaced: the new rows are appended. *)
Lemma store_results_fresh (env : Env) (attempt_id : string) (results : list Result)
    (k : nat) (rows : list QResultRow) :
  NoDup (map (uid env) (seq k (length results))) ->
  Forall (fun j => uid env j ∉ map qr_id rows) (seq k (length results)) ->
  store_results env k attempt_id results rows
  = (rows ++ new_rows env k attempt_id results)%list.
Proof.
  revert k rows. induction results as [|qr rest IH]; intros k rows Hnd Hfresh.
  - cbn. rewrite app_nil_r. reflexivity.
  - cbn [length seq map] in Hnd, Hfresh. cbn [store_results new_rows].
    apply NoDup_cons in Hnd. destruct Hnd as [Hk Hnd].
    apply Forall_cons in Hfresh. destruct Hfresh as [Hk' Hfresh].
    set (row := mkQResultRow (uid env k) attempt_id (r_question_id qr)
                  (r_student_answer qr) (r_is_correct qr) (r_points_earned qr)
                  (r_points_possible qr)).
    assert (insert_or_replace row rows = (rows ++ [row])%list) as Hins.
    { unfold insert_or_replace. f_equal.
      clear -Hk'. induction rows as [|r rows IHr]; [reflexivity|].
      rewrite filter_cons.
      cbn [map] in Hk'. apply not_elem_of_cons in Hk'. destruct Hk' as [Hne Hk'].
      rewrite decide_True.
      - rewrite IHr by exact Hk'. reflexivity.
      - apply String.eqb_neq. cbn [qr_id row]. congruence. }
    rewrite Hins, IH.
    + rewrite <- app_assoc. reflexivity.
    + exact Hnd.
    + apply Forall_forall. intros j Hj.
      rewrite map_app. cbn [map]. rewrite elem_of_app, list_elem_of_singleton.
      intros [Hold | Heq].
      * rewrite Forall_forall in Hfresh. exact (Hfresh j Hj Hold).
      * cbn [qr_id row] in Heq. apply Hk. rewrite <- Heq.
        apply list_elem_of_In, in_map, list_elem_of_In. exact Hj.
Qed.

(** ** The store invariant *)

Lemma store_inv_same_attempts (st st' : Store) :
  attempts st' = attempts st -> question_results st' = question_results st ->
  store_inv st -> store_inv st'.
Proof.
  intros Ha Hr [Hids Hcons Hres]. split.
  - rewrite Ha. exact Hids.
  - rewrite Ha. exact Hcons.
  - unfold results_of_completed. rewrite Ha, Hr. exact Hres.
Qed.

Lemma create_question_tables st env text q_type options correct difficulty tags
    expl points :
  let st' := snd (create_question st env text q_type options correct difficulty
                                  tags expl points) in
  attempts st' = attempts st /\ question_results st' = question_results st.
Proof.
  unfold create_question.
  destruct (negb (sqlite_int points)); [split; reflexivity|].
  destruct (_ || _); split; reflexivity.
Qed.

Lemma create_quiz_tables st env title descr qids limit passing shuffle max_attempts :
  let st' := snd (create_quiz st env title descr qids limit passing shuffle
                              max_attempts) in
  attempts st' = attempts st /\ question_results st' = question_results st
  /\ questions st' = questions st.
Proof.
  unfold create_quiz.
  destruct (_ || _); [repeat split; reflexivity|].
  destruct (existsb _ _); repeat split; reflexivity.
Qed.

Lemma build_adaptive_quiz_tables st env student_id tags difficulty n :
  let st' := snd (build_adaptive_quiz st env student_id tags difficulty n) in
  attempts st' = attempts st /\ question_results st' = question_results st.
Proof.
  unfold build_adaptive_quiz.
  destruct (if _ <? _ then _ else _) as [|q l]; [split; reflexivity|].
  match goal with
  | |- context [create_quiz ?a ?b ?c ?d ?e ?f ?g ?h ?i] =>
      destruct (create_quiz_tables a b c d e f g h i) as [H1 [H2 _]]
  end.
  split; assumption.
Qed.

Lemma store_inv_empty : store_inv empty_store.
Proof.
  split; cbn.
  - constructor.
  - constructor.
  - intros r Hr. inversion Hr.
Qed.

Lemma start_attempt_inv st env quiz_id student_id :
  store_inv st -> store_inv (snd (start_attempt st env quiz_id student_id)).
Proof.
  intros Hinv. unfold start_attempt.
  destruct (get_quiz st quiz_id) as [quiz|]; [|exact Hinv].
  destruct (_ <=? _); [exact Hinv|].
  destruct (existsb _ _) eqn:E; [exact Hinv|].
  destruct Hinv as [Hids Hcons Hres]. cbn [snd]. split; cbn [attempts question_results].
  - rewrite map_app. apply NoDup_app. repeat split.
    + exact Hids.
    + intros x Hx Hx'. cbn in Hx'. apply list_elem_of_singleton in Hx'. subst x.
      apply existsb_attempt_id_false in E. exact (E Hx).
    + cbn. apply NoDup_singleton.
  - apply Forall_app. split; [exact Hcons|].
    constructor; [|constructor]. left. cbn. auto.
  - intros r Hr. destruct (Hres r Hr) as [a [Ha Hrest]].
    exists a. split; [|exact Hrest]. apply elem_of_app. left. exact Ha.
Qed.

Lemma submit_answer_inv st attempt_id question_id answer :
  store_inv st -> store_inv (snd (submit_answer st attempt_id question_id answer)).
Proof.
  intros Hinv. unfold submit_answer.
  destruct (find_attempt st attempt_id) as [row|]; [|exact Hinv].
  destruct (truthy_opt _); [exact Hinv|].
  destruct Hinv as [Hids Hcons Hres]. cbn [snd]. split; cbn [attempts question_results].
  - rewrite update_attempt_ids; [exact Hids | reflexivity].
  - apply update_attempt_Forall; [|exact Hcons].
    intros a Ha _. rewrite Forall_forall in Hcons. exact (Hcons a Ha).
  - intros r Hr. destruct (Hres r Hr) as [a [Ha [Hid Hdone]]].
    eexists. split; [eapply elem_of_update_attempt; exact Ha|].
    destruct (String.eqb (a_id a) attempt_id); split; assumption.
Qed.

Lemma complete_attempt_inv st env attempt_id :
  clock_ok env -> store_inv st -> store_inv (snd (complete_attempt st env attempt_id)).
Proof.
  intros Hclock Hinv. unfold complete_attempt.
  destruct (find_attempt st attempt_id) as [row|] eqn:Hfind; [|exact Hinv].
  destruct (truthy_opt _); [exact Hinv|].
  destruct Hinv as [Hids Hcons Hres]. cbn [snd]. split; cbn [attempts question_results].
  - rewrite update_attempt_ids; [exact Hids | reflexivity].
  - apply update_attempt_Forall; [|exact Hcons].
    intros a _ _. right. cbn. repeat split; try discriminate. exact Hclock.
  - intros r Hr. apply elem_of_store_results in Hr. destruct Hr as [Hr | Hr].
    + destruct (Hres r Hr) as [a [Ha [Hid Hdone]]].
      eexists. split; [eapply elem_of_update_attempt; exact Ha|].
      destruct (String.eqb (a_id a) attempt_id); split;
        solve [assumption | discriminate].
    + apply find_attempt_Some in Hfind. destruct Hfind as [Hrow Hid].
      eexists. split; [eapply elem_of_update_attempt; exact Hrow|].
      rewrite (proj2 (String.eqb_eq _ _) Hid). cbn. split; [congruence | discriminate].
Qed.

(** Every reachable store satisfies the invariant. *)
Lemma reachable_inv (st : Store) : reachable st -> store_inv st.
Proof.
  induction 1 as [| st env text q_type options correct difficulty tags expl points _ IH
                  | st env title descr qids limit passing shuffle max_attempts _ IH
                  | st env quiz_id student_id _ IH
                  | st attempt_id question_id answer _ IH
                  | st env attempt_id _ IH Hclock
                  | st env student_id tags difficulty n _ IH].
  - exact store_inv_empty.
  - destruct (create_question_tables st env text q_type options correct difficulty
                tags expl points) as [Ha Hr].
    exact (store_inv_same_attempts _ _ Ha Hr IH).
  - destruct (create_quiz_tables st env title descr qids limit passing shuffle
                max_attempts) as [Ha [Hr _]].
    exact (store_inv_same_attempts _ _ Ha Hr IH).
  - apply start_attempt_inv. exact IH.
  - apply submit_answer_inv. exact IH.
  - apply complete_attempt_inv; assumption.
  - destruct (build_adaptive_quiz_tables st env student_id tags difficulty n)
      as [Ha Hr].
    exact (store_inv_same_attempts _ _ Ha Hr IH).
Qed.

(** ** The worked session is reachable *)

Lemma session_clock_ok (tag : string) : clock_ok (session_env tag).
Proof. reflexivity. Qed.

Lemma reachable_st_quiz : reachable st_quiz.
Proof.
  unfold st_quiz, st_questions.
  apply reach_create_quiz, reach_create_question, reach_create_question, reach_init.
Qed.

Lemma reachable_st_in_progress : reachable st_in_progress.
Proof.
  unfold st_in_progress.
  apply reach_submit_answer, reach_start_attempt. exact reachable_st_quiz.
Qed.

Lemma reachable_st_one_completed : reachable st_one_completed.
Proof.
  unfold st_one_completed.
  apply reach_complete_attempt; [exact reachable_st_in_progress | apply session_clock_ok].
Qed.

Lemma reachable_st_two_completed : reachable st_two_completed.
Proof.
  unfold st_two_completed.
  apply reach_complete_attempt; [|apply session_clock_ok].
  apply reach_start_attempt. exact reachable_st_one_completed.
Qed.

(** ** Attempt lifecycle *)

Lemma count_attempts_by_status (st : Store) (quiz_id student_id : string) :
  count_attempts st quiz_id student_id =
  Z.of_nat (length (filter (fun a => a_quiz_id a = quiz_id /\ a_student_id a = student_id
                                     /\ a_completed_at a = None) (attempts st)))
  + Z.of_nat (length (filter (fun a => a_quiz_id a = quiz_id /\ a_student_id a = student_id
                                       /\ a_completed_at a <> None) (attempts st))).
Proof.
  unfold count_attempts. induction (attempts st) as [|a l IH]; [reflexivity|].
  rewrite !filter_cons.
  destruct (decide (a_quiz_id a = quiz_id /\ a_student_id a = student_id)) as [Hm|Hm].
  - destruct (a_completed_at a) eqn:E.
    + rewrite (decide_False (P := _ /\ _ /\ Some _ = None)) by (intros (_ & _ & ?); discriminate).
      rewrite (decide_True (P := _ /\ _ /\ Some _ <> None)) by (destruct Hm; repeat split; auto; discriminate).
      cbn [length]. lia.
    + rewrite (decide_True (P := _ /\ _ /\ None = None)) by (destruct Hm; repeat split; auto).
      rewrite (decide_False (P := _ /\ _ /\ None <> None)) by (intros (_ & _ & ?); congruence).
      cbn [length]. lia.
  - rewrite (decide_False (P := _ /\ _ /\ a_completed_at a = None)) by (intros (? & ? & _); auto).
    rewrite (decide_False (P := _ /\ _ /\ a_completed_at a <> None)) by (intros (? & ? & _); auto).
    exact IH.
Qed.

(** C3: for a quiz that resolves, [start_attempt] returns the max-attempts
    error and leaves the store as it is whenever the student's attempts on
    the quiz, in progress and completed together, number at least
    [max_attempts]; below the limit, with a new id, it appends exactly one
    attempt row with empty answers and null score, completed_at,
    time_taken_mins and passed, and returns it. *)
Theorem start_attempt_enforces_limit :
  forall (st : Store) (env : Env) (quiz_id student_id : string) (quiz : Quiz),
    get_quiz st quiz_id = Some quiz ->
    (qz_max_attempts quiz <= count_attempts st quiz_id student_id ->
     start_attempt st env quiz_id student_id
     = (Err (LimitExceeded (qz_max_attempts quiz)), st))
    /\ (count_attempts st quiz_id student_id < qz_max_attempts quiz ->
        uid env 0 ∉ map a_id (attempts st) ->
        start_attempt st env quiz_id student_id
        = (Ok (mkAttempt (uid env 0) quiz_id student_id ∅ None (now env)
                         None None None),
           mkStore (questions st) (quizzes st)
                   (attempts st ++ [mkAttempt (uid env 0) quiz_id student_id ∅ None
                                              (now env) None None None])
                   (question_results st)))
    /\ count_attempts st quiz_id student_id
       = Z.of_nat (length (filter (fun a => a_quiz_id a = quiz_id
                                            /\ a_student_id a = student_id
                                            /\ a_completed_at a = None) (attempts st)))
         + Z.of_nat (length (filter (fun a => a_quiz_id a = quiz_id
                                              /\ a_student_id a = student_id
                                              /\ a_completed_at a <> None)
                                    (attempts st))).
Proof.
  intros st env quiz_id student_id quiz Hquiz.
  split; [|split].
  - intros Hlimit. unfold start_attempt. rewrite Hquiz.
    destruct (Z.leb_spec (qz_max_attempts quiz) (count_attempts st quiz_id student_id));
      [reflexivity | lia].
  - intros Hbelow Hfresh. unfold start_attempt. rewrite Hquiz.
    destruct (Z.leb_spec (qz_max_attempts quiz) (count_attempts st quiz_id student_id));
      [lia|].
    destruct (existsb _ _) eqn:E; [|reflexivity].
    exfalso. apply Hfresh. apply existsb_exists in E.
    destruct E as [a [Ha Hid]]. apply String.eqb_eq in Hid. cbn [a_id] in Hid.
    rewrite <- Hid. apply list_elem_of_In, in_map. exact Ha.
  - apply count_attempts_by_status.
Qed.

(** A first attempt on [z0] (limit 3) is created; a fourth one, after two
    completed attempts and one still in progress, is refused. *)
Lemma start_attempt_witness :
  start_attempt st_quiz (session_env "a") "z0" "s-1"
  = (Ok (mkAttempt "a0" "z0" "s-1" ∅ None "2024-05-01T10:00:00+00:00" None None None),
     mkStore (questions st_quiz) (quizzes st_quiz)
             (attempts st_quiz
                ++ [mkAttempt "a0" "z0" "s-1" ∅ None "2024-05-01T10:00:00+00:00"
                              None None None])
             (question_results st_quiz))
  /\ start_attempt st_three_started (session_env "d") "z0" "s-1"
     = (Err (LimitExceeded 3), st_three_started).
Proof.
  split.
  - apply (proj1 (proj2 (start_attempt_enforces_limit
                           st_quiz (session_env "a") "z0" "s-1" quiz_z0
                           ltac:(vm_compute; reflexivity)))).
    + vm_compute. reflexivity.
    + intros H. apply list_elem_of_In in H. vm_compute in H. exact H.
  - apply (proj1 (start_attempt_enforces_limit
                    st_three_started (session_env "d") "z0" "s-1" quiz_z0
                    ltac:(vm_compute; reflexivity))).
    vm_compute. discriminate.
Defined.

(** The guard both mutators share: a row whose [completed_at] is truthy makes
    the call return the error payload with the store untouched. *)
Lemma completed_guard (st : Store) (env : Env) (attempt_id question_id answer : string)
    (row : Attempt) :
  find_attempt st attempt_id = Some row ->
  truthy_opt (a_completed_at row) = true ->
  submit_answer st attempt_id question_id answer = (Err AlreadyCompleted, st)
  /\ complete_attempt st env attempt_id = (Err AlreadyCompleted, st).
Proof.
  intros Hfind Hdone. unfold submit_answer, complete_attempt.
  rewrite Hfind, Hdone. split; reflexivity.
Qed.

Lemma consistent_completed_truthy (a : Attempt) :
  attempt_consistent a -> a_completed_at a <> None ->
  truthy_opt (a_completed_at a) = true.
Proof. intros [[H _] | [H _]] Hset; [congruence | exact H]. Qed.

(** C2: in every reachable store, for every attempt row whose completed_at
    is set, [submit_answer] and [complete_attempt] on that attempt both
    return the already-completed error, and the store after the call is the
    store before it: attempts (answers included) and question results are
    unchanged. *)
Theorem completed_attempt_is_final :
  forall (st : Store) (a : Attempt),
    reachable st -> a ∈ attempts st -> a_completed_at a <> None ->
    forall (env : Env) (question_id answer : string),
      submit_answer st (a_id a) question_id answer = (Err AlreadyCompleted, st)
      /\ complete_attempt st env (a_id a) = (Err AlreadyCompleted, st).
Proof.
  intros st a Hreach Ha Hset env question_id answer.
  destruct (reachable_inv st Hreach) as [Hids Hcons _].
  apply completed_guard with (row := a).
  - apply find_attempt_unique; assumption.
  - apply consistent_completed_truthy; [|exact Hset].
    rewrite Forall_forall in Hcons. exact (Hcons a Ha).
Qed.

(** Attempt [a0] after its completion. *)
Lemma completed_attempt_witness :
  submit_answer st_one_completed "a0" "q0" "b" = (Err AlreadyCompleted, st_one_completed)
  /\ complete_attempt st_one_completed (session_env "w") "a0"
     = (Err AlreadyCompleted, st_one_completed).
Proof.
  apply (completed_attempt_is_final st_one_completed a0_completed
           reachable_st_one_completed).
  - apply list_elem_of_In. vm_compute. left. reflexivity.
  - discriminate.
Defined.

(** C4: in every store reachable through the public operations, every
    attempt row has a score exactly when it has a completed_at, and a passed
    flag exactly when it has a completed_at. *)
Theorem score_passed_iff_completed :
  forall (st : Store) (a : Attempt),
    reachable st -> a ∈ attempts st ->
    (a_score a <> None <-> a_completed_at a <> None)
    /\ (a_passed a <> None <-> a_completed_at a <> None).
Proof.
  intros st a Hreach Ha.
  destruct (reachable_inv st Hreach) as [_ Hcons _].
  rewrite Forall_forall in Hcons. specialize (Hcons a Ha).
  destruct Hcons as [(Hc & Hs & Hp & _) | (Hc & Hs & Hp & _)].
  - rewrite Hc, Hs, Hp. tauto.
  - assert (a_completed_at a <> None) as Hset.
    { intros E. rewrite E in Hc. discriminate. }
    tauto.
Qed.

(** Both rows of the session with two completed attempts and one in progress. *)
Lemma score_passed_witness :
  Forall (fun a => (a_score a <> None <-> a_completed_at a <> None)
                   /\ (a_passed a <> None <-> a_completed_at a <> None))
         (attempts st_three_started)
  /\ map a_completed_at (attempts st_three_started)
     = [Some "2024-05-01T10:00:00+00:00"; Some "2024-05-01T10:00:00+00:00"; None].
Proof.
  split; [|vm_compute; reflexivity].
  apply Forall_forall. intros a Ha.
  apply (score_passed_iff_completed st_three_started a); [|exact Ha].
  unfold st_three_started.
  apply reach_start_attempt. exact reachable_st_two_completed.
Defined.

(** ** Questions that no longer resolve *)

Lemma get_question_id (st : Store) (qid : string) (q : Question) :
  get_question st qid = Some q -> q_id q = qid.
Proof.
  unfold get_question. intros H. apply find_some in H.
  apply String.eqb_eq. exact (proj2 H).
Qed.

Lemma sum_points_resolve (st : Store) (qids : list string) :
  sum_points (resolve_questions st qids)
  = foldr (fun qid s => match get_question st qid with
                        | Some q => q_points q + s
                        | None => s
                        end) 0 qids.
Proof.
  induction qids as [|qid rest IH]; [reflexivity|].
  cbn [resolve_questions foldr]. destruct (get_question st qid) as [q|].
  - change (sum_points (q :: resolve_questions st rest))
      with (q_points q + sum_points (resolve_questions st rest)).
    rewrite IH. reflexivity.
  - exact IH.
Qed.

Lemma length_resolve (st : Store) (qids : list string) :
  length (resolve_questions st qids)
  = length (filter (fun qid => get_question st qid <> None) qids).
Proof.
  induction qids as [|qid rest IH]; [reflexivity|].
  cbn [resolve_questions]. rewrite filter_cons.
  destruct (get_question st qid) as [q|].
  - rewrite decide_True by discriminate. cbn [length]. rewrite IH. reflexivity.
  - rewrite decide_False by congruence. exact IH.
Qed.

Lemma resolve_resolves (st : Store) (qids : list string) :
  Forall (fun q => get_question st (q_id q) <> None) (resolve_questions st qids).
Proof.
  induction qids as [|qid rest IH]; [constructor|].
  cbn [resolve_questions]. destruct (get_question st qid) as [q|] eqn:E; [|exact IH].
  constructor; [|exact IH].
  rewrite (get_question_id st qid q E), E. discriminate.
Qed.

Lemma get_quiz_questions_points (st : Store) (quiz_id : string) :
  sum_points (get_quiz_questions st quiz_id) = present_points st quiz_id.
Proof.
  unfold get_quiz_questions, present_points.
  destruct (get_quiz st quiz_id); [apply sum_points_resolve | reflexivity].
Qed.

Lemma get_quiz_questions_count (st : Store) (quiz_id : string) :
  Z.of_nat (length (get_quiz_questions st quiz_id)) = present_count st quiz_id.
Proof.
  unfold get_quiz_questions, present_count.
  destruct (get_quiz st quiz_id); [rewrite length_resolve|]; reflexivity.
Qed.

Lemma get_quiz_questions_resolve (st : Store) (quiz_id : string) :
  Forall (fun q => get_question st (q_id q) <> None) (get_quiz_questions st quiz_id).
Proof.
  unfold get_quiz_questions.
  destruct (get_quiz st quiz_id); [apply resolve_resolves | constructor].
Qed.

Lemma new_rows_of_attempt (env : Env) (attempt_id : string) (results : list Result)
    (k : nat) :
  filter (fun r => qr_attempt_id r = attempt_id) (new_rows env k attempt_id results)
  = new_rows env k attempt_id results.
Proof.
  revert k. induction results as [|qr rest IH]; intros k; [reflexivity|].
  cbn [new_rows]. rewrite filter_cons, decide_True by reflexivity.
  rewrite IH. reflexivity.
Qed.

Lemma new_rows_points (env : Env) (attempt_id : string)
    (answers : gmap string string) (qs : list Question) (k : nat) :
  sum_points_possible (new_rows env k attempt_id (map (result_of answers) qs))
  = sum_points qs.
Proof.
  revert k. induction qs as [|q qs IH]; intros k; [reflexivity|].
  cbn [map new_rows]. unfold sum_points_possible, sum_points in *.
  cbn [foldr qr_points_possible]. rewrite IH. reflexivity.
Qed.

Lemma new_rows_length (env : Env) (attempt_id : string) (results : list Result)
    (k : nat) :
  length (new_rows env k attempt_id results) = length results.
Proof.
  revert k. induction results as [|qr rest IH]; intros k; [reflexivity|].
  cbn [new_rows length]. rewrite IH. reflexivity.
Qed.

Lemma new_rows_resolve (st : Store) (env : Env) (attempt_id : string)
    (answers : gmap string string) (qs : list Question) (k : nat) :
  Forall (fun q => get_question st (q_id q) <> None) qs ->
  Forall (fun r => get_question st (qr_question_id r) <> None)
         (new_rows env k attempt_id (map (result_of answers) qs)).
Proof.
  intros H. revert k. induction H as [|q qs Hq _ IH]; intros k; [constructor|].
  cbn [map new_rows]. constructor; [exact Hq | apply IH].
Qed.

(** An attempt in progress has no result rows yet. *)
Lemma in_progress_no_results (st : Store) (attempt_id : string) (row : Attempt) :
  store_inv st -> find_attempt st attempt_id = Some row ->
  a_completed_at row = None ->
  results_of_attempt st attempt_id = [].
Proof.
  intros [Hids _ Hres] Hfind Hopen. unfold results_of_attempt.
  destruct (filter _ _) as [|r l] eqn:E; [reflexivity|]. exfalso.
  assert (r ∈ filter (fun r => qr_attempt_id r = attempt_id) (question_results st))
    as Hin by (rewrite E; left).
  apply list_elem_of_filter in Hin. destruct Hin as [Hid Hr].
  destruct (Hres r Hr) as [a [Ha [Haid Hdone]]].
  pose proof (find_attempt_unique st a Hids Ha) as Hfa.
  rewrite Haid, Hid, Hfind in Hfa. injection Hfa as ->. contradiction.
Qed.

(** C6: completing an in-progress attempt of a reachable store, with new ids
    for the result rows, succeeds, leaves the Question Store as it is, and
    stores for the attempt exactly one result row per question id of the quiz
    that resolves: the sum of points_possible over those rows, and the
    grader's total_points, equal the sum of points over the resolving ids;
    the row count and the reported total equal the number of resolving ids;
    every stored row names a question that resolves. *)
Theorem grading_skips_missing_questions :
  forall (st : Store) (env : Env) (attempt_id : string) (row : Attempt),
    reachable st ->
    find_attempt st attempt_id = Some row ->
    a_completed_at row = None ->
    fresh_result_uids env (Z.to_nat (present_count st (a_quiz_id row))) st ->
    exists (sm : Summary) (st' : Store),
      complete_attempt st env attempt_id = (Ok sm, st')
      /\ questions st' = questions st
      /\ sum_points_possible (results_of_attempt st' attempt_id)
         = present_points st (a_quiz_id row)
      /\ g_total_points (grade_attempt_dict st row) = present_points st (a_quiz_id row)
      /\ Z.of_nat (length (results_of_attempt st' attempt_id))
         = present_count st (a_quiz_id row)
      /\ s_total sm = present_count st (a_quiz_id row)
      /\ Forall (fun r => get_question st (qr_question_id r) <> None)
                (results_of_attempt st' attempt_id).
Proof.
  intros st env attempt_id row Hreach Hfind Hopen [Hnd Hfresh].
  pose proof (reachable_inv st Hreach) as Hinv.
  pose proof (in_progress_no_results st attempt_id row Hinv Hfind Hopen) as Hnone.
  unfold complete_attempt. rewrite Hfind, Hopen. cbn [truthy_opt].
  eexists. eexists. split; [reflexivity|].
  unfold results_of_attempt in *.
  cbn [questions question_results s_total].
  unfold grade_attempt_dict. rewrite grade_questions_unfold.
  cbn [g_results g_total g_total_points].
  set (qs := get_quiz_questions st (a_quiz_id row)) in *.
  assert (length (map (result_of (a_answers row)) qs)
          = Z.to_nat (present_count st (a_quiz_id row))) as Hlen.
  { rewrite length_map. unfold qs. rewrite <- get_quiz_questions_count.
    rewrite Nat2Z.id. reflexivity. }
  rewrite <- Hlen in Hnd, Hfresh.
  rewrite (store_results_fresh env attempt_id _ 0 _ Hnd Hfresh).
  rewrite filter_app, Hnone, new_rows_of_attempt. cbn [app].
  split; [reflexivity|]. split; [|split; [|split; [|split]]].
  - rewrite new_rows_points. apply get_quiz_questions_points.
  - apply get_quiz_questions_points.
  - rewrite new_rows_length, length_map. apply get_quiz_questions_count.
  - apply get_quiz_questions_count.
  - apply new_rows_resolve, get_quiz_questions_resolve.
Qed.

(** Attempt [g0] on the quiz with a dangling question id: two of the three
    ids resolve, one point each. *)
Lemma grading_skips_witness :
  present_points st_gap_attempt "v0" = 2 /\
  exists (sm : Summary) (st' : Store),
    complete_attempt st_gap_attempt (session_env "h") "g0" = (Ok sm, st')
    /\ questions st' = questions st_gap_attempt
    /\ sum_points_possible (results_of_attempt st' "g0")
       = present_points st_gap_attempt "v0"
    /\ g_total_points (grade_attempt_dict st_gap_attempt g0_in_progress)
       = present_points st_gap_attempt "v0"
    /\ Z.of_nat (length (results_of_attempt st' "g0"))
       = present_count st_gap_attempt "v0"
    /\ s_total sm = present_count st_gap_attempt "v0"
    /\ Forall (fun r => get_question st_gap_attempt (qr_question_id r) <> None)
              (results_of_attempt st' "g0").
Proof.
  split; [vm_compute; reflexivity|].
  apply (grading_skips_missing_questions st_gap_attempt (session_env "h") "g0"
           g0_in_progress).
  - unfold st_gap_attempt, st_gap_quiz, st_questions.
    apply reach_start_attempt.
    apply reach_create_quiz, reach_create_question, reach_create_question, reach_init.
  - vm_compute. reflexivity.
  - reflexivity.
  - split; apply (bool_decide_unpack _); vm_compute; exact I.
Defined.

(** ** Adaptive selection *)

Lemma elem_of_answered_correctly (st : Store) (student_id question_id : string) :
  question_id ∈ answered_correctly st student_id
  <-> has_correct_result st student_id question_id.
Proof.
  unfold answered_correctly, has_correct_result.
  rewrite elem_of_list_to_set, list_elem_of_In, in_map_iff. split.
  - intros [r [Hq Hr]]. apply list_elem_of_In, list_elem_of_filter in Hr.
    destruct Hr as [[Hok Hex] Hr]. apply existsb_exists in Hex.
    destruct Hex as [a [Ha Hmatch]]. apply andb_true_iff in Hmatch.
    destruct Hmatch as [Hid Hsid]. apply String.eqb_eq in Hid, Hsid.
    exists r, a. repeat split; auto. apply list_elem_of_In. exact Ha.
  - intros (r & a & Hr & Ha & Hid & Hsid & Hq & Hok).
    exists r. split; [exact Hq|].
    apply list_elem_of_In, list_elem_of_filter. split; [|exact Hr].
    split; [exact Hok|]. apply existsb_exists. exists a.
    split; [apply list_elem_of_In; exact Ha|].
    apply andb_true_iff. split; apply String.eqb_eq; congruence.
Qed.

Lemma elem_of_slice_to {A : Type} (n : Z) (l : list A) (x : A) :
  x ∈ slice_to n l -> x ∈ l.
Proof.
  unfold slice_to. destruct (0 <=? n); intros H; eapply subseteq_take; exact H.
Qed.

Lemma elem_of_not_yet_correct (done : gset string) (qs : list Question) (q : Question) :
  q ∈ not_yet_correct done qs <-> (q_id q ∉ done) /\ (q ∈ qs).
Proof.
  unfold not_yet_correct.
  exact (list_elem_of_filter (fun q => q_id q ∉ done) qs q).
Qed.

(** The pool at one difficulty is part of the pool at any difficulty. *)
Lemma list_questions_any_difficulty (st : Store) (tags : option (list string))
    (difficulty : string) (q : Question) :
  q ∈ list_questions st tags (Some difficulty) -> q ∈ list_questions st tags None.
Proof.
  unfold list_questions.
  assert (q ∈ (if PyStr.truthy difficulty
               then filter (fun q => String.eqb (q_difficulty q) difficulty = true)
                           (questions st)
               else questions st) -> q ∈ questions st) as Hrows.
  { destruct (PyStr.truthy difficulty); [|auto].
    intros H. apply list_elem_of_filter in H. exact (proj2 H). }
  destruct tags as [[|t ts]|]; try exact Hrows.
  rewrite !list_elem_of_filter. intros [Htag Hq]. split; [exact Htag | auto].
Qed.

Lemma not_yet_correct_nil (done : gset string) (narrow wide : list Question) :
  (forall q, q ∈ narrow -> q ∈ wide) ->
  not_yet_correct done wide = [] -> not_yet_correct done narrow = [].
Proof.
  intros Hsub Hwide. destruct (not_yet_correct done narrow) as [|q l] eqn:E;
    [reflexivity|]. exfalso.
  assert (q ∈ not_yet_correct done narrow) as Hq by (rewrite E; left).
  apply elem_of_not_yet_correct in Hq. destruct Hq as [Hnew Hq].
  assert (q ∈ not_yet_correct done wide) as Hw
    by (apply elem_of_not_yet_correct; auto).
  rewrite Hwide in Hw. inversion Hw.
Qed.

(** C9: whenever [build_adaptive_quiz] returns a quiz, that quiz is the one
    row appended to the quizzes and none of its question ids has a correct
    result row of the student, in any attempt on any quiz; and whenever no
    question with one of the tags, at any difficulty, survives the exclusion,
    the call returns the no-candidates error and leaves the store as it is. *)
Theorem adaptive_quiz_excludes_correct :
  (forall (st st' : Store) (env : Env) (student_id : string) (tags : list string)
          (difficulty : string) (n : Z) (quiz : Quiz),
      build_adaptive_quiz st env student_id tags difficulty n = (Ok quiz, st') ->
      (forall qid, qid ∈ qz_question_ids quiz ->
                   ~ has_correct_result st student_id qid)
      /\ quizzes st' = (quizzes st ++ [quiz])%list)
  /\ (forall (st : Store) (env : Env) (student_id : string) (tags : list string)
             (difficulty : string) (n : Z),
         not_yet_correct (answered_correctly st student_id)
                         (list_questions st (Some tags) None) = [] ->
         build_adaptive_quiz st env student_id tags difficulty n
         = (Err NoCandidates, st)).
Proof.
  split.
  - intros st st' env student_id tags difficulty n quiz.
    unfold build_adaptive_quiz.
    set (done := answered_correctly st student_id).
    set (cands := if _ <? _ then _ else _).
    assert (forall q, q ∈ cands -> q_id q ∉ done) as Hcands.
    { intros q. unfold cands.
      destruct (_ <? _); intros H; apply elem_of_not_yet_correct in H; tauto. }
    destruct cands as [|c cs] eqn:E; [discriminate|].
    unfold create_quiz. destruct (_ || _); [discriminate|].
    destruct (existsb _ _); [discriminate|].
    intros H. injection H as <- <-. cbn [qz_question_ids quizzes].
    split; [|reflexivity].
    intros qid Hqid Hhas.
    apply list_elem_of_In, in_map_iff in Hqid. destruct Hqid as [q [<- Hq]].
    apply list_elem_of_In, elem_of_slice_to in Hq.
    apply (Hcands q Hq). apply elem_of_answered_correctly. exact Hhas.
  - intros st env student_id tags difficulty n Hwide.
    unfold build_adaptive_quiz. rewrite Hwide.
    rewrite (not_yet_correct_nil _ _ _
               (list_questions_any_difficulty st (Some tags) difficulty) Hwide).
    destruct (_ <? _); reflexivity.
Qed.

(** Student [s-1] answered [r0] correctly in attempt [a0]: the adaptive quiz
    over both tags holds [q0] only, and over the tag of [r0] alone there is
    nothing left to ask. *)
Lemma adaptive_quiz_witness :
  ((forall qid, qid ∈ qz_question_ids adaptive_quiz_k0 ->
                ~ has_correct_result st_two_completed "s-1" qid)
   /\ quizzes (snd (build_adaptive_quiz st_two_completed (session_env "k") "s-1"
                      ["math"; "general"] "easy" 10))
      = (quizzes st_two_completed ++ [adaptive_quiz_k0])%list)
  /\ has_correct_result st_two_completed "s-1" "r0"
  /\ build_adaptive_quiz st_two_completed (session_env "k") "s-1" ["general"] "easy" 10
     = (Err NoCandidates, st_two_completed).
Proof.
  split; [|split].
  - apply (proj1 adaptive_quiz_excludes_correct st_two_completed _ (session_env "k")
             "s-1" ["math"; "general"] "easy" 10 adaptive_quiz_k0).
    vm_compute. reflexivity.
  - apply elem_of_answered_correctly, (bool_decide_unpack _). vm_compute. exact I.
  - apply (proj2 adaptive_quiz_excludes_correct). vm_compute. reflexivity.
Defined.

(** ** Ranking of questions *)

Lemma Qlt_bool_true (a b : Q) : Qlt_bool a b = true <-> (a < b)%Q.
Proof.
  unfold Qlt_bool. rewrite negb_true_iff. split.
  - intros H. apply Qnot_le_lt. intros Hle. apply Qle_bool_iff in Hle. congruence.
  - intros H. destruct (Qle_bool b a) eqn:E; [|reflexivity].
    apply Qle_bool_iff in E. exfalso. exact (Qlt_not_le _ _ H E).
Qed.

Lemma Qlt_bool_false (a b : Q) : Qlt_bool a b = false <-> (b <= a)%Q.
Proof.
  unfold Qlt_bool. rewrite negb_false_iff. apply Qle_bool_iff.
Qed.

Lemma ascending_cons (a : Q) (l : list Q) :
  ascending (a :: l) = true
  <-> (forall b, head l = Some b -> (a <= b)%Q) /\ ascending l = true.
Proof.
  destruct l as [|b l].
  - cbn. split; [intros _; split; [discriminate | reflexivity] | reflexivity].
  - cbn [ascending head]. rewrite andb_true_iff, Qle_bool_iff. split.
    + intros [H1 H2]. split; [|exact H2]. intros c Hc. injection Hc as <-. exact H1.
    + intros [H1 H2]. split; [apply H1; reflexivity | exact H2].
Qed.

Lemma head_insert_by {A : Type} (key : A -> Q) (x : A) (l : list A) :
  head (map key (insert_by key x l)) = Some (key x)
  \/ (head (map key (insert_by key x l)) = head (map key l)
      /\ exists y, head l = Some y /\ (key y < key x)%Q).
Proof.
  destruct l as [|y ys]; cbn; [left; reflexivity|].
  destruct (Qlt_bool (key y) (key x)) eqn:E; cbn.
  - right. split; [reflexivity|]. exists y. split; [reflexivity|].
    apply Qlt_bool_true. exact E.
  - left. reflexivity.
Qed.

Lemma insert_by_ascending {A : Type} (key : A -> Q) (x : A) (l : list A) :
  ascending (map key l) = true -> ascending (map key (insert_by key x l)) = true.
Proof.
  induction l as [|y ys IH]; [reflexivity|].
  intros Hsorted. cbn [insert_by].
  destruct (Qlt_bool (key y) (key x)) eqn:E.
  - cbn [map] in *. apply ascending_cons in Hsorted. destruct Hsorted as [Hhd Htl].
    apply ascending_cons. split; [|apply IH; exact Htl].
    intros b Hb. destruct (head_insert_by key x ys) as [Hx | [Hsame _]].
    + rewrite Hx in Hb. injection Hb as <-.
      apply Qlt_le_weak, Qlt_bool_true. exact E.
    + rewrite Hsame in Hb. apply Hhd. exact Hb.
  - cbn [map]. apply ascending_cons. split; [|exact Hsorted].
    intros b Hb. cbn in Hb. injection Hb as <-. apply Qlt_bool_false. exact E.
Qed.

(** What [sort] guarantees: the keys come out in non-decreasing order ... *)
Lemma sort_by_ascending {A : Type} (key : A -> Q) (l : list A) :
  ascending (map key (sort_by key l)) = true.
Proof.
  induction l as [|x xs IH]; [reflexivity|].
  cbn [sort_by]. apply insert_by_ascending. exact IH.
Qed.

Lemma insert_by_perm {A : Type} (key : A -> Q) (x : A) (l : list A) :
  Permutation (insert_by key x l) (x :: l).
Proof.
  induction l as [|y ys IH]; [reflexivity|].
  cbn [insert_by]. destruct (Qlt_bool (key y) (key x)); [|reflexivity].
  rewrite IH. apply perm_swap.
Qed.

(** ... the elements are the same ... *)
Lemma sort_by_perm {A : Type} (key : A -> Q) (l : list A) :
  Permutation (sort_by key l) l.
Proof.
  induction l as [|x xs IH]; [reflexivity|].
  cbn [sort_by]. rewrite insert_by_perm, IH. reflexivity.
Qed.

Lemma insert_by_stable {A : Type} (key : A -> Q) (k : Q) (x : A) (l : list A) :
  filter (fun y => Qeq_bool (key y) k = true) (insert_by key x l)
  = filter (fun y => Qeq_bool (key y) k = true) (x :: l).
Proof.
  induction l as [|y ys IH]; [reflexivity|].
  cbn [insert_by]. destruct (Qlt_bool (key y) (key x)) eqn:E; [|reflexivity].
  rewrite filter_cons, IH, !filter_cons.
  destruct (decide (Qeq_bool (key y) k = true)) as [Hy|Hy];
    destruct (decide (Qeq_bool (key x) k = true)) as [Hx|Hx]; try reflexivity.
  exfalso. apply Qlt_bool_true in E. apply Qeq_bool_iff in Hx, Hy.
  rewrite Hx, Hy in E. exact (Qlt_irrefl _ E).
Qed.

(** ... and elements with equal keys keep their original order. *)
Lemma sort_by_stable {A : Type} (key : A -> Q) (k : Q) (l : list A) :
  filter (fun y => Qeq_bool (key y) k = true) (sort_by key l)
  = filter (fun y => Qeq_bool (key y) k = true) l.
Proof.
  induction l as [|x xs IH]; [reflexivity|].
  cbn [sort_by]. rewrite insert_by_stable, !filter_cons, IH. reflexivity.
Qed.

Lemma sort_key_nonzero (x : QStat) :
  (forall r, qs_correct_rate x = Some r -> ~ (r == 0)%Q) ->
  sort_key x = rate_or_100 x.
Proof.
  unfold sort_key, rate_or_100. destruct (qs_correct_rate x) as [r|]; [|reflexivity].
  intros H. destruct (Qeq_bool r 0) eqn:E; [|reflexivity].
  apply Qeq_bool_iff in E. exfalso. exact (H r eq_refl E).
Qed.

(** As long as no question has a rate of exactly 0, the list is ascending in
    the rate, a null rate counting as 100. *)
Lemma ranking_ascending_without_zero_rate (l : list QStat) :
  Forall (fun x => forall r, qs_correct_rate x = Some r -> ~ (r == 0)%Q) l ->
  ascending (map rate_or_100 (sort_by sort_key l)) = true.
Proof.
  intros Hnz.
  assert (map rate_or_100 (sort_by sort_key l) = map sort_key (sort_by sort_key l))
    as ->; [|apply sort_by_ascending].
  apply map_ext_in. intros x Hx. symmetry. apply sort_key_nonzero.
  rewrite Forall_forall in Hnz. apply Hnz.
  apply list_elem_of_In in Hx.
  rewrite <- (sort_by_perm sort_key l). exact Hx.
Qed.

(** The three ranking fields of the full analytics dict. *)
Lemma get_analytics_ranking (st : Store) (quiz_id : string) (stats : QuizStats) :
  get_analytics st quiz_id = Ok (Completed stats) ->
  exists quiz,
    get_quiz st quiz_id = Some quiz
    /\ question_stats stats
       = sort_by sort_key (question_stats_of st quiz_id (qz_question_ids quiz))
    /\ hardest_questions stats = firstn 3 (question_stats stats)
    /\ easiest_questions stats = rev (last_n 3 (question_stats stats)).
Proof.
  unfold get_analytics. destruct (get_quiz st quiz_id) as [quiz|]; [|discriminate].
  destruct (filter _ _) as [|a rows]; [discriminate|].
  intros H. injection H as <-. exists quiz. cbn. auto.
Qed.

(** C1 fails on the code: in the session with two completed attempts, [q0]
    was answered correctly 0 times out of 2 (rate 0.0) and [r0] once out of 2
    (rate 50.0).  The sort key [x["correct_rate"] or 100] reads the rate 0.0 as
    100, so [q0] is ranked after [r0]: the stats list is not ascending in the
    rate, [hardest_questions] starts with [r0], and [easiest_questions] starts
    with [q0], the question nobody got right. *)
Theorem zero_rate_question_ranked_last :
  exists stats : QuizStats,
    get_analytics st_two_completed "z0" = Ok (Completed stats)
    /\ map (fun x => (qs_question_id x, qs_correct_rate x))
           (question_stats_of st_two_completed "z0" ["q0"; "r0"])
       = [("q0", Some 0%Q); ("r0", Some 50%Q)]
    /\ map (fun x => (qs_question_id x, qs_correct_rate x)) (question_stats stats)
       = [("r0", Some 50%Q); ("q0", Some 0%Q)]
    /\ ascending (map rate_or_100 (question_stats stats)) = false
    /\ map qs_question_id (hardest_questions stats) = ["r0"; "q0"]
    /\ map qs_question_id (easiest_questions stats) = ["q0"; "r0"].
Proof.
  destruct (get_analytics st_two_completed "z0") as [[|stats]| | | |] eqn:E;
    try (vm_compute in E; discriminate).
  exists stats. split; [reflexivity|].
  assert (Ok (Completed stats) = get_analytics st_two_completed "z0") as E'
    by (symmetry; exact E).
  vm_compute in E'. injection E' as ->.
  repeat split; vm_compute; reflexivity.
Qed.

(** ** Comma-separated command-line lists *)

Lemma lstrip_no_leading (s : string) : no_leading_space (PyStr.lstrip s).
Proof.
  induction s as [|c s IH]; cbn; [exact I|].
  destruct (PyStr.isspace c) eqn:E; [exact IH | cbn; exact E].
Qed.

Lemma lstrip_fixed (s : string) : no_leading_space s -> PyStr.lstrip s = s.
Proof. destruct s as [|c s]; cbn; [reflexivity|]. intros ->. reflexivity. Qed.

Lemma rstrip_no_leading (s : string) :
  no_leading_space s -> no_leading_space (PyStr.rstrip s).
Proof.
  destruct s as [|c s]; cbn; [auto|]. intros E.
  destruct (PyStr.rstrip s); [rewrite E|]; cbn; exact E.
Qed.

Lemma rstrip_idem (s : string) : PyStr.rstrip (PyStr.rstrip s) = PyStr.rstrip s.
Proof.
  induction s as [|c s IH]; [reflexivity|].
  cbn [PyStr.rstrip]. destruct (PyStr.rstrip s) as [|d r] eqn:E.
  - destruct (PyStr.isspace c) eqn:Ec; [reflexivity|].
    cbn. rewrite Ec. reflexivity.
  - cbn [PyStr.rstrip] in *. rewrite IH. reflexivity.
Qed.

(** Trimming twice is trimming once. *)
Lemma strip_idem (s : string) : PyStr.strip (PyStr.strip s) = PyStr.strip s.
Proof.
  unfold PyStr.strip.
  rewrite (lstrip_fixed (PyStr.rstrip (PyStr.lstrip s))).
  - apply rstrip_idem.
  - apply rstrip_no_leading, lstrip_no_leading.
Qed.

Lemma has_char_lstrip (c : ascii) (s : string) :
  has_char c s = false -> has_char c (PyStr.lstrip s) = false.
Proof.
  induction s as [|a s IH]; [reflexivity|].
  intros H. cbn [PyStr.lstrip]. destruct (PyStr.isspace a); [|exact H].
  cbn [has_char] in H. apply orb_false_iff in H. apply IH. exact (proj2 H).
Qed.

Lemma has_char_rstrip (c : ascii) (s : string) :
  has_char c s = false -> has_char c (PyStr.rstrip s) = false.
Proof.
  induction s as [|a s IH]; [reflexivity|].
  cbn [has_char]. intros H. apply orb_false_iff in H. destruct H as [Ha Hs].
  cbn [PyStr.rstrip]. specialize (IH Hs).
  destruct (PyStr.rstrip s) as [|d r].
  - destruct (PyStr.isspace a); [reflexivity|]. cbn. rewrite Ha. reflexivity.
  - cbn [has_char] in *. rewrite Ha. exact IH.
Qed.

Lemma has_char_strip (c : ascii) (s : string) :
  has_char c s = false -> has_char c (PyStr.strip s) = false.
Proof. intros H. apply has_char_rstrip, has_char_lstrip. exact H. Qed.

Lemma split_no_sep (sep : ascii) (t : string) :
  has_char sep t = false -> PyStr.split sep t = [t].
Proof.
  induction t as [|a t IH]; [reflexivity|].
  cbn [has_char]. intros H. apply orb_false_iff in H. destruct H as [Ha Ht].
  cbn [PyStr.split]. rewrite Ha, (IH Ht). reflexivity.
Qed.

Lemma split_app_sep (sep : ascii) (t u : string) :
  has_char sep t = false ->
  PyStr.split sep (t +:+ String sep u) = t :: PyStr.split sep u.
Proof.
  induction t as [|a t IH].
  - intros _. change ("" +:+ String sep u) with (String sep u).
    cbn [PyStr.split]. rewrite Ascii.eqb_refl. reflexivity.
  - cbn [has_char]. intros H. apply orb_false_iff in H. destruct H as [Ha Ht].
    change (String a t +:+ String sep u) with (String a (t +:+ String sep u)).
    cbn [PyStr.split]. rewrite Ha, (IH Ht). reflexivity.
Qed.

(** Splitting a join of separator-free pieces gives the pieces back. *)
Lemma split_concat (sep : ascii) (ts : list string) :
  ts <> [] -> Forall (fun t => has_char sep t = false) ts ->
  PyStr.split sep (String.concat (String sep "") ts) = ts.
Proof.
  induction ts as [|t ts IH]; [congruence|].
  intros _ Hall. apply Forall_cons in Hall. destruct Hall as [Ht Hts].
  destruct ts as [|t' ts].
  - cbn. apply split_no_sep. exact Ht.
  - change (String.concat (String sep "") (t :: t' :: ts))
      with (t +:+ String sep (String.concat (String sep "") (t' :: ts))).
    rewrite split_app_sep by exact Ht. rewrite IH; [reflexivity | discriminate | exact Hts].
Qed.

Lemma split_csv_tokens (arg : string) : split_csv arg = token_list arg.
Proof. reflexivity. Qed.

Lemma split_csv_elem_clean (arg t : string) : t ∈ split_csv arg -> clean_token t.
Proof.
  rewrite split_csv_tokens, elem_of_token_list.
  intros [a [Ha [Ht Hne]]]. subst t. repeat split.
  - exact Hne.
  - apply strip_idem.
  - apply has_char_strip. apply (split_pieces "," arg). apply list_elem_of_In. exact Ha.
Qed.

Lemma split_csv_of_clean (ts : list string) :
  Forall clean_token ts -> split_csv (String.concat "," ts) = ts.
Proof.
  intros Hclean. destruct ts as [|t0 ts0] eqn:Ets; [reflexivity|].
  rewrite <- Ets in *. unfold split_csv.
  rewrite split_concat.
  - assert (filter (fun t => PyStr.truthy (PyStr.strip t) = true) ts = ts) as ->.
    { clear Ets. induction Hclean as [|t ts [Hne [Hs _]] _ IH]; [reflexivity|].
      rewrite filter_cons, decide_True, IH; [reflexivity|].
      rewrite Hs. apply truthy_true_iff. exact Hne. }
    clear Ets. induction Hclean as [|t ts [_ [Hs _]] _ IH]; [reflexivity|].
    cbn [map]. rewrite Hs, IH. reflexivity.
  - rewrite Ets. discriminate.
  - eapply Forall_impl; [exact Hclean|]. intros t [_ [_ H]]. exact H.
Qed.

Lemma split_blank_pieces (arg a : string) :
  whitespace_only arg = true -> a ∈ PyStr.split "," arg -> whitespace_only a = true.
Proof.
  revert a. induction arg as [|c s IH]; intros a Hws Ha.
  - cbn in Ha. apply list_elem_of_singleton in Ha. subst a. reflexivity.
  - cbn [whitespace_only] in Hws. apply andb_true_iff in Hws.
    destruct Hws as [Hc Hs]. cbn [PyStr.split] in Ha.
    destruct (Ascii.eqb c ",") eqn:Ec.
    + apply elem_of_cons in Ha. destruct Ha as [-> | Ha]; [reflexivity | auto].
    + destruct (PyStr.split "," s) as [|u us] eqn:Eu.
      * apply list_elem_of_singleton in Ha. subst a. cbn. rewrite Hc. reflexivity.
      * apply elem_of_cons in Ha. destruct Ha as [-> | Ha].
        -- cbn. rewrite Hc. apply IH; [exact Hs | left].
        -- apply IH; [exact Hs | right; exact Ha].
Qed.

Lemma split_csv_blank (arg : string) :
  whitespace_only arg = true -> split_csv arg = [].
Proof.
  intros Hws. destruct (split_csv arg) as [|t ts] eqn:E; [reflexivity|].
  exfalso. assert (t ∈ split_csv arg) as Ht by (rewrite E; left).
  rewrite split_csv_tokens in Ht. apply elem_of_token_list in Ht.
  destruct Ht as [a [Ha [Hs Hne]]]. apply Hne. rewrite <- Hs.
  apply strip_whitespace_only. exact (split_blank_pieces arg a Hws Ha).
Qed.

(** Every element [cli_main] reads out of a comma-separated argument is
    non-empty, carries no surrounding whitespace and no comma; an argument of
    whitespace only (the default [""] included) gives the empty list; and
    reading the elements joined by commas gives the same elements again. *)
Theorem split_csv_elements_clean :
  forall arg : string,
    Forall clean_token (split_csv arg)
    /\ (whitespace_only arg = true -> split_csv arg = [])
    /\ split_csv (String.concat "," (split_csv arg)) = split_csv arg.
Proof.
  intros arg. assert (Forall clean_token (split_csv arg)) as Hclean.
  { apply Forall_forall. intros t Ht. exact (split_csv_elem_clean arg t Ht). }
  split; [exact Hclean|]. split; [apply split_csv_blank|].
  apply split_csv_of_clean. exact Hclean.
Qed.

(** A comma-joined list of clean elements is read back as that list. *)
Theorem split_csv_round_trip :
  forall ts : list string,
    Forall clean_token ts -> split_csv (String.concat "," ts) = ts.
Proof. intros ts H. apply split_csv_of_clean. exact H. Qed.

Lemma split_csv_round_trip_witness :
  split_csv (String.concat "," ["math"; "linear algebra"; "q-1"])
  = ["math"; "linear algebra"; "q-1"].
Proof.
  apply (split_csv_round_trip ["math"; "linear algebra"; "q-1"]).
  repeat constructor; discriminate.
Defined.

(** ** Inserting rows and reading them back *)

Lemma find_snoc {A : Type} (f : A -> bool) (l : list A) (x : A) :
  find f (l ++ [x]) =
  match find f l with
  | Some y => Some y
  | None => if f x then Some x else None
  end.
Proof.
  induction l as [|y l IH]; [reflexivity|].
  cbn [app find]. destruct (f y); [reflexivity | exact IH].
Qed.

Lemma existsb_false_find {A : Type} (f : A -> bool) (l : list A) :
  existsb f l = false -> find f l = None.
Proof.
  induction l as [|y l IH]; [reflexivity|].
  cbn. destruct (f y); [discriminate | exact IH].
Qed.

Lemma existsb_id_iff {A : Type} (key : A -> string) (x : string) (l : list A) :
  existsb (fun a => String.eqb (key a) x) l = true <-> x ∈ map key l.
Proof.
  rewrite existsb_exists, list_elem_of_In, in_map_iff. split.
  - intros [a [Ha E]]. apply String.eqb_eq in E. eauto.
  - intros [a [E Ha]]. exists a. split; [exact Ha | apply String.eqb_eq; exact E].
Qed.

Lemma existsb_id_false_iff {A : Type} (key : A -> string) (x : string) (l : list A) :
  existsb (fun a => String.eqb (key a) x) l = false <-> x ∉ map key l.
Proof.
  rewrite <- existsb_id_iff. destruct (existsb _ l); split; congruence.
Qed.

Lemma sqlite_int_iff (n : Z) : sqlite_int n = true <-> - 2 ^ 63 <= n < 2 ^ 63.
Proof. unfold sqlite_int. rewrite andb_true_iff, Z.leb_le, Z.ltb_lt. reflexivity. Qed.

Lemma existsb_eqb_iff (x : string) (l : list string) :
  existsb (String.eqb x) l = true <-> x ∈ l.
Proof.
  rewrite existsb_exists, list_elem_of_In. split.
  - intros [y [Hy E]]. apply String.eqb_eq in E. subst y. exact Hy.
  - intros H. exists x. split; [exact H | apply String.eqb_refl].
Qed.

(** [create_question] stores a question exactly when its points fit 64 bits,
    its type and difficulty are among those the table's CHECKs list, and the
    new id is no primary key yet: the question it returns then holds the
    arguments, is the last row of the table and is what [get_question]
    returns for its id.  Points outside 64 bits raise [OverflowError]; with
    points that fit, a type or difficulty outside the lists or an id already
    used raises [IntegrityError]; either way nothing is written.  Every other
    id resolves as before in all cases. *)
Theorem create_question_then_get :
  forall (st : Store) (env : Env) (text q_type : string)
         (options : list (string * string)) (correct difficulty : string)
         (tags : list string) (expl : string) (points : Z),
    let r := create_question st env text q_type options correct difficulty tags
                             expl points in
    let q := mkQuestion (uid env 0) text q_type options correct difficulty tags
                        expl points (now env) in
    let fits := - 2 ^ 63 <= points < 2 ^ 63 in
    let checks :=
      q_type ∈ ["multiple_choice"; "true_false"; "short_answer"; "multi_select"]
      /\ difficulty ∈ ["easy"; "medium"; "hard"] in
    (~ fits -> r = (OverflowError, st))
    /\ (fits -> ~ checks \/ uid env 0 ∈ map q_id (questions st) ->
        r = (IntegrityError, st))
    /\ (fits -> checks -> uid env 0 ∉ map q_id (questions st) ->
        fst r = Ok q
        /\ questions (snd r) = (questions st ++ [q])%list
        /\ get_question (snd r) (uid env 0) = Some q
        /\ quizzes (snd r) = quizzes st)
    /\ (forall id', id' <> uid env 0 ->
                    get_question (snd r) id' = get_question st id').
Proof.
  intros st env text q_type options correct difficulty tags expl points r q
         fits checks.
  assert (sqlite_int points = true <-> fits) as Hfits by apply sqlite_int_iff.
  assert (check_type q_type && check_difficulty difficulty = true <-> checks)
    as Hchecks.
  { unfold check_type, check_difficulty, checks.
    rewrite andb_true_iff, !existsb_eqb_iff. reflexivity. }
  unfold r, create_question. fold q. change (q_id q) with (uid env 0).
  destruct (sqlite_int points) eqn:Ei; cbn [negb].
  - assert fits as Hf by (apply Hfits; reflexivity).
    split; [intros Hn; contradiction|].
    destruct (check_type q_type) eqn:Et, (check_difficulty difficulty) eqn:Ed;
      cbn [negb orb andb] in *.
    + assert checks as Hc by (apply Hchecks; reflexivity).
      destruct (existsb _ (questions st)) eqn:E.
      * apply existsb_id_iff in E.
        split; [reflexivity|]. split; [contradiction|]. reflexivity.
      * pose proof E as Hfresh. apply existsb_id_false_iff in Hfresh.
        split; [intros _ [Hn | Hin]; contradiction|]. split.
        -- intros _ _ _. cbn [fst snd questions quizzes]. repeat split.
           unfold get_question. cbn [questions]. rewrite find_snoc.
           rewrite (existsb_false_find _ _ E). cbn [q_id q].
           rewrite String.eqb_refl. reflexivity.
        -- intros id' Hne. unfold get_question. cbn [snd questions].
           rewrite find_snoc. destruct (find _ (questions st)); [reflexivity|].
           cbn [q_id q]. destruct (String.eqb_spec (uid env 0) id'); [congruence|].
           reflexivity.
    + assert (~ checks) as Hc by (rewrite <- Hchecks; discriminate).
      split; [reflexivity|]. split; [contradiction|]. reflexivity.
    + assert (~ checks) as Hc by (rewrite <- Hchecks; discriminate).
      split; [reflexivity|]. split; [contradiction|]. reflexivity.
    + assert (~ checks) as Hc by (rewrite <- Hchecks; discriminate).
      split; [reflexivity|]. split; [contradiction|]. reflexivity.
  - assert (~ fits) as Hf by (rewrite <- Hfits; discriminate).
    split; [reflexivity|]. split; [contradiction|]. split; [contradiction|].
    reflexivity.
Qed.

(** A question of type "essay", one of difficulty "extreme" and one worth
    2 ** 63 points are refused; a second question with a well-formed row is
    stored after the first. *)
Lemma create_question_then_get_witness :
  create_question st_questions (session_env "e") "Discuss." "essay" [] "x" "easy"
                  [] "" 1 = (IntegrityError, st_questions)
  /\ create_question st_questions (session_env "e") "Discuss." "short_answer" []
                     "x" "extreme" [] "" 1 = (IntegrityError, st_questions)
  /\ create_question st_questions (session_env "q") "Again" "short_answer" []
                     "x" "easy" [] "" 1 = (IntegrityError, st_questions)
  /\ create_question st_questions (session_env "e") "Discuss." "short_answer" []
                     "x" "easy" [] "" (2 ^ 63) = (OverflowError, st_questions)
  /\ get_question (snd (create_question st_questions (session_env "e") "Discuss."
                          "short_answer" [] "x" "hard" [] "" (2 ^ 63 - 1))) "e0"
     = Some (mkQuestion "e0" "Discuss." "short_answer" [] "x" "hard" [] ""
                        (2 ^ 63 - 1) (now (session_env "e"))).
Proof.
  split; [|split; [|split; [|split]]].
  - apply (proj1 (proj2 (create_question_then_get st_questions (session_env "e")
                           "Discuss." "essay" [] "x" "easy" [] "" 1))).
    + lia.
    + left. intros [H _]. revert H. apply (bool_decide_unpack _). vm_compute. exact I.
  - apply (proj1 (proj2 (create_question_then_get st_questions (session_env "e")
                           "Discuss." "short_answer" [] "x" "extreme" [] "" 1))).
    + lia.
    + left. intros [_ H]. revert H. apply (bool_decide_unpack _). vm_compute. exact I.
  - apply (proj1 (proj2 (create_question_then_get st_questions (session_env "q")
                           "Again" "short_answer" [] "x" "easy" [] "" 1))).
    + lia.
    + right. apply (bool_decide_unpack _). vm_compute. exact I.
  - apply (proj1 (create_question_then_get st_questions (session_env "e")
                    "Discuss." "short_answer" [] "x" "easy" [] "" (2 ^ 63))).
    lia.
  - apply (proj1 (proj2 (proj2 (create_question_then_get st_questions
                                  (session_env "e") "Discuss." "short_answer" []
                                  "x" "hard" [] "" (2 ^ 63 - 1))))).
    + lia.
    + split; apply (bool_decide_unpack _); vm_compute; exact I.
    + apply (bool_decide_unpack _). vm_compute. exact I.
Defined.

(** [create_quiz] stores a quiz exactly when its time limit and its attempt
    limit fit 64 bits and the new id is no primary key yet: the quiz it
    returns then holds the arguments with [shuffle_options] off and
    [allow_review] on and is what [get_quiz] returns for its id.  A limit
    outside 64 bits raises [OverflowError]; with limits that fit, an id
    already used raises [IntegrityError]; either way nothing is written.
    Every other id resolves as before in all cases.  The question ids are
    stored as given: none is checked against the questions. *)
Theorem create_quiz_then_get :
  forall (st : Store) (env : Env) (title descr : string) (qids : list string)
         (limit : Z) (passing : Q) (shuffle : bool) (max_attempts : Z),
    let r := create_quiz st env title descr qids limit passing shuffle max_attempts in
    let quiz := mkQuiz (uid env 0) title descr qids limit passing shuffle false true
                       max_attempts (now env) in
    let fits := - 2 ^ 63 <= limit < 2 ^ 63
                /\ - 2 ^ 63 <= max_attempts < 2 ^ 63 in
    (~ fits -> r = (OverflowError, st))
    /\ (fits -> uid env 0 ∈ map qz_id (quizzes st) -> r = (IntegrityError, st))
    /\ (fits -> uid env 0 ∉ map qz_id (quizzes st) ->
        fst r = Ok quiz
        /\ quizzes (snd r) = (quizzes st ++ [quiz])%list
        /\ get_quiz (snd r) (uid env 0) = Some quiz
        /\ questions (snd r) = questions st)
    /\ (forall id', id' <> uid env 0 -> get_quiz (snd r) id' = get_quiz st id').
Proof.
  intros st env title descr qids limit passing shuffle max_attempts r quiz fits.
  assert (sqlite_int limit && sqlite_int max_attempts = true <-> fits) as Hfits.
  { unfold fits. rewrite andb_true_iff, !sqlite_int_iff. reflexivity. }
  unfold r, create_quiz. fold quiz. change (qz_id quiz) with (uid env 0).
  destruct (sqlite_int limit) eqn:El, (sqlite_int max_attempts) eqn:Em;
    cbn [negb orb andb] in *.
  - assert fits as Hf by (apply Hfits; reflexivity).
    split; [intros Hn; contradiction|].
    destruct (existsb _ (quizzes st)) eqn:E.
    + apply existsb_id_iff in E. split; [reflexivity|]. split; [contradiction|].
      reflexivity.
    + pose proof E as Hfresh. apply existsb_id_false_iff in Hfresh.
      split; [contradiction|]. split.
      * intros _ _. cbn [fst snd questions quizzes]. repeat split.
        unfold get_quiz. cbn [quizzes]. rewrite find_snoc.
        rewrite (existsb_false_find _ _ E). cbn [qz_id quiz].
        rewrite String.eqb_refl. reflexivity.
      * intros id' Hne. unfold get_quiz. cbn [snd quizzes].
        rewrite find_snoc. destruct (find _ (quizzes st)); [reflexivity|].
        cbn [qz_id quiz]. destruct (String.eqb_spec (uid env 0) id'); [congruence|].
        reflexivity.
  - assert (~ fits) as Hf by (rewrite <- Hfits; discriminate).
    split; [reflexivity|]. split; [contradiction|]. split; [contradiction|].
    reflexivity.
  - assert (~ fits) as Hf by (rewrite <- Hfits; discriminate).
    split; [reflexivity|]. split; [contradiction|]. split; [contradiction|].
    reflexivity.
  - assert (~ fits) as Hf by (rewrite <- Hfits; discriminate).
    split; [reflexivity|]. split; [contradiction|]. split; [contradiction|].
    reflexivity.
Qed.

(** An attempt limit of 2 ** 63 and a time limit of -2 ** 63 - 1 are refused,
    a quiz id already used is refused, and a quiz with the largest limits is
    stored. *)
Lemma create_quiz_then_get_witness :
  create_quiz st_quiz (session_env "y") "Big" "" ["q0"] 30 70%Q false (2 ^ 63)
  = (OverflowError, st_quiz)
  /\ create_quiz st_quiz (session_env "y") "Big" "" ["q0"] (- 2 ^ 63 - 1) 70%Q
                 false 3 = (OverflowError, st_quiz)
  /\ create_quiz st_quiz (session_env "z") "Twice" "" ["q0"] 30 70%Q false 3
     = (IntegrityError, st_quiz)
  /\ get_quiz (snd (create_quiz st_quiz (session_env "y") "Big" "" ["q0"]
                      (2 ^ 63 - 1) 70%Q false (2 ^ 63 - 1))) "y0"
     = Some (mkQuiz "y0" "Big" "" ["q0"] (2 ^ 63 - 1) 70%Q false false true
                    (2 ^ 63 - 1) (now (session_env "y"))).
Proof.
  split; [|split; [|split]].
  - apply (proj1 (create_quiz_then_get st_quiz (session_env "y") "Big" "" ["q0"]
                    30 70%Q false (2 ^ 63))).
    lia.
  - apply (proj1 (create_quiz_then_get st_quiz (session_env "y") "Big" "" ["q0"]
                    (- 2 ^ 63 - 1) 70%Q false 3)).
    lia.
  - apply (proj1 (proj2 (create_quiz_then_get st_quiz (session_env "z") "Twice" ""
                           ["q0"] 30 70%Q false 3))).
    + lia.
    + apply (bool_decide_unpack _). vm_compute. exact I.
  - apply (proj1 (proj2 (proj2 (create_quiz_then_get st_quiz (session_env "y") "Big"
                                  "" ["q0"] (2 ^ 63 - 1) 70%Q false (2 ^ 63 - 1))))).
    + lia.
    + apply (bool_decide_unpack _). vm_compute. exact I.
Defined.

Lemma find_update_attempt (attempt_id id' : string) (f : Attempt -> Attempt)
    (rows : list Attempt) :
  (forall a, a_id (f a) = a_id a) ->
  find (fun a => String.eqb (a_id a) id') (update_attempt attempt_id f rows)
  = if String.eqb id' attempt_id
    then option_map f (find (fun a => String.eqb (a_id a) id') rows)
    else find (fun a => String.eqb (a_id a) id') rows.
Proof.
  intros Hf. induction rows as [|y rows IH].
  - cbn. destruct (String.eqb id' attempt_id); reflexivity.
  - cbn [update_attempt map find].
    assert (a_id (if String.eqb (a_id y) attempt_id then f y else y) = a_id y) as Hid
      by (destruct (String.eqb (a_id y) attempt_id); auto).
    rewrite Hid. destruct (String.eqb_spec (a_id y) id') as [Ey|Ey].
    + subst id'. destruct (String.eqb (a_id y) attempt_id); reflexivity.
    + exact IH.
Qed.

Lemma update_update_attempt (attempt_id : string) (f g : Attempt -> Attempt)
    (rows : list Attempt) :
  (forall a, a_id (f a) = a_id a) -> (forall a, g (f a) = g a) ->
  update_attempt attempt_id g (update_attempt attempt_id f rows)
  = update_attempt attempt_id g rows.
Proof.
  intros Hf Hg. unfold update_attempt. rewrite map_map. apply map_ext.
  intros a. destruct (String.eqb (a_id a) attempt_id) eqn:E.
  - rewrite Hf, E. apply Hg.
  - rewrite E. reflexivity.
Qed.

Lemma count_rows_snoc (st : Store) (a : Attempt) (quiz_id student_id : string) :
  count_attempts (mkStore (questions st) (quizzes st) (attempts st ++ [a])
                          (question_results st)) quiz_id student_id
  = count_attempts st quiz_id student_id
    + (if decide (a_quiz_id a = quiz_id /\ a_student_id a = student_id) then 1 else 0).
Proof.
  unfold count_attempts. cbn [attempts]. rewrite filter_app, length_app.
  rewrite filter_cons, filter_nil.
  destruct (decide _); cbn [length]; lia.
Qed.

Lemma count_rows_update (st : Store) (attempt_id : string) (f : Attempt -> Attempt)
    (quiz_id student_id : string) :
  (forall a, a_quiz_id (f a) = a_quiz_id a /\ a_student_id (f a) = a_student_id a) ->
  Z.of_nat (length (filter (fun a => a_quiz_id a = quiz_id /\ a_student_id a = student_id)
                           (update_attempt attempt_id f (attempts st))))
  = count_attempts st quiz_id student_id.
Proof.
  intros Hf. unfold count_attempts. f_equal.
  induction (attempts st) as [|a l IH]; [reflexivity|].
  cbn [update_attempt map]. rewrite !filter_cons.
  assert (a_quiz_id (if String.eqb (a_id a) attempt_id then f a else a) = a_quiz_id a
          /\ a_student_id (if String.eqb (a_id a) attempt_id then f a else a)
             = a_student_id a) as [-> ->]
    by (destruct (String.eqb (a_id a) attempt_id); [apply Hf | auto]).
  destruct (decide _); cbn [length]; unfold update_attempt in IH; rewrite IH; reflexivity.
Qed.

(** ** Starting, answering, completing *)

(** A started attempt can be read back under its id, every other id reads as
    before, the quiz it names resolves, and the student's attempt count on
    that quiz grows by exactly one while every other count stays. *)
Theorem start_attempt_then_get :
  forall (st st' : Store) (env : Env) (quiz_id student_id : string) (a : Attempt),
    start_attempt st env quiz_id student_id = (Ok a, st') ->
    get_attempt st' (a_id a) = Some a
    /\ (forall id', id' <> a_id a -> get_attempt st' id' = get_attempt st id')
    /\ get_quiz st quiz_id <> None
    /\ count_attempts st' quiz_id student_id
       = count_attempts st quiz_id student_id + 1
    /\ (forall q' s', ~ (q' = quiz_id /\ s' = student_id) ->
                      count_attempts st' q' s' = count_attempts st q' s').
Proof.
  intros st st' env quiz_id student_id a. unfold start_attempt.
  destruct (get_quiz st quiz_id) as [quiz|]; [|discriminate].
  destruct (_ <=? _); [discriminate|].
  destruct (existsb _ (attempts st)) eqn:E; [discriminate|].
  intros H. injection H as <- <-. cbn [a_id] in *.
  split; [|split; [|split; [|split]]].
  - unfold get_attempt, find_attempt. cbn [attempts]. rewrite find_snoc.
    rewrite (existsb_false_find _ _ E). cbn [a_id]. rewrite String.eqb_refl.
    reflexivity.
  - intros id' Hne. unfold get_attempt, find_attempt. cbn [attempts].
    rewrite find_snoc. destruct (find _ (attempts st)); [reflexivity|].
    cbn [a_id]. destruct (String.eqb_spec (uid env 0) id'); [congruence|].
    reflexivity.
  - discriminate.
  - rewrite count_rows_snoc. cbn [a_quiz_id a_student_id].
    rewrite decide_True by auto. reflexivity.
  - intros q' s' Hne. rewrite count_rows_snoc. cbn [a_quiz_id a_student_id].
    rewrite decide_False; [lia|]. intros [-> ->]. apply Hne. auto.
Qed.

Lemma start_attempt_then_get_witness :
  get_attempt (snd (start_attempt st_quiz (session_env "a") "z0" "s-1")) "a0"
  = Some (mkAttempt "a0" "z0" "s-1" ∅ None "2024-05-01T10:00:00+00:00" None None None)
  /\ count_attempts (snd (start_attempt st_quiz (session_env "a") "z0" "s-1")) "z0" "s-1"
     = count_attempts st_quiz "z0" "s-1" + 1.
Proof.
  pose proof (start_attempt_then_get st_quiz
                (snd (start_attempt st_quiz (session_env "a") "z0" "s-1"))
                (session_env "a") "z0" "s-1"
                (mkAttempt "a0" "z0" "s-1" ∅ None "2024-05-01T10:00:00+00:00"
                           None None None)
                ltac:(vm_compute; reflexivity)) as (H1 & _ & _ & H2 & _).
  split; [exact H1 | exact H2].
Defined.

(** On an attempt in progress [submit_answer] succeeds: the attempt then reads
    back with the answer under the question id, every other answer and field
    of the row as before, every other attempt as before, and no other table
    touched.  The question id is not checked against the quiz. *)
Theorem submit_answer_then_get :
  forall (st : Store) (attempt_id question_id answer : string) (row : Attempt),
    find_attempt st attempt_id = Some row ->
    truthy_opt (a_completed_at row) = false ->
    let r := submit_answer st attempt_id question_id answer in
    fst r = Ok (mkSaved attempt_id question_id answer true)
    /\ get_attempt (snd r) attempt_id
       = Some (set_answers (<[question_id := answer]> (a_answers row)) row)
    /\ (forall row', get_attempt (snd r) attempt_id = Some row' ->
          a_answers row' !! question_id = Some answer
          /\ forall q', q' <> question_id ->
                        a_answers row' !! q' = a_answers row !! q')
    /\ (forall id', id' <> attempt_id ->
                    get_attempt (snd r) id' = get_attempt st id')
    /\ questions (snd r) = questions st /\ quizzes (snd r) = quizzes st
    /\ question_results (snd r) = question_results st.
Proof.
  intros st attempt_id question_id answer row Hfind Hopen r.
  unfold r, submit_answer. rewrite Hfind, Hopen.
  cbn [fst snd questions quizzes question_results].
  assert (get_attempt
            (mkStore (questions st) (quizzes st)
               (update_attempt attempt_id
                  (set_answers (<[question_id := answer]> (a_answers row)))
                  (attempts st))
               (question_results st)) attempt_id
          = Some (set_answers (<[question_id := answer]> (a_answers row)) row)) as Hget.
  { unfold get_attempt, find_attempt. cbn [attempts].
    rewrite find_update_attempt by reflexivity. rewrite String.eqb_refl.
    unfold find_attempt in Hfind. rewrite Hfind. reflexivity. }
  split; [reflexivity|]. split; [exact Hget|]. split; [|split].
  - intros row' Hrow'. rewrite Hget in Hrow'. injection Hrow' as <-.
    cbn [a_answers set_answers]. split; [apply lookup_insert_eq|].
    intros q' Hne. apply lookup_insert_ne. congruence.
  - intros id' Hne. unfold get_attempt, find_attempt. cbn [attempts].
    rewrite find_update_attempt by reflexivity.
    destruct (String.eqb_spec id' attempt_id); [congruence | reflexivity].
  - repeat split.
Qed.

Lemma submit_answer_then_get_witness :
  get_attempt (snd (submit_answer st_in_progress "a0" "q0" "b")) "a0"
  = Some (set_answers (<["q0" := "b"]> (a_answers a0_in_progress)) a0_in_progress)
  /\ get_attempt (snd (submit_answer st_in_progress "a0" "not-a-question" "x")) "a0"
     = Some (set_answers (<["not-a-question" := "x"]> (a_answers a0_in_progress))
                         a0_in_progress).
Proof.
  split.
  - apply (submit_answer_then_get st_in_progress "a0" "q0" "b" a0_in_progress);
      [vm_compute; reflexivity | reflexivity].
  - apply (submit_answer_then_get st_in_progress "a0" "not-a-question" "x"
             a0_in_progress); [vm_compute; reflexivity | reflexivity].
Defined.

Lemma find_attempt_after_submit (st : Store) (attempt_id question_id answer : string)
    (row : Attempt) :
  find_attempt st attempt_id = Some row ->
  truthy_opt (a_completed_at row) = false ->
  find_attempt (snd (submit_answer st attempt_id question_id answer)) attempt_id
  = Some (set_answers (<[question_id := answer]> (a_answers row)) row).
Proof.
  intros Hfind Hopen. unfold submit_answer. rewrite Hfind, Hopen.
  unfold find_attempt in *. cbn [snd attempts].
  rewrite find_update_attempt by reflexivity.
  rewrite String.eqb_refl, Hfind. reflexivity.
Qed.

Lemma submit_answer_store (st : Store) (attempt_id question_id answer : string)
    (row : Attempt) :
  find_attempt st attempt_id = Some row ->
  truthy_opt (a_completed_at row) = false ->
  snd (submit_answer st attempt_id question_id answer)
  = mkStore (questions st) (quizzes st)
            (update_attempt attempt_id
               (set_answers (<[question_id := answer]> (a_answers row)))
               (attempts st))
            (question_results st).
Proof. intros Hfind Hopen. unfold submit_answer. rewrite Hfind, Hopen. reflexivity. Qed.

Lemma submit_answer_noop (st : Store) (attempt_id question_id answer : string) :
  match find_attempt st attempt_id with
  | None => True
  | Some row => truthy_opt (a_completed_at row) = true
  end ->
  snd (submit_answer st attempt_id question_id answer) = st.
Proof.
  unfold submit_answer. destruct (find_attempt st attempt_id) as [row|]; [|reflexivity].
  intros ->. reflexivity.
Qed.

Lemma submit_twice (st : Store) (attempt_id q1 a1 q2 a2 : string) (row : Attempt) :
  find_attempt st attempt_id = Some row ->
  truthy_opt (a_completed_at row) = false ->
  snd (submit_answer (snd (submit_answer st attempt_id q1 a1)) attempt_id q2 a2)
  = mkStore (questions st) (quizzes st)
            (update_attempt attempt_id
               (set_answers (<[q2 := a2]> (<[q1 := a1]> (a_answers row))))
               (attempts st))
            (question_results st).
Proof.
  intros Hfind Hopen.
  rewrite (submit_answer_store _ attempt_id q2 a2 _
             (find_attempt_after_submit st attempt_id q1 a1 row Hfind Hopen) Hopen).
  rewrite (submit_answer_store st attempt_id q1 a1 row Hfind Hopen).
  cbn [questions quizzes attempts question_results a_answers set_answers].
  rewrite update_update_attempt by reflexivity. reflexivity.
Qed.

(** Two laws of [submit_answer] that hold on every store: answering the same
    question twice leaves what answering it the second way alone leaves (last
    write wins), and answers to two different questions can be submitted in
    either order. *)
Theorem submit_answer_last_write_wins :
  (forall (st : Store) (attempt_id question_id a1 a2 : string),
      snd (submit_answer (snd (submit_answer st attempt_id question_id a1))
                         attempt_id question_id a2)
      = snd (submit_answer st attempt_id question_id a2))
  /\ (forall (st : Store) (attempt_id q1 a1 q2 a2 : string),
         q1 <> q2 ->
         snd (submit_answer (snd (submit_answer st attempt_id q1 a1)) attempt_id q2 a2)
         = snd (submit_answer (snd (submit_answer st attempt_id q2 a2))
                              attempt_id q1 a1)).
Proof.
  assert (forall st attempt_id,
             match find_attempt st attempt_id with
             | None => True
             | Some row => truthy_opt (a_completed_at row) = true
             end ->
             forall q1 a1 q2 a2,
               snd (submit_answer (snd (submit_answer st attempt_id q1 a1))
                                  attempt_id q2 a2) = st
               /\ snd (submit_answer st attempt_id q2 a2) = st) as Hnoop.
  { intros st attempt_id H q1 a1 q2 a2.
    rewrite (submit_answer_noop st attempt_id q1 a1 H).
    rewrite (submit_answer_noop st attempt_id q2 a2 H). auto. }
  split.
  - intros st attempt_id question_id a1 a2.
    destruct (find_attempt st attempt_id) as [row|] eqn:Hfind.
    + destruct (truthy_opt (a_completed_at row)) eqn:Hopen.
      * destruct (Hnoop st attempt_id ltac:(rewrite Hfind; exact Hopen)
                    question_id a1 question_id a2) as [-> ->]. reflexivity.
      * rewrite (submit_twice st attempt_id _ _ _ _ row Hfind Hopen).
        rewrite (submit_answer_store st attempt_id _ _ row Hfind Hopen).
        rewrite insert_insert_eq. reflexivity.
    + destruct (Hnoop st attempt_id ltac:(rewrite Hfind; exact I)
                  question_id a1 question_id a2) as [-> ->]. reflexivity.
  - intros st attempt_id q1 a1 q2 a2 Hne.
    destruct (find_attempt st attempt_id) as [row|] eqn:Hfind.
    + destruct (truthy_opt (a_completed_at row)) eqn:Hopen.
      * destruct (Hnoop st attempt_id ltac:(rewrite Hfind; exact Hopen)
                    q1 a1 q2 a2) as [-> _].
        destruct (Hnoop st attempt_id ltac:(rewrite Hfind; exact Hopen)
                    q2 a2 q1 a1) as [-> _]. reflexivity.
      * rewrite !(submit_twice st attempt_id _ _ _ _ row Hfind Hopen).
        rewrite (insert_insert_ne (a_answers row) q2 q1) by congruence. reflexivity.
    + destruct (Hnoop st attempt_id ltac:(rewrite Hfind; exact I) q1 a1 q2 a2)
        as [-> _].
      destruct (Hnoop st attempt_id ltac:(rewrite Hfind; exact I) q2 a2 q1 a1)
        as [-> _]. reflexivity.
Qed.

Lemma submit_answer_commute_witness :
  snd (submit_answer (snd (submit_answer st_in_progress "a0" "q0" "b")) "a0" "r0" "false")
  = snd (submit_answer (snd (submit_answer st_in_progress "a0" "r0" "false")) "a0" "q0" "b").
Proof.
  apply (proj2 submit_answer_last_write_wins st_in_progress "a0" "q0" "b" "r0" "false").
  discriminate.
Defined.

(** Completing an attempt in progress succeeds and is final: the row reads
    back with the grader's score, the pass flag [score >= passing_score]
    (false when the quiz does not resolve), the clock's timestamp and the
    rounded time, its answers untouched; every other attempt reads as before;
    the returned summary carries the same score and flag; and from then on
    [submit_answer] and [complete_attempt] on it are refused. *)
Theorem complete_attempt_then_final :
  forall (st : Store) (env : Env) (attempt_id : string) (row : Attempt),
    find_attempt st attempt_id = Some row ->
    truthy_opt (a_completed_at row) = false ->
    clock_ok env ->
    let r := complete_attempt st env attempt_id in
    let score := g_score (grade_attempt_dict st row) in
    let passed := match get_quiz st (a_quiz_id row) with
                  | Some quiz => Qle_bool (qz_passing_score quiz) score
                  | None => false
                  end in
    (exists sm, fst r = Ok sm /\ s_score sm = score /\ s_passed sm = passed
                /\ s_results sm = g_results (grade_attempt_dict st row))
    /\ get_attempt (snd r) attempt_id
       = Some (mkAttempt (a_id row) (a_quiz_id row) (a_student_id row)
                         (a_answers row) (Some score) (a_started_at row)
                         (Some (now env))
                         (Some (PyNum.round (minutes_since env (a_started_at row)) 2))
                         (Some passed))
    /\ (forall id', id' <> attempt_id ->
                    get_attempt (snd r) id' = get_attempt st id')
    /\ (forall env' question_id answer,
           submit_answer (snd r) attempt_id question_id answer
           = (Err AlreadyCompleted, snd r)
           /\ complete_attempt (snd r) env' attempt_id
              = (Err AlreadyCompleted, snd r)).
Proof.
  intros st env attempt_id row Hfind Hopen Hclock r score passed.
  assert (find_attempt (snd r) attempt_id
          = Some (set_completed (now env) score
                    (PyNum.round (minutes_since env (a_started_at row)) 2) passed row))
    as Hafter.
  { unfold r, complete_attempt. rewrite Hfind, Hopen.
    unfold find_attempt in *. cbn [snd attempts].
    rewrite find_update_attempt by reflexivity.
    rewrite String.eqb_refl, Hfind. reflexivity. }
  split; [|split; [|split]].
  - unfold r, complete_attempt. rewrite Hfind, Hopen. eexists.
    split; [reflexivity|]. cbn. auto.
  - unfold get_attempt. rewrite Hafter. reflexivity.
  - intros id' Hne. unfold r, complete_attempt. rewrite Hfind, Hopen.
    unfold get_attempt, find_attempt. cbn [snd attempts].
    rewrite find_update_attempt by reflexivity.
    destruct (String.eqb_spec id' attempt_id); [congruence | reflexivity].
  - intros env' question_id answer.
    apply (completed_guard (snd r) env' attempt_id question_id answer _ Hafter).
    exact Hclock.
Qed.

Lemma complete_attempt_then_final_witness :
  get_attempt st_one_completed "a0" = Some a0_completed
  /\ submit_answer st_one_completed "a0" "q0" "b"
     = (Err AlreadyCompleted, st_one_completed).
Proof.
  destruct (complete_attempt_then_final st_in_progress (session_env "x") "a0"
              a0_in_progress ltac:(vm_compute; reflexivity) eq_refl eq_refl)
    as (_ & Hget & _ & Hfinal).
  split.
  - etransitivity; [exact Hget|]. vm_compute. reflexivity.
  - exact (proj1 (Hfinal (session_env "w") "q0" "b")).
Defined.

(** ** Keys, references and the attempt limit in reachable stores *)

Lemma count_attempts_same (st st' : Store) (quiz_id student_id : string) :
  attempts st' = attempts st ->
  count_attempts st' quiz_id student_id = count_attempts st quiz_id student_id.
Proof. intros H. unfold count_attempts. rewrite H. reflexivity. Qed.

Lemma get_quiz_Some (st : Store) (quiz_id : string) (quiz : Quiz) :
  get_quiz st quiz_id = Some quiz -> quiz ∈ quizzes st /\ qz_id quiz = quiz_id.
Proof.
  unfold get_quiz. intros H. apply find_some in H. destruct H as [Hin Heq].
  split; [apply list_elem_of_In; exact Hin | apply String.eqb_eq; exact Heq].
Qed.

Lemma get_question_Some (st : Store) (qid : string) (q : Question) :
  get_question st qid = Some q -> q ∈ questions st /\ q_id q = qid.
Proof.
  unfold get_question. intros H. apply find_some in H. destruct H as [Hin Heq].
  split; [apply list_elem_of_In; exact Hin | apply String.eqb_eq; exact Heq].
Qed.

Lemma elem_of_map_key {A : Type} (key : A -> string) (l : list A) (a : A) :
  a ∈ l -> key a ∈ map key l.
Proof. intros H. apply list_elem_of_In, in_map, list_elem_of_In. exact H. Qed.

Lemma NoDup_key_inj {A : Type} (key : A -> string) (l : list A) (x y : A) :
  NoDup (map key l) -> x ∈ l -> y ∈ l -> key x = key y -> x = y.
Proof.
  induction l as [|z l IH]; intros Hnd Hx Hy Hk; [inversion Hx|].
  cbn [map] in Hnd. apply NoDup_cons in Hnd. destruct Hnd as [Hz Hnd].
  apply elem_of_cons in Hx. apply elem_of_cons in Hy.
  destruct Hx as [-> | Hx], Hy as [-> | Hy].
  - reflexivity.
  - exfalso. apply Hz. rewrite Hk. apply elem_of_map_key. exact Hy.
  - exfalso. apply Hz. rewrite <- Hk. apply elem_of_map_key. exact Hx.
  - apply IH; assumption.
Qed.

Lemma count_attempts_no_rows (st : Store) (quiz_id student_id : string) :
  (forall a, a ∈ attempts st -> a_quiz_id a <> quiz_id) ->
  count_attempts st quiz_id student_id = 0.
Proof.
  unfold count_attempts. intros H.
  induction (attempts st) as [|a l IH]; [reflexivity|].
  rewrite filter_cons, decide_False.
  - apply IH. intros b Hb. apply H. right. exact Hb.
  - intros [Hq _]. apply (H a); [left | exact Hq].
Qed.

Lemma elem_of_update_attempt_inv (attempt_id : string) (f : Attempt -> Attempt)
    (rows : list Attempt) (b : Attempt) :
  b ∈ update_attempt attempt_id f rows ->
  exists a, a ∈ rows /\ b = (if String.eqb (a_id a) attempt_id then f a else a).
Proof.
  unfold update_attempt. intros H. apply list_elem_of_In, in_map_iff in H.
  destruct H as [a [<- Ha]]. exists a. split; [apply list_elem_of_In; exact Ha|].
  reflexivity.
Qed.

Lemma elem_of_store_results_question (env : Env) (attempt_id : string)
    (results : list Result) (k : nat) (rows : list QResultRow) (r : QResultRow) :
  r ∈ store_results env k attempt_id results rows ->
  r ∈ rows \/ qr_question_id r ∈ map r_question_id results.
Proof.
  revert k rows. induction results as [|qr rest IH]; intros k rows; cbn [store_results].
  - auto.
  - intros H. apply IH in H. destruct H as [H | H].
    + apply elem_of_insert_or_replace in H. destruct H as [H | ->]; [auto|].
      right. cbn. left.
    + right. cbn [map]. right. exact H.
Qed.

Lemma create_question_refs st env text q_type options correct difficulty tags expl
    points :
  store_refs st ->
  store_refs (snd (create_question st env text q_type options correct difficulty
                                   tags expl points)).
Proof.
  intros Hrefs. unfold create_question.
  destruct (negb (sqlite_int points)); [exact Hrefs|].
  destruct (_ || _) eqn:E; [exact Hrefs|].
  apply orb_false_elim in E. destruct E as [_ E].
  apply existsb_id_false_iff in E. destruct Hrefs as [Hq Hz Haq Hrq Hlim].
  cbn [snd]. split; cbn [questions quizzes attempts question_results].
  - rewrite map_app. apply NoDup_app. repeat split; [exact Hq | | apply NoDup_singleton].
    intros x Hx Hx'. cbn in Hx'. apply list_elem_of_singleton in Hx'. subst x.
    exact (E Hx).
  - exact Hz.
  - exact Haq.
  - intros r Hr. rewrite map_app, elem_of_app. left. apply Hrq. exact Hr.
  - intros quiz student_id Hquiz. rewrite (count_attempts_same st) by reflexivity.
    apply Hlim. exact Hquiz.
Qed.

Lemma create_quiz_refs st env title descr qids limit passing shuffle max_attempts :
  store_refs st ->
  store_refs (snd (create_quiz st env title descr qids limit passing shuffle
                               max_attempts)).
Proof.
  intros Hrefs. unfold create_quiz.
  destruct (_ || _); [exact Hrefs|].
  destruct (existsb _ (quizzes st)) eqn:E; [exact Hrefs|].
  apply existsb_id_false_iff in E. cbn [qz_id] in E.
  destruct Hrefs as [Hq Hz Haq Hrq Hlim].
  cbn [snd]. split; cbn [questions quizzes attempts question_results].
  - exact Hq.
  - rewrite map_app. apply NoDup_app. repeat split; [exact Hz | | apply NoDup_singleton].
    intros x Hx Hx'. cbn in Hx'. apply list_elem_of_singleton in Hx'. subst x.
    exact (E Hx).
  - intros a Ha. rewrite map_app, elem_of_app. left. apply Haq. exact Ha.
  - exact Hrq.
  - intros quiz student_id Hquiz. rewrite (count_attempts_same st) by reflexivity.
    apply elem_of_app in Hquiz. destruct Hquiz as [Hquiz | Hnew].
    + apply Hlim. exact Hquiz.
    + apply list_elem_of_singleton in Hnew. subst quiz. cbn [qz_id].
      rewrite count_attempts_no_rows; [lia|].
      intros a Ha Heq. apply E. rewrite <- Heq. apply Haq. exact Ha.
Qed.

Lemma build_adaptive_quiz_store st env student_id tags difficulty n :
  snd (build_adaptive_quiz st env student_id tags difficulty n) = st
  \/ exists title descr qids limit,
       snd (build_adaptive_quiz st env student_id tags difficulty n)
       = snd (create_quiz st env title descr qids limit 70%Q false 3).
Proof.
  unfold build_adaptive_quiz.
  destruct (if _ <? _ then _ else _) as [|q l]; [left; reflexivity|].
  right. eauto.
Qed.

Lemma start_attempt_refs st env quiz_id student_id :
  store_refs st -> store_refs (snd (start_attempt st env quiz_id student_id)).
Proof.
  intros Hrefs. unfold start_attempt.
  destruct (get_quiz st quiz_id) as [quiz|] eqn:Hquiz; [|exact Hrefs].
  destruct (Z.leb_spec (qz_max_attempts quiz) (count_attempts st quiz_id student_id))
    as [Hfull | Hroom]; [exact Hrefs|].
  destruct (existsb _ (attempts st)); [exact Hrefs|].
  apply get_quiz_Some in Hquiz. destruct Hquiz as [Hin Hid].
  destruct Hrefs as [Hq Hz Haq Hrq Hlim]. cbn [snd]. split.
  - exact Hq.
  - exact Hz.
  - cbn [attempts quizzes]. intros a Ha. apply elem_of_app in Ha.
    destruct Ha as [Ha | Ha]; [apply Haq; exact Ha|].
    apply list_elem_of_singleton in Ha. subst a. cbn [a_quiz_id].
    rewrite <- Hid. apply elem_of_map_key. exact Hin.
  - exact Hrq.
  - cbn [quizzes]. intros quiz' sid Hquiz'. rewrite count_rows_snoc.
    cbn [a_quiz_id a_student_id]. specialize (Hlim quiz' sid Hquiz').
    destruct (decide _) as [[Hsame ->] | _]; [|lia].
    assert (quiz' = quiz) as ->.
    { apply (NoDup_key_inj qz_id (quizzes st)); auto. congruence. }
    rewrite Hid. lia.
Qed.

Lemma update_attempt_refs (st : Store) (attempt_id : string) (f : Attempt -> Attempt)
    (rows : list QResultRow) :
  (forall a, a_quiz_id (f a) = a_quiz_id a /\ a_student_id (f a) = a_student_id a) ->
  (forall r, r ∈ rows -> qr_question_id r ∈ map q_id (questions st)) ->
  store_refs st ->
  store_refs (mkStore (questions st) (quizzes st)
                      (update_attempt attempt_id f (attempts st)) rows).
Proof.
  intros Hf Hrows [Hq Hz Haq Hrq Hlim]. split; cbn [questions quizzes attempts
                                                     question_results].
  - exact Hq.
  - exact Hz.
  - intros b Hb. apply elem_of_update_attempt_inv in Hb. destruct Hb as [a [Ha ->]].
    destruct (String.eqb (a_id a) attempt_id); [rewrite (proj1 (Hf a))|]; auto.
  - exact Hrows.
  - intros quiz sid Hquiz. unfold count_attempts at 1. cbn [attempts].
    rewrite count_rows_update by exact Hf. apply Hlim. exact Hquiz.
Qed.

Lemma submit_answer_refs st attempt_id question_id answer :
  store_refs st -> store_refs (snd (submit_answer st attempt_id question_id answer)).
Proof.
  intros Hrefs. unfold submit_answer.
  destruct (find_attempt st attempt_id) as [row|]; [|exact Hrefs].
  destruct (truthy_opt _); [exact Hrefs|]. cbn [snd].
  apply update_attempt_refs; [intros a; split; reflexivity | | exact Hrefs].
  apply (refs_result_question st Hrefs).
Qed.

Lemma complete_attempt_refs st env attempt_id :
  store_refs st -> store_refs (snd (complete_attempt st env attempt_id)).
Proof.
  intros Hrefs. unfold complete_attempt.
  destruct (find_attempt st attempt_id) as [row|]; [|exact Hrefs].
  destruct (truthy_opt _); [exact Hrefs|]. cbn [snd].
  apply update_attempt_refs; [intros a; split; reflexivity | | exact Hrefs].
  intros r Hr. apply elem_of_store_results_question in Hr.
  destruct Hr as [Hr | Hr]; [apply (refs_result_question st Hrefs); exact Hr|].
  unfold grade_attempt_dict in Hr. rewrite grade_questions_unfold in Hr.
  cbn [g_results] in Hr. rewrite map_map in Hr.
  apply list_elem_of_In, in_map_iff in Hr. destruct Hr as [q [<- Hq]].
  cbn [r_question_id result_of].
  pose proof (get_quiz_questions_resolve st (a_quiz_id row)) as Hres.
  rewrite Forall_forall in Hres. apply list_elem_of_In in Hq. specialize (Hres q Hq).
  destruct (get_question st (q_id q)) as [q'|] eqn:E; [|congruence].
  apply get_question_Some in E. destruct E as [Hin Hid].
  rewrite <- Hid. apply elem_of_map_key. exact Hin.
Qed.

Lemma step_refs (st st' : Store) : step st st' -> store_refs st -> store_refs st'.
Proof.
  intros Hstep Hrefs. destruct Hstep.
  - apply create_question_refs. exact Hrefs.
  - apply create_quiz_refs. exact Hrefs.
  - apply start_attempt_refs. exact Hrefs.
  - apply submit_answer_refs. exact Hrefs.
  - apply complete_attempt_refs. exact Hrefs.
  - destruct (build_adaptive_quiz_store st env student_id tags difficulty n)
      as [-> | (title & descr & qids & limit & ->)]; [exact Hrefs|].
    apply create_quiz_refs. exact Hrefs.
Qed.

(** A step from a reachable store ends in a reachable store. *)
Lemma step_reachable (st st' : Store) : reachable st -> step st st' -> reachable st'.
Proof.
  intros Hreach Hstep. destruct Hstep.
  - apply reach_create_question. exact Hreach.
  - apply reach_create_quiz. exact Hreach.
  - apply reach_start_attempt. exact Hreach.
  - apply reach_submit_answer. exact Hreach.
  - apply reach_complete_attempt; assumption.
  - apply reach_build_adaptive_quiz. exact Hreach.
Qed.

Lemma reachable_refs (st : Store) : reachable st -> store_refs st.
Proof.
  induction 1 as [| st env text q_type options correct difficulty tags expl points _ IH
                  | st env title descr qids limit passing shuffle max_attempts _ IH
                  | st env quiz_id student_id _ IH
                  | st attempt_id question_id answer _ IH
                  | st env attempt_id _ IH Hclock
                  | st env student_id tags difficulty n _ IH].
  - split; cbn.
    + constructor.
    + constructor.
    + intros a Hin. inversion Hin.
    + intros r Hin. inversion Hin.
    + intros quiz sid Hin. inversion Hin.
  - apply create_question_refs. exact IH.
  - apply create_quiz_refs. exact IH.
  - apply start_attempt_refs. exact IH.
  - apply submit_answer_refs. exact IH.
  - apply complete_attempt_refs. exact IH.
  - eapply step_refs; [apply step_build_adaptive_quiz | exact IH].
Qed.

Lemma find_key_in {A : Type} (key : A -> string) (x : string) (l : list A) :
  x ∈ map key l -> find (fun a => String.eqb (key a) x) l <> None.
Proof.
  intros Hin Hnone. apply existsb_id_iff in Hin.
  induction l as [|y l IH]; [discriminate|].
  cbn in Hin, Hnone. destruct (String.eqb (key y) x); [discriminate | auto].
Qed.

(** However the public operations are interleaved, a student never holds
    more attempts on a quiz, whatever their status, than the quiz's
    [max_attempts] (none at all when that limit is zero or negative). *)
Theorem attempts_never_exceed_limit :
  forall (st : Store) (quiz_id student_id : string) (quiz : Quiz),
    reachable st ->
    get_quiz st quiz_id = Some quiz ->
    count_attempts st quiz_id student_id <= Z.max 0 (qz_max_attempts quiz).
Proof.
  intros st quiz_id student_id quiz Hreach Hquiz.
  apply get_quiz_Some in Hquiz. destruct Hquiz as [Hin <-].
  apply (refs_limit st (reachable_refs st Hreach)). exact Hin.
Qed.

Lemma attempts_never_exceed_limit_witness :
  count_attempts st_three_started "z0" "s-1" <= Z.max 0 (qz_max_attempts quiz_z0)
  /\ count_attempts st_three_started "z0" "s-1" = 3.
Proof.
  split; [|vm_compute; reflexivity].
  apply (attempts_never_exceed_limit st_three_started "z0" "s-1" quiz_z0).
  - unfold st_three_started. apply reach_start_attempt. exact reachable_st_two_completed.
  - vm_compute. reflexivity.
Defined.

(** In every reachable store the ids of questions, of quizzes and of attempts
    are pairwise distinct, the quiz of every attempt resolves, and every
    result row names a question that resolves and an attempt that is stored
    and completed. *)
Theorem reachable_store_integrity :
  forall st : Store,
    reachable st ->
    NoDup (map q_id (questions st))
    /\ NoDup (map qz_id (quizzes st))
    /\ NoDup (map a_id (attempts st))
    /\ (forall a, a ∈ attempts st -> get_quiz st (a_quiz_id a) <> None)
    /\ (forall r, r ∈ question_results st ->
          get_question st (qr_question_id r) <> None
          /\ exists a, get_attempt st (qr_attempt_id r) = Some a
                       /\ a_completed_at a <> None).
Proof.
  intros st Hreach.
  destruct (reachable_refs st Hreach) as [Hq Hz Haq Hrq _].
  destruct (reachable_inv st Hreach) as [Ha _ Hres].
  split; [exact Hq|]. split; [exact Hz|]. split; [exact Ha|]. split.
  - intros a Hin. apply find_key_in. apply Haq. exact Hin.
  - intros r Hr. split.
    + apply find_key_in. apply Hrq. exact Hr.
    + destruct (Hres r Hr) as [a [Hin [Hid Hdone]]]. exists a.
      split; [|exact Hdone]. unfold get_attempt. rewrite <- Hid.
      rewrite (find_attempt_unique st a Ha Hin). reflexivity.
Qed.

Lemma reachable_store_integrity_witness :
  NoDup (map q_id (questions st_two_completed))
  /\ NoDup (map qz_id (quizzes st_two_completed))
  /\ NoDup (map a_id (attempts st_two_completed))
  /\ (forall a, a ∈ attempts st_two_completed ->
                get_quiz st_two_completed (a_quiz_id a) <> None)
  /\ (forall r, r ∈ question_results st_two_completed ->
        get_question st_two_completed (qr_question_id r) <> None
        /\ exists a, get_attempt st_two_completed (qr_attempt_id r) = Some a
                     /\ a_completed_at a <> None).
Proof.
  exact (reachable_store_integrity st_two_completed reachable_st_two_completed).
Defined.

Lemma step_keeps_completed (st st' : Store) (a : Attempt) :
  store_inv st -> step st st' ->
  a ∈ attempts st -> a_completed_at a <> None -> a ∈ attempts st'.
Proof.
  intros [Hids Hcons _] Hstep Ha Hdone.
  assert (find_attempt st (a_id a) = Some a) as Hfind
    by (apply find_attempt_unique; assumption).
  assert (truthy_opt (a_completed_at a) = true) as Htruthy.
  { apply consistent_completed_truthy; [|exact Hdone].
    rewrite Forall_forall in Hcons. exact (Hcons a Ha). }
  assert (forall attempt_id f row,
             find_attempt st attempt_id = Some row ->
             truthy_opt (a_completed_at row) = false ->
             a ∈ update_attempt attempt_id f (attempts st)) as Hupd.
  { intros attempt_id f row Hrow Hopen.
    pose proof (elem_of_update_attempt attempt_id f (attempts st) a Ha) as H.
    destruct (String.eqb_spec (a_id a) attempt_id) as [E|E]; [|exact H].
    rewrite <- E, Hfind in Hrow. injection Hrow as <-. congruence. }
  destruct Hstep.
  - match goal with
    | |- context [create_question ?s ?e ?a1 ?a2 ?a3 ?a4 ?a5 ?a6 ?a7 ?a8] =>
        rewrite (proj1 (create_question_tables s e a1 a2 a3 a4 a5 a6 a7 a8))
    end. exact Ha.
  - match goal with
    | |- context [create_quiz ?s ?e ?a1 ?a2 ?a3 ?a4 ?a5 ?a6 ?a7] =>
        rewrite (proj1 (create_quiz_tables s e a1 a2 a3 a4 a5 a6 a7))
    end. exact Ha.
  - unfold start_attempt. destruct (get_quiz st quiz_id); [|exact Ha].
    destruct (_ <=? _); [exact Ha|]. destruct (existsb _ _); [exact Ha|].
    cbn [snd attempts]. apply elem_of_app. left. exact Ha.
  - unfold submit_answer. destruct (find_attempt st attempt_id) as [row|] eqn:Hrow;
      [|exact Ha].
    destruct (truthy_opt (a_completed_at row)) eqn:Hopen; [exact Ha|].
    cbn [snd attempts]. eapply Hupd; eassumption.
  - unfold complete_attempt. destruct (find_attempt st attempt_id) as [row|] eqn:Hrow;
      [|exact Ha].
    destruct (truthy_opt (a_completed_at row)) eqn:Hopen; [exact Ha|].
    cbn [snd attempts]. eapply Hupd; eassumption.
  - rewrite (proj1 (build_adaptive_quiz_tables st env student_id tags difficulty n)).
    exact Ha.
Qed.

(** A completed attempt is final: after any further sequence of public
    operations on a reachable store its row is still stored, field for field,
    and is what [get_attempt] returns for its id. *)
Theorem completed_attempt_never_changes :
  forall (st st' : Store) (a : Attempt),
    reachable st -> rtc step st st' ->
    a ∈ attempts st -> a_completed_at a <> None ->
    a ∈ attempts st' /\ get_attempt st' (a_id a) = Some a.
Proof.
  intros st st' a Hreach Hsteps Ha Hdone.
  assert (reachable st' /\ a ∈ attempts st') as [Hreach' Ha'].
  { induction Hsteps as [st | st mid st' Hstep _ IH]; [auto|].
    apply IH.
    - eapply step_reachable; eassumption.
    - eapply step_keeps_completed; try eassumption. apply reachable_inv. exact Hreach. }
  split; [exact Ha'|]. unfold get_attempt.
  rewrite (find_attempt_unique st' a); [reflexivity | | exact Ha'].
  apply (inv_attempt_ids st'), reachable_inv. exact Hreach'.
Qed.

(** Attempt [a0], completed, after the same student starts, completes and
    starts further attempts. *)
Lemma completed_attempt_never_changes_witness :
  a0_completed ∈ attempts st_three_started
  /\ get_attempt st_three_started "a0" = Some a0_completed.
Proof.
  apply (completed_attempt_never_changes st_one_completed st_three_started a0_completed
           reachable_st_one_completed).
  - unfold st_three_started, st_two_completed.
    eapply rtc_l; [apply (step_start_attempt _ (session_env "b") "z0" "s-1")|].
    eapply rtc_l; [apply (step_complete_attempt _ (session_env "y") "b0"); reflexivity|].
    eapply rtc_l; [apply (step_start_attempt _ (session_env "c") "z0" "s-1")|].
    apply rtc_refl.
  - apply list_elem_of_In. vm_compute. left. reflexivity.
  - discriminate.
Defined.

(** ** Scores and rates are percentages *)

Lemma round_half_even_bounds (x : Q) (a b : Z) :
  (inject_Z a <= x)%Q -> (x <= inject_Z b)%Q ->
  a <= PyNum.round_half_even x <= b.
Proof.
  destruct x as [n d]. unfold Qle, PyNum.round_half_even. cbn [Qnum Qden inject_Z].
  intros Ha Hb.
  pose proof (Z.div_mod n (Zpos d) ltac:(lia)) as Hdm.
  pose proof (Z.mod_pos_bound n (Zpos d) ltac:(lia)) as Hr.
  set (q := n / Zpos d) in *. set (r := n mod Zpos d) in *.
  assert (a <= q) by nia.
  assert (q <= b) by nia.
  assert (q = b -> r = 0) by nia.
  destruct (Z.ltb_spec (2 * r) (Zpos d)); [lia|].
  assert (q < b) by lia.
  destruct (Z.ltb_spec (Zpos d) (2 * r)); [lia|].
  destruct (Z.even q); lia.
Qed.

Lemma pow10_pos (nd : nat) : 0 < 10 ^ Z.of_nat nd.
Proof. apply Z.pow_pos_nonneg; lia. Qed.

Lemma pow2_nonneg (k : Z) : 0 <= k -> PyNum.pow2 k = inject_Z (2 ^ k).
Proof. intros H. unfold PyNum.pow2. destruct (Z.leb_spec 0 k); [reflexivity | lia]. Qed.

Lemma pow2_scale_back (m k : Z) :
  0 <= k -> (inject_Z m * PyNum.pow2 (- k) == m # Z.to_pos (2 ^ k))%Q.
Proof.
  intros Hk. unfold PyNum.pow2.
  destruct (Z.leb_spec 0 (- k)) as [H|H].
  - assert (k = 0) as -> by lia. cbn. unfold Qeq. cbn. lia.
  - rewrite Z.opp_involutive. unfold Qeq, Qmult, inject_Z. cbn [Qnum Qden]. lia.
Qed.

Lemma floor_log2_le (n d : positive) :
  (PyNum.pow2 (PyNum.floor_log2 n d) <= Zpos n # d)%Q.
Proof.
  unfold PyNum.floor_log2.
  pose proof (Z.log2_spec (Zpos n) ltac:(lia)) as [Hn _].
  pose proof (Z.log2_spec (Zpos d) ltac:(lia)) as [_ Hd].
  pose proof (Z.log2_nonneg (Zpos n)) as Hln.
  pose proof (Z.log2_nonneg (Zpos d)) as Hld.
  set (ln := Z.log2 (Zpos n)) in *. set (ld := Z.log2 (Zpos d)) in *.
  set (l := ln - ld).
  destruct (Z.leb_spec (Zpos d * 2 ^ Z.max l 0) (Zpos n * 2 ^ Z.max (- l) 0)) as [Ht|Ht].
  - unfold PyNum.pow2. destruct (Z.leb_spec 0 l) as [Hl|Hl].
    + rewrite Z.max_l in Ht by lia. rewrite Z.max_r in Ht by lia.
      unfold Qle. cbn [Qnum Qden inject_Z]. lia.
    + rewrite Z.max_r in Ht by lia. rewrite Z.max_l in Ht by lia.
      assert (0 < 2 ^ (- l)) by (apply Z.pow_pos_nonneg; lia).
      unfold Qle. cbn [Qnum Qden]. rewrite Z2Pos.id by assumption. lia.
  - clear Ht. unfold PyNum.pow2. destruct (Z.leb_spec 0 (l - 1)) as [Hl|Hl].
    + unfold Qle. cbn [Qnum Qden inject_Z].
      assert (2 ^ (l - 1) * 2 ^ Z.succ ld = 2 ^ ln) as Hpow.
      { rewrite <- Z.pow_add_r by lia. f_equal. lia. }
      assert (0 < 2 ^ (l - 1)) by (apply Z.pow_pos_nonneg; lia).
      nia.
    + assert (0 < 2 ^ (- (l - 1))) as Hp by (apply Z.pow_pos_nonneg; lia).
      unfold Qle. cbn [Qnum Qden]. rewrite Z2Pos.id by assumption.
      assert (2 ^ ln * 2 ^ (- (l - 1)) = 2 ^ Z.succ ld) as Hpow.
      { rewrite <- Z.pow_add_r by lia. f_equal. lia. }
      nia.
Qed.

Lemma nearest_double_pos_bounds (n d : positive) (B : Z) :
  0 <= B < 2 ^ 53 ->
  (Zpos n # d <= inject_Z B)%Q ->
  (0 <= PyNum.nearest_double_pos (Zpos n # d))%Q
  /\ (PyNum.nearest_double_pos (Zpos n # d) <= inject_Z B)%Q.
Proof.
  intros HB Hx. unfold PyNum.nearest_double_pos. cbn [Qnum Qden Z.to_pos].
  pose proof (floor_log2_le n d) as HL.
  set (L := PyNum.floor_log2 n d) in *.
  assert (L <= 52) as HL52.
  { destruct (Z.le_gt_cases L 52) as [H|H]; [exact H|]. exfalso.
    rewrite pow2_nonneg in HL by lia.
    assert (2 ^ 53 <= 2 ^ L) by (apply Z.pow_le_mono_r; lia).
    assert (inject_Z (2 ^ L) <= inject_Z B)%Q as Hc by (eapply Qle_trans; eassumption).
    rewrite <- Zle_Qle in Hc. lia. }
  set (e := Z.max (L - 52) (-1074)).
  assert (e <= 0) as He by lia. clearbody e.
  remember (- e) as k eqn:Ek. assert (0 <= k) as Hk by lia.
  assert (e = - k) as -> by lia. clear Ek He.
  rewrite (pow2_nonneg k Hk).
  assert (0 < 2 ^ k) as Hpos by (apply Z.pow_pos_nonneg; lia).
  assert (0 <= PyNum.round_half_even ((Zpos n # d) * inject_Z (2 ^ k)) <= B * 2 ^ k) as Hm.
  { apply round_half_even_bounds.
    - unfold Qle, Qmult, inject_Z. cbn [Qnum Qden]. nia.
    - rewrite inject_Z_mult. apply Qmult_le_compat_r; [exact Hx|].
      change 0%Q with (inject_Z 0). rewrite <- Zle_Qle. lia. }
  rewrite !Qred_correct, !pow2_scale_back by exact Hk.
  unfold Qle. cbn [Qnum Qden inject_Z]. rewrite Z2Pos.id by exact Hpos. lia.
Qed.

(** Rounding to the nearest double keeps a value between 0 and an integer
    below 2 ** 53 inside that range. *)
Lemma nearest_double_bounds (x : Q) (B : Z) :
  0 <= B < 2 ^ 53 -> (0 <= x)%Q -> (x <= inject_Z B)%Q ->
  (0 <= PyNum.nearest_double x)%Q /\ (PyNum.nearest_double x <= inject_Z B)%Q.
Proof.
  intros HB H0 Hx. unfold PyNum.nearest_double.
  pose proof (Qred_correct x) as Hred.
  destruct (Qred x) as [n d] eqn:E. cbn [Qnum].
  destruct n as [|n|n].
  - split; [apply Qle_refl|]. change 0%Q with (inject_Z 0). rewrite <- Zle_Qle. lia.
  - apply nearest_double_pos_bounds; [exact HB|]. rewrite Hred. exact Hx.
  - exfalso. rewrite <- Hred in H0. unfold Qle in H0. cbn in H0. lia.
Qed.

Lemma nearest_double_eq (x y : Q) :
  (x == y)%Q -> PyNum.nearest_double x = PyNum.nearest_double y.
Proof. intros H. unfold PyNum.nearest_double. rewrite (Qred_complete x y H). reflexivity. Qed.

Lemma round_percentage (x : Q) (nd : nat) :
  (0 <= x)%Q -> (x <= 100)%Q -> Qbetween 0 100 (PyNum.round x nd).
Proof.
  intros Hlo Hhi. unfold PyNum.round.
  pose proof (pow10_pos nd) as Hpos. set (scale := 10 ^ Z.of_nat nd) in *.
  assert (0 * scale <= PyNum.round_half_even (x * inject_Z scale) <= 100 * scale) as Hb.
  { apply round_half_even_bounds.
    - rewrite inject_Z_mult. apply Qmult_le_compat_r; [exact Hlo|].
      change 0%Q with (inject_Z 0). rewrite <- Zle_Qle. lia.
    - rewrite inject_Z_mult. apply Qmult_le_compat_r; [exact Hhi|].
      change 0%Q with (inject_Z 0). rewrite <- Zle_Qle. lia. }
  apply (nearest_double_bounds _ 100); [lia | |];
    unfold Qle; cbn [Qnum Qden inject_Z]; rewrite ?Z2Pos.id by exact Hpos; lia.
Qed.

Lemma percent_value_bounds (c t : Z) (nd : nat) :
  0 <= c <= t -> 0 < t ->
  Qbetween 0 100 (PyNum.round (PyNum.mul (PyNum.truediv c t) 100) nd).
Proof.
  intros Hc Ht.
  assert ((0 <= PyNum.truediv c t)%Q /\ (PyNum.truediv c t <= inject_Z 1)%Q) as [Hq0 Hq1].
  { apply (nearest_double_bounds _ 1); [lia | |];
      destruct t as [|p|p]; try lia;
      unfold Qle, Qdiv, Qmult, Qinv, inject_Z; cbn; nia. }
  assert ((0 <= PyNum.mul (PyNum.truediv c t) 100)%Q
          /\ (PyNum.mul (PyNum.truediv c t) 100 <= inject_Z 100)%Q) as [Hy0 Hy1].
  { apply (nearest_double_bounds _ 100); [lia | |].
    - apply Qmult_le_0_compat; [exact Hq0 | discriminate].
    - change (inject_Z 100) with (inject_Z 1 * 100)%Q.
      apply Qmult_le_compat_r; [exact Hq1 | discriminate]. }
  apply round_percentage; assumption.
Qed.

Lemma truediv_self (t : Z) : 0 < t -> PyNum.truediv t t = 1%Q.
Proof.
  intros Ht. unfold PyNum.truediv.
  rewrite (nearest_double_eq _ 1); [vm_compute; reflexivity|].
  destruct t as [|p|p]; try lia. unfold Qeq, Qdiv, Qmult, Qinv, inject_Z. cbn. lia.
Qed.

Lemma truediv_zero (t : Z) : 0 < t -> PyNum.truediv 0 t = 0%Q.
Proof.
  intros Ht. unfold PyNum.truediv.
  rewrite (nearest_double_eq _ 0); [vm_compute; reflexivity|].
  destruct t as [|p|p]; try lia. unfold Qeq, Qdiv, Qmult, Qinv, inject_Z. cbn. lia.
Qed.

Lemma round_half_even_error (x : Q) :
  (Qabs (inject_Z (PyNum.round_half_even x) - x) <= 1 # 2)%Q.
Proof.
  apply Qabs_Qle_condition.
  destruct x as [n d]. unfold PyNum.round_half_even. cbn [Qnum Qden].
  pose proof (Z.div_mod n (Zpos d) ltac:(lia)) as Hdm.
  pose proof (Z.mod_pos_bound n (Zpos d) ltac:(lia)) as Hr.
  set (q := n / Zpos d) in *. set (r := n mod Zpos d) in *.
  assert (forall z : Z, - Zpos d <= 2 * (z * Zpos d - n) <= Zpos d ->
            (- (1 # 2) <= inject_Z z - (n # d))%Q /\ (inject_Z z - (n # d) <= 1 # 2)%Q) as Hz.
  { intros z Hz. unfold Qle, Qminus, Qplus, Qopp, inject_Z. cbn [Qnum Qden].
    split; lia. }
  apply Hz.
  destruct (Z.ltb_spec (2 * r) (Zpos d)); [lia|].
  destruct (Z.ltb_spec (Zpos d) (2 * r)); [lia|].
  destruct (Z.even q); lia.
Qed.

Lemma pow2_mono_lt (a b : Z) : 0 <= b -> (PyNum.pow2 a <= inject_Z (2 ^ b))%Q -> a <= b.
Proof.
  intros Hb H. destruct (Z.le_gt_cases a b) as [Hl|Hl]; [exact Hl|]. exfalso.
  rewrite pow2_nonneg in H by lia. rewrite <- Zle_Qle in H.
  assert (2 ^ b < 2 ^ a) by (apply Z.pow_lt_mono_r; lia). lia.
Qed.

(** The error of rounding a value of [0, 2 ** m] to the nearest double is at
    most 2 ** (m - 53). *)
Lemma nearest_double_error (x : Q) (m : Z) :
  0 <= m <= 52 -> (0 <= x)%Q -> (x <= inject_Z (2 ^ m))%Q ->
  (Qabs (PyNum.nearest_double x - x) <= 2 ^ m # 2 ^ 53)%Q.
Proof.
  intros Hm H0 Hx. unfold PyNum.nearest_double.
  pose proof (Qred_correct x) as Hred.
  destruct (Qred x) as [n d] eqn:E. cbn [Qnum].
  rewrite <- Hred in Hx, H0 |- *. clear Hred E.
  assert (0 < 2 ^ m) as Hpm by (apply Z.pow_pos_nonneg; lia).
  destruct n as [|n|n].
  - apply Qabs_Qle_condition. unfold Qle, Qminus, Qplus, Qopp. cbn [Qnum Qden]. lia.
  - unfold PyNum.nearest_double_pos. cbn [Qnum Qden Z.to_pos].
    pose proof (floor_log2_le n d) as HL.
    set (L := PyNum.floor_log2 n d) in *.
    assert (L <= m) as HLm.
    { apply pow2_mono_lt; [lia|]. eapply Qle_trans; eassumption. }
    set (e := Z.max (L - 52) (-1074)).
    assert (e <= m - 52) as He by lia. clearbody e.
    remember (- e) as k eqn:Ek. assert (52 - m <= k) as Hk by lia.
    assert (e = - k) as -> by lia. clear Ek He.
    rewrite (pow2_nonneg k) by lia.
    assert (0 < 2 ^ k) as Hpos by (apply Z.pow_pos_nonneg; lia).
    pose proof (round_half_even_error ((Zpos n # d) * inject_Z (2 ^ k))) as Herr.
    set (r := PyNum.round_half_even _) in *.
    apply Qabs_Qle_condition in Herr. apply Qabs_Qle_condition.
    rewrite !Qred_correct, !pow2_scale_back by lia.
    assert (2 ^ 52 <= 2 ^ m * 2 ^ k) as Hmk.
    { rewrite <- Z.pow_add_r by lia. apply Z.pow_le_mono_r; lia. }
    revert Herr. unfold Qle, Qminus, Qplus, Qopp, Qmult, inject_Z. cbn [Qnum Qden].
    rewrite !Pos.mul_1_r, !Pos.mul_1_l, !Z.mul_1_r, Pos2Z.inj_mul.
    rewrite Z2Pos.id by exact Hpos.
    change (Zpos (2 ^ 53)) with (2 * 2 ^ 52).
    intros [H1 H2]. clearbody r.
    set (P := 2 ^ 52) in *. assert (0 < P) as HP by reflexivity. clearbody P.
    set (K := 2 ^ k) in *. clearbody K. set (M := 2 ^ m) in *. clearbody M.
    set (A := r * Zpos d + - (Zpos n * K)) in *.
    replace (r * Zpos d + - Zpos n * K) with A by (unfold A; lia). clearbody A.
    assert (Zpos d * P <= Zpos d * (M * K)) by (apply Z.mul_le_mono_nonneg_l; lia).
    split; nia.
  - exfalso. unfold Qle in H0. cbn in H0. lia.
Qed.

(** The rounded percentage is a number of hundredths, read back as a float,
    within half a hundredth (and the rounding of two float operations) of
    the exact percentage. *)
Lemma percent_score_close (c t : Z) :
  0 <= c <= t -> 0 < t ->
  exists k : Z,
    0 <= k <= 10000
    /\ percent_score c t = PyNum.nearest_double (k # 100)
    /\ (Qabs ((k # 100) - (100 * c # Z.to_pos t)) <= (1 # 200) + (1 # 2 ^ 45))%Q.
Proof.
  intros Hc Ht.
  assert ((0 <= inject_Z c / inject_Z t)%Q /\ (inject_Z c / inject_Z t <= inject_Z (2 ^ 0))%Q)
    as [Hx0 Hx1].
  { destruct t as [|p|p]; try lia.
    unfold Qle, Qdiv, Qmult, Qinv, inject_Z; cbn; split; nia. }
  pose proof (nearest_double_error _ 0 ltac:(lia) Hx0 Hx1) as Eq.
  destruct (nearest_double_bounds _ 1 ltac:(lia) Hx0 Hx1) as [Hq0 Hq1].
  fold (PyNum.truediv c t) in Eq, Hq0, Hq1. set (q := PyNum.truediv c t) in *.
  assert ((0 <= q * 100)%Q /\ (q * 100 <= inject_Z (2 ^ 7))%Q) as [Hy0 Hy1].
  { change (inject_Z 1) with 1%Q in Hq1. change (inject_Z (2 ^ 7)) with 128%Q.
    split; lra. }
  pose proof (nearest_double_error _ 7 ltac:(lia) Hy0 Hy1) as Ey.
  assert ((0 <= PyNum.mul q 100)%Q /\ (PyNum.mul q 100 <= inject_Z 100)%Q) as [Hm0 Hm1].
  { apply (nearest_double_bounds _ 100); [lia | exact Hy0 |].
    change (inject_Z 1) with 1%Q in Hq1. change (inject_Z 100) with 100%Q. lra. }
  fold (PyNum.mul q 100) in Ey. set (y := PyNum.mul q 100) in *.
  pose proof (round_half_even_error (y * inject_Z (10 ^ Z.of_nat 2))) as Ek.
  set (k := PyNum.round_half_even (y * inject_Z (10 ^ Z.of_nat 2))) in *.
  exists k. split; [|split].
  - apply (round_half_even_bounds _ 0 10000).
    + change (inject_Z 0) with 0%Q. change (inject_Z (10 ^ Z.of_nat 2)) with 100%Q. lra.
    + change (inject_Z 100) with 100%Q in Hm1.
      change (inject_Z 10000) with 10000%Q.
      change (inject_Z (10 ^ Z.of_nat 2)) with 100%Q. lra.
  - reflexivity.
  - assert (inject_Z c / inject_Z t == c # Z.to_pos t)%Q as Hdiv.
    { destruct t as [|p|p]; try lia.
      unfold Qeq, Qdiv, Qmult, Qinv, inject_Z. cbn. lia. }
    assert ((100 * c # Z.to_pos t) == 100 * (c # Z.to_pos t))%Q as H100.
    { unfold Qeq, Qmult. cbn [Qnum Qden]. lia. }
    assert ((k # 100) == inject_Z k * (1 # 100))%Q as Hk.
    { unfold Qeq, Qmult, inject_Z. cbn. lia. }
    rewrite H100, Hk, <- Hdiv.
    change (inject_Z (10 ^ Z.of_nat 2)) with 100%Q in Ek.
    change (2 ^ 0 # 2 ^ 53)%Q with (1 # 2 ^ 53)%Q in Eq.
    change (2 ^ 7 # 2 ^ 53)%Q with (128 # 2 ^ 53)%Q in Ey.
    apply Qabs_Qle_condition in Eq, Ey, Ek. apply Qabs_Qle_condition.
    set (x := (inject_Z c / inject_Z t)%Q) in *. clearbody x.
    clearbody k y q. clear -Eq Ey Ek.
    destruct Eq as [Eq1 Eq2], Ey as [Ey1 Ey2], Ek as [Ek1 Ek2].
    change (2 ^ 53)%positive with 9007199254740992%positive in *.
    change (2 ^ 45)%positive with 35184372088832%positive.
    set (z := inject_Z k) in *. clearbody z.
    split; lra.
Qed.

Lemma sum_earned_bounds (answers : gmap string string) (qs : list Question) :
  Forall (fun q => 0 <= q_points q) qs ->
  0 <= sum_earned answers qs <= sum_points qs.
Proof.
  induction 1 as [|q qs Hq _ IH]; [cbn; lia|].
  change (sum_points (q :: qs)) with (q_points q + sum_points qs).
  change (sum_earned answers (q :: qs))
    with ((if graded_correct answers q then q_points q else 0) + sum_earned answers qs).
  destruct (graded_correct answers q); lia.
Qed.

Lemma sum_earned_all (answers : gmap string string) (qs : list Question) :
  Forall (fun q => graded_correct answers q = true) qs ->
  sum_earned answers qs = sum_points qs.
Proof.
  induction 1 as [|q qs Hq _ IH]; [reflexivity|].
  change (sum_points (q :: qs)) with (q_points q + sum_points qs).
  change (sum_earned answers (q :: qs))
    with ((if graded_correct answers q then q_points q else 0) + sum_earned answers qs).
  rewrite Hq, IH. reflexivity.
Qed.

Lemma sum_earned_none (answers : gmap string string) (qs : list Question) :
  Forall (fun q => graded_correct answers q = false) qs ->
  sum_earned answers qs = 0.
Proof.
  induction 1 as [|q qs Hq _ IH]; [reflexivity|].
  change (sum_earned answers (q :: qs))
    with ((if graded_correct answers q then q_points q else 0) + sum_earned answers qs).
  rewrite Hq, IH. reflexivity.
Qed.

Lemma try_grade_questions_unfold (qs : list Question) (answers : gmap string string) :
  try_grade_questions qs answers
  = match score_of (sum_earned answers qs) (sum_points qs) with
    | Ok _ => Ok (grade_questions qs answers)
    | Err e => Err e
    | IntegrityError => IntegrityError
    | OverflowError => OverflowError
    | ZeroDivisionError => ZeroDivisionError
    end.
Proof. unfold try_grade_questions. rewrite grade_loop. reflexivity. Qed.

(** Between 0 and the total, the quotient raises nothing. *)
Lemma score_of_in_range (earned total : Z) :
  0 <= earned <= total ->
  score_of earned total
  = Ok (if 0 <? total then percent_score earned total else 0%Q).
Proof.
  intros Hb. unfold score_of, int_truediv.
  destruct (Z.ltb_spec 0 total) as [Ht|_]; [|reflexivity].
  destruct (Z.eqb_spec total 0) as [|_]; [lia|].
  assert (1 < PyNum.overflow_threshold) as Hthr by (vm_compute; reflexivity).
  destruct (Z.leb_spec (Z.abs total * PyNum.overflow_threshold) (Z.abs earned))
    as [Hover|_]; [|reflexivity].
  exfalso. revert Hthr Hover. generalize PyNum.overflow_threshold. intros thr.
  nia.
Qed.

Lemma grade_score_nonneg (qs : list Question) (answers : gmap string string) :
  Forall (fun q => 0 <= q_points q) qs ->
  g_score (grade_questions qs answers)
  = if 0 <? sum_points qs
    then percent_score (sum_earned answers qs) (sum_points qs) else 0%Q.
Proof.
  intros Hpos. rewrite grade_questions_unfold. cbn [g_score].
  rewrite (score_of_in_range _ _ (sum_earned_bounds answers qs Hpos)).
  reflexivity.
Qed.

(** With no negative points the score is the specified one. *)
Lemma score_as_specified_nonneg (qs : list Question) (answers : gmap string string) :
  Forall (fun q => 0 <= q_points q) qs ->
  g_score (grade_questions qs answers) = specified_score answers qs.
Proof.
  intros Hpos. rewrite (grade_score_nonneg qs answers Hpos).
  unfold specified_score.
  assert (0 <= sum_points qs) as Hsum.
  { induction Hpos as [|q qs Hq _ IH]; [reflexivity|].
    change (sum_points (q :: qs)) with (q_points q + sum_points qs). lia. }
  destruct (Z.ltb_spec 0 (sum_points qs)), (Z.eqb_spec (sum_points qs) 0);
    try reflexivity; lia.
Qed.

(** Outside the data model: a correctly answered question worth -1 point makes
    the points sum to -1, and the guard [total_points > 0] then gives 0.0
    where round(-1 / -1 * 100, 2) is 100.0. *)
Lemma score_negative_total_is_zero :
  sum_points [q_negative] = -1 /\
  g_score (grade_questions [q_negative] {[ "n0" := "b" ]}) = 0%Q /\
  specified_score {[ "n0" := "b" ]} [q_negative] = 100%Q.
Proof. split; [reflexivity|]. split; vm_compute; reflexivity. Qed.

Lemma sum_points_zero_iff (qs : list Question) :
  Forall (fun q => 0 <= q_points q) qs ->
  (sum_points qs = 0 <-> Forall (fun q => q_points q = 0) qs).
Proof.
  induction 1 as [|q qs Hq Hqs IH]; [split; [constructor | reflexivity]|].
  change (sum_points (q :: qs)) with (q_points q + sum_points qs).
  assert (0 <= sum_points qs) as Hsum.
  { clear IH. induction Hqs as [|q' qs' Hq' _ IH']; [reflexivity|].
    change (sum_points (q' :: qs')) with (q_points q' + sum_points qs'). lia. }
  rewrite Forall_cons_iff, <- IH. lia.
Qed.

(** C5: with no negative points the call returns, raising nothing.
    [total_points] and [earned_points] are the sums of points over the graded
    questions and over the correctly answered ones.  The total is 0 exactly
    when there is no question or every question has 0 points, and the score
    is then exactly 0.0, the quotient, which would raise
    [ZeroDivisionError], not being computed.  Otherwise the quotient
    [earned_points / total_points] is defined and the score is
    [round(earned_points / total_points * 100, 2)] in float arithmetic: a
    number of hundredths from 0.00 to 100.00, read back as a float, that lies
    within half a hundredth of the exact percentage, up to the rounding of
    the two float operations (less than 2 ** -45). *)
Theorem score_is_rounded_percentage :
  forall (qs : list Question) (answers : gmap string string),
    Forall (fun q => 0 <= q_points q) qs ->
    let earned := sum_earned answers qs in
    let total := sum_points qs in
    exists r : GradeResult,
      try_grade_questions qs answers = Ok r
      /\ grade_questions qs answers = r
      /\ g_total_points r = total
      /\ g_earned_points r = earned
      /\ (total = 0 <-> Forall (fun q => q_points q = 0) qs)
      /\ (total = 0 ->
          g_score r = 0%Q /\ int_truediv earned total = ZeroDivisionError)
      /\ (total <> 0 ->
          exists (quotient : Q) (k : Z),
            int_truediv earned total = Ok quotient
            /\ g_score r = PyNum.round (PyNum.mul quotient 100) 2
            /\ g_score r = PyNum.nearest_double (k # 100)
            /\ 0 <= k <= 10000
            /\ (Qabs ((k # 100) - exact_percentage earned total)
                <= (1 # 200) + (1 # 2 ^ 45))%Q).
Proof.
  intros qs answers Hpos earned total.
  pose proof (sum_earned_bounds answers qs Hpos) as Hb.
  pose proof (score_of_in_range _ _ Hb) as Hscore.
  fold earned total in Hb, Hscore.
  exists (grade_questions qs answers). split.
  { rewrite try_grade_questions_unfold. fold earned total. rewrite Hscore.
    reflexivity. }
  split; [reflexivity|].
  rewrite grade_questions_unfold.
  cbn [g_total_points g_earned_points g_score]. fold earned total.
  rewrite Hscore. cbn [returned].
  split; [reflexivity|]. split; [reflexivity|].
  split; [exact (sum_points_zero_iff qs Hpos)|]. split.
  - intros H0. rewrite H0. split; reflexivity.
  - intros Hne. assert (0 < total) as Ht by lia.
    destruct (percent_score_close earned total Hb Ht) as (k & Hk & Hs & Hclose).
    exists (PyNum.truediv earned total), k.
    destruct (Z.ltb_spec 0 total) as [_|]; [|lia].
    split; [|split; [reflexivity|split; [exact Hs|split; [exact Hk | exact Hclose]]]].
    revert Hscore. unfold score_of.
    destruct (Z.ltb_spec 0 total) as [_|]; [|lia].
    destruct (int_truediv earned total) as [quotient| | | |] eqn:Eq;
      try discriminate.
    intros _. f_equal. revert Eq. unfold int_truediv.
    destruct (total =? 0); [discriminate|].
    destruct (_ <=? _); [discriminate|]. intros H. injection H as <-. reflexivity.
Qed.

(** 23 of 160 points: the exact percentage is 14.375, the float product
    [23 / 160 * 100] lies just below it, and the score is 14.37; an empty
    question list is graded 0.0. *)
Lemma score_is_rounded_percentage_witness :
  sum_earned {[ "s0" := " B" ]} [q_small; q_large] = 23
  /\ sum_points [q_small; q_large] = 160
  /\ (exact_percentage 23 160 == 14375 # 1000)%Q
  /\ (PyNum.mul (PyNum.truediv 23 160) 100 < 14375 # 1000)%Q
  /\ (exists r, try_grade_questions [q_small; q_large] {[ "s0" := " B" ]} = Ok r
                /\ g_score r = PyNum.nearest_double (1437 # 100))
  /\ (exists r, try_grade_questions [] ∅ = Ok r /\ g_score r = 0%Q).
Proof.
  split; [vm_compute; reflexivity|]. split; [vm_compute; reflexivity|].
  split; [vm_compute; reflexivity|]. split; [vm_compute; reflexivity|]. split.
  - destruct (score_is_rounded_percentage [q_small; q_large] {[ "s0" := " B" ]})
      as (r & Hr & _ & _ & _ & _ & _ & Hscore).
    + repeat constructor; discriminate.
    + exists r. split; [exact Hr|].
      destruct (Hscore ltac:(vm_compute; discriminate))
        as (quotient & k & Hq & Hs & _).
      rewrite Hs. vm_compute in Hq. injection Hq as <-. vm_compute. reflexivity.
  - destruct (score_is_rounded_percentage [] ∅) as (r & Hr & _ & _ & _ & _ & H0 & _).
    + constructor.
    + exists r. split; [exact Hr | exact (proj1 (H0 eq_refl))].
Defined.

(** When no question carries negative points, the points earned lie between
    0 and the total, the score lies between 0.0 and 100.0, it is exactly
    100.0 when some points are at stake and every question is answered
    correctly, and exactly 0.0 when none is. *)
Theorem score_is_a_percentage :
  forall (qs : list Question) (answers : gmap string string),
    Forall (fun q => 0 <= q_points q) qs ->
    0 <= g_earned_points (grade_questions qs answers)
      <= g_total_points (grade_questions qs answers)
    /\ Qbetween 0 100 (g_score (grade_questions qs answers))
    /\ (0 < sum_points qs ->
        Forall (fun q => graded_correct answers q = true) qs ->
        g_score (grade_questions qs answers) = 100%Q)
    /\ (Forall (fun q => graded_correct answers q = false) qs ->
        g_score (grade_questions qs answers) = 0%Q).
Proof.
  intros qs answers Hpts. rewrite grade_questions_unfold.
  cbn [g_earned_points g_total_points g_score].
  pose proof (sum_earned_bounds answers qs Hpts) as Hb.
  rewrite (score_of_in_range _ _ Hb). cbn [returned].
  split; [exact Hb|]. split; [|split].
  - destruct (Z.ltb_spec 0 (sum_points qs)) as [Hpos|_].
    + apply percent_value_bounds; assumption.
    + split; discriminate.
  - intros Hpos Hall. destruct (Z.ltb_spec 0 (sum_points qs)); [|lia].
    rewrite (sum_earned_all answers qs Hall). unfold percent_score.
    rewrite truediv_self by exact Hpos. vm_compute. reflexivity.
  - intros Hnone. destruct (Z.ltb_spec 0 (sum_points qs)) as [Hpos|_]; [|reflexivity].
    rewrite (sum_earned_none answers qs Hnone). unfold percent_score.
    rewrite truediv_zero by exact Hpos. vm_compute. reflexivity.
Qed.

Lemma score_is_a_percentage_witness :
  Qbetween 0 100 (g_score (grade_questions [q_multi; q_short; q_blank]
                                            {[ "m0" := "a" ]}))
  /\ g_score (grade_questions [q_multi; q_short; q_blank] {[ "m0" := "a" ]}) = 50%Q.
Proof.
  split; [|vm_compute; reflexivity].
  apply (score_is_a_percentage [q_multi; q_short; q_blank] {[ "m0" := "a" ]}).
  repeat constructor; discriminate.
Defined.

Lemma result_of_ext (answers1 answers2 : gmap string string) (q : Question) :
  answers1 !! q_id q = answers2 !! q_id q ->
  result_of answers1 q = result_of answers2 q.
Proof.
  intros H. unfold result_of, graded_correct, normalized_answer. rewrite H. reflexivity.
Qed.

(** Grading reads the answers under the ids of the graded questions and
    nothing else: two answers mappings that agree on those ids are graded
    alike, so answers stored under ids that are not in the quiz change
    nothing. *)
Theorem grading_ignores_other_answers :
  forall (qs : list Question) (answers1 answers2 : gmap string string),
    (forall q, q ∈ qs -> answers1 !! q_id q = answers2 !! q_id q) ->
    grade_questions qs answers1 = grade_questions qs answers2.
Proof.
  intros qs answers1 answers2 Hsame. rewrite !grade_questions_unfold.
  assert (sum_earned answers1 qs = sum_earned answers2 qs
          /\ count_correct answers1 qs = count_correct answers2 qs
          /\ map (result_of answers1) qs = map (result_of answers2) qs) as (-> & -> & ->);
    [|reflexivity].
  induction qs as [|q qs IH]; [repeat split|].
  destruct IH as (IH1 & IH2 & IH3); [intros q' Hq'; apply Hsame; right; exact Hq'|].
  assert (graded_correct answers1 q = graded_correct answers2 q) as Hq.
  { unfold graded_correct, normalized_answer. rewrite (Hsame q); [reflexivity | left]. }
  rewrite !count_correct_cons. cbn [map].
  change (sum_earned answers1 (q :: qs))
    with ((if graded_correct answers1 q then q_points q else 0) + sum_earned answers1 qs).
  change (sum_earned answers2 (q :: qs))
    with ((if graded_correct answers2 q then q_points q else 0) + sum_earned answers2 qs).
  rewrite Hq, IH1, IH2, IH3, (result_of_ext answers1 answers2 q); [auto|].
  apply Hsame. left.
Qed.

Lemma grading_ignores_other_answers_witness :
  grade_questions [q_multi; q_short] {[ "m0" := "a,c" ]}
  = grade_questions [q_multi; q_short]
                    (<[ "not-a-question" := "paris" ]> {[ "m0" := "a,c" ]}).
Proof.
  apply (grading_ignores_other_answers [q_multi; q_short]).
  intros q Hq. symmetry. apply lookup_insert_ne.
  apply list_elem_of_In in Hq. destruct Hq as [<- | [<- | []]]; discriminate.
Defined.

(** The grader returns one result per graded question, in the order of the
    questions; [total] is their number, [correct] the number of results
    flagged correct, between 0 and [total]; a result earns its full
    [points_possible] when flagged correct and 0 otherwise, and
    [earned_points] is the sum of what the results earn. *)
Theorem grade_results_follow_questions :
  forall (qs : list Question) (answers : gmap string string),
    let g := grade_questions qs answers in
    map r_question_id (g_results g) = map q_id qs
    /\ map r_points_possible (g_results g) = map q_points qs
    /\ g_total g = Z.of_nat (length qs)
    /\ g_correct g
       = Z.of_nat (length (filter (fun r => r_is_correct r = true) (g_results g)))
    /\ 0 <= g_correct g <= g_total g
    /\ Forall (fun r => r_points_earned r
                        = if r_is_correct r then r_points_possible r else 0)
              (g_results g)
    /\ g_earned_points g = foldr (fun r s => r_points_earned r + s) 0 (g_results g).
Proof.
  intros qs answers g. unfold g. rewrite grade_questions_unfold.
  cbn [g_results g_total g_correct g_earned_points].
  split; [|split; [|split; [|split; [|split; [|split]]]]].
  - rewrite map_map. reflexivity.
  - rewrite map_map. reflexivity.
  - reflexivity.
  - unfold count_correct. f_equal.
    induction qs as [|q qs IH]; [reflexivity|].
    cbn [map]. rewrite !filter_cons. cbn [r_is_correct result_of].
    destruct (decide (graded_correct answers q = true)); cbn [length]; rewrite IH;
      reflexivity.
  - unfold count_correct. pose proof (length_filter
      (fun q => graded_correct answers q = true) qs). lia.
  - apply Forall_forall. intros r Hr. apply list_elem_of_In, in_map_iff in Hr.
    destruct Hr as [q [<- _]]. reflexivity.
  - induction qs as [|q qs IH]; [reflexivity|].
    change (sum_earned answers (q :: qs))
      with ((if graded_correct answers q then q_points q else 0) + sum_earned answers qs).
    cbn [map foldr r_points_earned result_of]. rewrite IH. reflexivity.
Qed.

(** ** Listing questions *)

Lemma resolve_questions_ids (st : Store) (qids : list string) :
  map q_id (resolve_questions st qids)
  = filter (fun qid => get_question st qid <> None) qids.
Proof.
  induction qids as [|qid rest IH]; [reflexivity|].
  cbn [resolve_questions]. rewrite filter_cons.
  destruct (get_question st qid) as [q|] eqn:E.
  - rewrite decide_True by discriminate. cbn [map].
    rewrite (get_question_id st qid q E), IH. reflexivity.
  - rewrite decide_False by congruence. exact IH.
Qed.

Lemma resolve_questions_get (st : Store) (qids : list string) (q : Question) :
  q ∈ resolve_questions st qids -> get_question st (q_id q) = Some q.
Proof.
  induction qids as [|qid rest IH]; [intros H; inversion H|].
  cbn [resolve_questions]. destruct (get_question st qid) as [q'|] eqn:E; [|exact IH].
  intros H. apply elem_of_cons in H. destruct H as [-> | H]; [|auto].
  rewrite (get_question_id st qid q' E). exact E.
Qed.

(** [get_quiz_questions] returns the questions of the quiz's id list that
    resolve, in the order of that list and as often as an id is repeated; an
    id that does not resolve is dropped without an error, and so is the whole
    list when the quiz itself does not resolve. *)
Theorem get_quiz_questions_in_order :
  forall (st : Store) (quiz_id : string),
    map q_id (get_quiz_questions st quiz_id)
    = match get_quiz st quiz_id with
      | None => []
      | Some quiz => filter (fun qid => get_question st qid <> None)
                            (qz_question_ids quiz)
      end
    /\ Forall (fun q => get_question st (q_id q) = Some q)
              (get_quiz_questions st quiz_id).
Proof.
  intros st quiz_id. unfold get_quiz_questions.
  destruct (get_quiz st quiz_id) as [quiz|]; [|split; [reflexivity | constructor]].
  split; [apply resolve_questions_ids|].
  apply Forall_forall. intros q Hq. eapply resolve_questions_get. exact Hq.
Qed.

Lemma any_tag_iff (tags qtags : list string) :
  any_tag tags qtags = true <-> exists t, t ∈ tags /\ t ∈ qtags.
Proof.
  unfold any_tag. rewrite existsb_exists. split.
  - intros [t [Ht Hex]]. apply existsb_exists in Hex. destruct Hex as [u [Hu E]].
    apply String.eqb_eq in E. subst u. exists t.
    split; apply list_elem_of_In; assumption.
  - intros [t [Ht Hq]]. exists t. split; [apply list_elem_of_In; exact Ht|].
    apply existsb_exists. exists t. split; [apply list_elem_of_In; exact Hq|].
    apply String.eqb_refl.
Qed.

Lemma list_questions_spec :
  forall (st : Store) (tags : option (list string)) (difficulty : option string),
    list_questions st tags difficulty `sublist_of` questions st
    /\ forall q, q ∈ list_questions st tags difficulty <->
         q ∈ questions st
         /\ match difficulty with
            | None => True
            | Some d => d = "" \/ q_difficulty q = d
            end
         /\ match tags with
            | None | Some [] => True
            | Some ts => exists t, t ∈ ts /\ t ∈ q_tags q
            end.
Proof.
  intros st tags difficulty. unfold list_questions.
  set (rows := match difficulty with
               | Some d => if PyStr.truthy d then filter _ (questions st) else questions st
               | None => questions st
               end).
  assert (rows `sublist_of` questions st
          /\ forall q, q ∈ rows <->
               q ∈ questions st
               /\ match difficulty with
                  | None => True
                  | Some d => d = "" \/ q_difficulty q = d
                  end) as [Hsub Hrows].
  { unfold rows. destruct difficulty as [d|]; [|split; [reflexivity | tauto]].
    destruct d as [|c d]; cbn [PyStr.truthy]; [split; [reflexivity | tauto]|].
    split; [apply sublist_filter|]. intros q. rewrite list_elem_of_filter, String.eqb_eq.
    split; [intros [? ?]; auto|]. intros [? [? | ?]]; [discriminate | auto]. }
  destruct tags as [[|t ts]|].
  - split; [exact Hsub|]. intros q. rewrite Hrows. tauto.
  - split; [etransitivity; [apply sublist_filter | exact Hsub]|].
    intros q. rewrite list_elem_of_filter, any_tag_iff, Hrows. tauto.
  - split; [exact Hsub|]. intros q. rewrite Hrows. tauto.
Qed.

(** [list_questions] returns, in table order, exactly the questions that have
    the requested difficulty and share a tag with the requested ones; a
    missing or empty difficulty, and a missing or empty tag list, switch the
    respective filter off. *)
Theorem list_questions_selects :
  forall (st : Store) (tags : option (list string)) (difficulty : option string),
    list_questions st tags difficulty `sublist_of` questions st
    /\ forall q, q ∈ list_questions st tags difficulty <->
         q ∈ questions st
         /\ match difficulty with
            | None => True
            | Some d => d = "" \/ q_difficulty q = d
            end
         /\ match tags with
            | None | Some [] => True
            | Some ts => exists t, t ∈ ts /\ t ∈ q_tags q
            end.
Proof. exact list_questions_spec. Qed.

(** ** Analytics *)

Lemma size_list_to_set_le (l : list string) :
  (size (list_to_set l : gset string) <= length l)%nat.
Proof.
  induction l as [|x l IH]; [rewrite list_to_set_nil, size_empty; lia|].
  rewrite list_to_set_cons, size_union_alt, size_singleton. cbn [length].
  assert (list_to_set l ∖ {[x]} ⊆ (list_to_set l : gset string)) as Hsub
    by apply subseteq_difference_l, reflexivity.
  apply subseteq_size in Hsub. lia.
Qed.

Lemma size_list_to_set_pos (x : string) (l : list string) :
  (1 <= size (list_to_set (x :: l) : gset string))%nat.
Proof.
  rewrite <- (size_singleton (C := gset string) x).
  apply subseteq_size. rewrite list_to_set_cons. set_solver.
Qed.

Lemma percent_consistent (c t : Z) (nd : nat) :
  0 <= c <= t -> rate_consistent (percent c t nd) t.
Proof.
  intros Hc. unfold percent, rate_consistent.
  destruct (Z.ltb_spec 0 t) as [Ht|Ht]; [|lia].
  split; [exact Ht | apply percent_value_bounds; assumption].
Qed.

(** [get_analytics] reports an unknown quiz as an error and a quiz without a
    completed attempt by the short result; otherwise [total_attempts] is the
    number of completed attempts of the quiz (attempts in progress are not
    counted), [unique_students] lies between 1 and that number, and
    [pass_rate] between 0.0 and 100.0. *)
Theorem get_analytics_counts_completed :
  forall (st : Store) (quiz_id : string),
    let done := filter (fun a => a_quiz_id a = quiz_id /\ a_completed_at a <> None)
                       (attempts st) in
    (get_quiz st quiz_id = None -> get_analytics st quiz_id = Err (QuizNotFound quiz_id))
    /\ (forall quiz, get_quiz st quiz_id = Some quiz ->
          (done = [] ->
           get_analytics st quiz_id = Ok (NoCompletedAttempts quiz_id (qz_title quiz)))
          /\ (done <> [] ->
              exists stats,
                get_analytics st quiz_id = Ok (Completed stats)
                /\ an_total_attempts stats = Z.of_nat (length done)
                /\ 1 <= an_unique_students stats <= an_total_attempts stats
                /\ Qbetween 0 100 (an_pass_rate stats)
                /\ an_passing_score stats = qz_passing_score quiz)).
Proof.
  intros st quiz_id done. unfold get_analytics. split.
  - intros ->. reflexivity.
  - intros quiz ->. fold done. split.
    + intros ->. reflexivity.
    + intros Hne. destruct done as [|a rows] eqn:E; [congruence|].
      eexists. split; [reflexivity|].
      cbn [an_total_attempts an_unique_students an_pass_rate an_passing_score].
      split; [reflexivity|]. split; [|split; [|reflexivity]].
      * pose proof (size_list_to_set_le (map a_student_id (a :: rows))) as Hle.
        pose proof (size_list_to_set_pos (a_student_id a) (map a_student_id rows)) as Hpos.
        rewrite length_map in Hle. cbn [map] in *. lia.
      * apply percent_value_bounds; [|cbn [length]; lia].
        pose proof (length_filter (fun a => a_passed a = Some true) (a :: rows)). lia.
Qed.

Lemma question_stats_of_ids (st : Store) (quiz_id : string) (qids : list string) :
  map qs_question_id (question_stats_of st quiz_id qids)
  = filter (fun qid => get_question st qid <> None) qids.
Proof.
  induction qids as [|qid rest IH]; [reflexivity|].
  cbn [question_stats_of]. rewrite filter_cons.
  destruct (get_question st qid) as [q|].
  - rewrite decide_True by discriminate. cbn [map qs_question_id]. rewrite IH.
    reflexivity.
  - rewrite decide_False by congruence. exact IH.
Qed.

Lemma question_stats_of_rates (st : Store) (quiz_id : string) (qids : list string) :
  Forall (fun x => rate_consistent (qs_correct_rate x) (qs_total_answers x))
         (question_stats_of st quiz_id qids).
Proof.
  induction qids as [|qid rest IH]; [constructor|].
  cbn [question_stats_of]. destruct (get_question st qid) as [q|]; [|exact IH].
  constructor; [|exact IH]. cbn [qs_correct_rate qs_total_answers].
  apply percent_consistent.
  pose proof (length_filter (fun r => qr_is_correct r = true)
                (results_for st quiz_id qid)). lia.
Qed.

(** The ranking of the full analytics result: [question_stats] holds one
    entry per question id of the quiz that resolves, sorted by the key in
    non-decreasing order; each entry has a null rate exactly when it has no
    answers and a rate between 0.0 and 100.0 otherwise; [hardest_questions]
    and [easiest_questions] each hold min(3, n) of the n entries, and with at
    most three entries both hold all of them, one the reverse of the other. *)
Theorem analytics_ranking_lists :
  forall (st : Store) (quiz_id : string) (stats : QuizStats),
    get_analytics st quiz_id = Ok (Completed stats) ->
    exists quiz,
      get_quiz st quiz_id = Some quiz
      /\ Permutation (map qs_question_id (question_stats stats))
                     (filter (fun qid => get_question st qid <> None)
                             (qz_question_ids quiz))
      /\ ascending (map sort_key (question_stats stats)) = true
      /\ Forall (fun x => rate_consistent (qs_correct_rate x) (qs_total_answers x))
                (question_stats stats)
      /\ length (hardest_questions stats)
         = Nat.min 3 (length (question_stats stats))
      /\ length (easiest_questions stats)
         = Nat.min 3 (length (question_stats stats))
      /\ ((length (question_stats stats) <= 3)%nat ->
          hardest_questions stats = question_stats stats
          /\ easiest_questions stats = rev (hardest_questions stats)).
Proof.
  intros st quiz_id stats H. apply get_analytics_ranking in H.
  destruct H as (quiz & Hquiz & Hstats & Hhard & Heasy).
  exists quiz. split; [exact Hquiz|].
  rewrite Hhard, Heasy. unfold last_n.
  split; [|split; [|split; [|split; [|split]]]].
  - rewrite Hstats, <- (question_stats_of_ids st quiz_id).
    apply Permutation_map, sort_by_perm.
  - rewrite Hstats. apply sort_by_ascending.
  - rewrite Hstats. eapply Permutation_Forall;
      [symmetry; apply sort_by_perm | apply question_stats_of_rates].
  - apply length_take.
  - rewrite length_rev, length_skipn. lia.
  - intros Hn. rewrite take_ge by exact Hn.
    replace (length (question_stats stats) - 3)%nat with 0%nat by lia.
    split; reflexivity.
Qed.

Lemma analytics_ranking_lists_witness :
  exists stats quiz,
    get_analytics st_two_completed "z0" = Ok (Completed stats)
    /\ get_quiz st_two_completed "z0" = Some quiz
    /\ easiest_questions stats = rev (hardest_questions stats).
Proof.
  destruct (get_analytics st_two_completed "z0") as [[|stats]| | | |] eqn:E;
    try (vm_compute in E; discriminate).
  destruct (analytics_ranking_lists st_two_completed "z0" stats E)
    as (quiz & Hquiz & _ & _ & _ & _ & _ & Hsmall).
  exists stats, quiz. split; [reflexivity|]. split; [exact Hquiz|].
  apply Hsmall.
  assert (Ok (Completed stats) = get_analytics st_two_completed "z0") as E'
    by (symmetry; exact E).
  vm_compute in E'. injection E' as ->. vm_compute. lia.
Defined.

Lemma count_result_ok (c : Counters) (r : bool * string) :
  counters_ok c -> counters_ok (count_result c r).
Proof.
  unfold counters_ok, count_result. destruct r as [b d]. cbn [fst snd].
  intros H. destruct (String.eqb d "easy"); [|destruct (String.eqb d "medium");
    [|destruct (String.eqb d "hard")]];
    cbn [easy_correct easy_total intermediate_correct intermediate_total
         hard_correct hard_total]; destruct b; cbn [int_of_bool]; lia.
Qed.

Lemma count_attempts_ok (st : Store) (rows : list Attempt) (c : Counters) :
  counters_ok c -> counters_ok (fold_left (count_attempt st) rows c).
Proof.
  revert c. induction rows as [|a rows IH]; intros c Hc; [exact Hc|].
  cbn [fold_left]. apply IH. unfold count_attempt.
  generalize (joined_results st (a_id a)). intros l. revert c Hc.
  induction l as [|r l IHl]; intros c Hc; [exact Hc|].
  cbn [fold_left]. apply IHl, count_result_ok. exact Hc.
Qed.

(** [get_student_analytics] returns the short result exactly when the student
    has no completed attempt (attempts in progress do not count); otherwise
    [total_attempts] is the number of completed attempts, [unique_quizzes]
    lies between 1 and that number, [pass_rate] between 0.0 and 100.0, and
    each difficulty bucket has a null rate exactly when its total is 0 and a
    rate between 0.0 and 100.0 otherwise. *)
Theorem student_analytics_shape :
  forall (st : Store) (student_id : string),
    let done := filter (fun a => a_student_id a = student_id /\ a_completed_at a <> None)
                       (attempts st) in
    (done = [] -> get_student_analytics st student_id = NoStudentAttempts student_id)
    /\ (done <> [] ->
        exists stats,
          get_student_analytics st student_id = StudentCompleted stats
          /\ sa_student_id stats = student_id
          /\ sa_total_attempts stats = Z.of_nat (length done)
          /\ 1 <= sa_unique_quizzes stats <= sa_total_attempts stats
          /\ Qbetween 0 100 (sa_pass_rate stats)
          /\ rate_consistent (b_correct_rate (sa_easy stats)) (b_total (sa_easy stats))
          /\ rate_consistent (b_correct_rate (sa_medium stats))
                             (b_total (sa_medium stats))
          /\ rate_consistent (b_correct_rate (sa_hard stats)) (b_total (sa_hard stats))).
Proof.
  intros st student_id done. unfold get_student_analytics. fold done. split.
  - intros ->. reflexivity.
  - intros Hne. destruct done as [|a rows] eqn:E; [congruence|].
    eexists. split; [reflexivity|].
    cbn [sa_student_id sa_total_attempts sa_unique_quizzes sa_pass_rate sa_easy
         sa_medium sa_hard b_correct_rate b_total].
    pose proof (count_attempts_ok st (a :: rows) (mkCounters 0 0 0 0 0 0)
                  ltac:(unfold counters_ok; cbn; lia)) as (He & Hm & Hh).
    split; [reflexivity|]. split; [reflexivity|].
    split; [|split; [|split; [|split]]].
    + pose proof (size_list_to_set_le (map a_quiz_id (a :: rows))) as Hle.
      pose proof (size_list_to_set_pos (a_quiz_id a) (map a_quiz_id rows)) as Hpos.
      rewrite length_map in Hle. cbn [map] in *. lia.
    + apply percent_value_bounds; [|cbn [length]; lia].
      pose proof (length_filter (fun a => a_passed a = Some true) (a :: rows)). lia.
    + apply percent_consistent. exact He.
    + apply percent_consistent. exact Hm.
    + apply percent_consistent. exact Hh.
Qed.

(** ** The adaptive quiz *)

Lemma sublist_map {A B : Type} (f : A -> B) (l1 l2 : list A) :
  l1 `sublist_of` l2 -> map f l1 `sublist_of` map f l2.
Proof. induction 1; cbn [map]; constructor; assumption. Qed.

Lemma slice_to_sublist {A : Type} (n : Z) (l : list A) : slice_to n l `sublist_of` l.
Proof. unfold slice_to. destruct (0 <=? n); apply sublist_take. Qed.

Lemma length_slice_to {A : Type} (n : Z) (l : list A) :
  0 <= n -> (length (slice_to n l) <= Z.to_nat n)%nat.
Proof.
  intros Hn. unfold slice_to. destruct (Z.leb_spec 0 n); [|lia].
  rewrite length_take. lia.
Qed.

(** A quiz returned by [build_adaptive_quiz] is stored and resolves under its
    id; it allows 3 minutes per question, passes at 70.0 and allows 3
    attempts; for a count [n >= 0] it holds at most [n] question ids; every id
    names a stored question that, when tags were given, carries one of them;
    and no id is repeated when the stored question ids are distinct. *)
Theorem adaptive_quiz_shape :
  forall (st st' : Store) (env : Env) (student_id : string) (tags : list string)
         (difficulty : string) (n : Z) (quiz : Quiz),
    build_adaptive_quiz st env student_id tags difficulty n = (Ok quiz, st') ->
    get_quiz st' (qz_id quiz) = Some quiz
    /\ qz_time_limit_mins quiz = 3 * Z.of_nat (length (qz_question_ids quiz))
    /\ qz_passing_score quiz = 70%Q /\ qz_max_attempts quiz = 3
    /\ (0 <= n -> Z.of_nat (length (qz_question_ids quiz)) <= n)
    /\ (forall qid, qid ∈ qz_question_ids quiz ->
          exists q, q ∈ questions st /\ q_id q = qid
                    /\ (tags <> [] -> exists t, t ∈ tags /\ t ∈ q_tags q))
    /\ (NoDup (map q_id (questions st)) -> NoDup (qz_question_ids quiz)).
Proof.
  intros st st' env student_id tags difficulty n quiz.
  unfold build_adaptive_quiz.
  set (done := answered_correctly st student_id).
  set (cands := if _ <? _ then _ else _).
  assert (cands `sublist_of` questions st
          /\ forall q, q ∈ cands -> tags <> [] -> exists t, t ∈ tags /\ t ∈ q_tags q)
    as [Hsub Htags].
  { assert (forall d,
               not_yet_correct done (list_questions st (Some tags) d)
                 `sublist_of` questions st
               /\ forall q, q ∈ not_yet_correct done (list_questions st (Some tags) d) ->
                    tags <> [] -> exists t, t ∈ tags /\ t ∈ q_tags q) as Hpool.
    { intros d. destruct (list_questions_spec st (Some tags) d) as [Hs He]. split.
      - etransitivity; [apply sublist_filter | exact Hs].
      - intros q Hq Hne. apply elem_of_not_yet_correct in Hq. destruct Hq as [_ Hq].
        apply He in Hq. destruct Hq as (_ & _ & Ht).
        destruct tags; [congruence | exact Ht]. }
    unfold cands. destruct (_ <? _); apply Hpool. }
  destruct cands as [|c cs] eqn:E; [discriminate|].
  unfold create_quiz. destruct (_ || _); [discriminate|].
  destruct (existsb _ (quizzes st)) eqn:Ex; [discriminate|].
  intros H. injection H as <- <-. cbn [qz_id] in Ex.
  cbn [qz_id qz_time_limit_mins qz_passing_score qz_max_attempts qz_question_ids].
  rewrite length_map.
  split; [|split; [|split; [|split; [|split; [|split]]]]].
  - unfold get_quiz. cbn [quizzes]. rewrite find_snoc.
    rewrite (existsb_false_find _ _ Ex). cbn [qz_id]. rewrite String.eqb_refl.
    reflexivity.
  - lia.
  - reflexivity.
  - reflexivity.
  - intros Hn. pose proof (length_slice_to n (c :: cs) Hn). lia.
  - intros qid Hqid. apply list_elem_of_In, in_map_iff in Hqid.
    destruct Hqid as [q [<- Hq]]. apply list_elem_of_In in Hq.
    pose proof (elem_of_sublist _ _ _ Hq (slice_to_sublist n (c :: cs))) as Hc.
    exists q. split; [eapply elem_of_sublist; eassumption|].
    split; [reflexivity | apply Htags; exact Hc].
  - intros Hnd. eapply sublist_NoDup; [exact Hnd|].
    apply sublist_map. etransitivity; [apply slice_to_sublist | exact Hsub].
Qed.

Lemma adaptive_quiz_shape_witness :
  get_quiz (snd (build_adaptive_quiz st_two_completed (session_env "k") "s-1"
                   ["math"; "general"] "easy" 10)) "k0" = Some adaptive_quiz_k0
  /\ qz_time_limit_mins adaptive_quiz_k0
     = 3 * Z.of_nat (length (qz_question_ids adaptive_quiz_k0)).
Proof.
  destruct (adaptive_quiz_shape st_two_completed
              (snd (build_adaptive_quiz st_two_completed (session_env "k") "s-1"
                      ["math"; "general"] "easy" 10))
              (session_env "k") "s-1" ["math"; "general"] "easy" 10 adaptive_quiz_k0
              ltac:(vm_compute; reflexivity)) as (H1 & H2 & _).
  split; [exact H1 | exact H2].
Defined.

(** ** Unknown ids and blank filters *)

Lemma find_key_not_in {A : Type} (key : A -> string) (x : string) (l : list A) :
  x ∉ map key l -> find (fun a => String.eqb (key a) x) l = None.
Proof. intros H. apply existsb_false_find, existsb_id_false_iff. exact H. Qed.

(** An id that is no primary key of its table is reported and nothing is
    written: for a quiz id, [start_attempt] and [get_analytics] return the
    quiz-not-found error and [get_quiz_questions] the empty list; for an
    attempt id, [submit_answer] and [complete_attempt] return the
    attempt-not-found error and [get_attempt] returns nothing. *)
Theorem unknown_ids_are_reported :
  (forall (st : Store) (env : Env) (quiz_id student_id : string),
      quiz_id ∉ map qz_id (quizzes st) ->
      start_attempt st env quiz_id student_id = (Err (QuizNotFound quiz_id), st)
      /\ get_analytics st quiz_id = Err (QuizNotFound quiz_id)
      /\ get_quiz_questions st quiz_id = [])
  /\ (forall (st : Store) (env : Env) (attempt_id question_id answer : string),
         attempt_id ∉ map a_id (attempts st) ->
         submit_answer st attempt_id question_id answer = (Err AttemptNotFound, st)
         /\ complete_attempt st env attempt_id = (Err AttemptNotFound, st)
         /\ get_attempt st attempt_id = None).
Proof.
  split.
  - intros st env quiz_id student_id Hno.
    assert (get_quiz st quiz_id = None) as Hq by (apply find_key_not_in; exact Hno).
    unfold start_attempt, get_analytics, get_quiz_questions. rewrite Hq. auto.
  - intros st env attempt_id question_id answer Hno.
    assert (find_attempt st attempt_id = None) as Hf
      by (apply find_key_not_in; exact Hno).
    unfold submit_answer, complete_attempt, get_attempt. rewrite Hf. auto.
Qed.

Lemma unknown_ids_witness :
  start_attempt st_quiz (session_env "a") "no-such-quiz" "s-1"
  = (Err (QuizNotFound "no-such-quiz"), st_quiz)
  /\ submit_answer st_quiz "no-such-attempt" "q0" "b" = (Err AttemptNotFound, st_quiz).
Proof.
  split.
  - apply (proj1 unknown_ids_are_reported st_quiz (session_env "a") "no-such-quiz" "s-1").
    intros H. apply list_elem_of_In in H. vm_compute in H. destruct H as [H | []].
    discriminate.
  - apply (proj2 unknown_ids_are_reported st_quiz (session_env "a") "no-such-attempt"
             "q0" "b").
    intros H. apply list_elem_of_In in H. vm_compute in H. exact H.
Defined.

(** [list-questions] with a [--tags] argument of whitespace only lists what
    it lists without [--tags]: the empty default is read as no tag list, and a
    blank one as an empty tag list, which filters nothing. *)
Theorem blank_tags_filter_nothing :
  forall (st : Store) (arg : string) (difficulty : option string),
    whitespace_only arg = true ->
    list_questions st (optional_csv arg) difficulty
    = list_questions st None difficulty.
Proof.
  intros st arg difficulty Hws. unfold optional_csv.
  destruct (PyStr.truthy arg); [|reflexivity].
  rewrite (split_csv_blank arg Hws). reflexivity.
Qed.

Lemma blank_tags_filter_nothing_witness :
  list_questions st_bank (optional_csv "  ") (Some "easy")
  = list_questions st_bank None (Some "easy")
  /\ map q_id (list_questions st_bank (optional_csv "  ") (Some "easy")) = ["e0"; "o0"]
  /\ map q_id (list_questions st_bank (optional_csv "math, art") (Some "easy"))
     = ["e0"; "o0"]
  /\ map q_id (list_questions st_bank (optional_csv "math") None) = ["e0"; "h0"].
Proof.
  split; [|repeat split; vm_compute; reflexivity].
  apply (blank_tags_filter_nothing st_bank "  " (Some "easy")). reflexivity.
Defined.
